(** * Opportunity matching: scorers, ranking and opportunity lifecycle

    A shallow embedding of the opportunity-matching engine of the
    community platform:

    - [opportunity_matcher.py]: the community-scoped opportunity store
      (create / list / set status), the user profile store, and the
      profile/activity scorer with its ranking;
    - [personalized_opportunities.py]: the tag-weighted scorer over the
      static catalog [OPPORTUNITY_DATABASE] and its ranking;
    - the callers of the store: the opportunity and profile endpoints of
      [fastapi_server.py] with [track_engagement] of [analytics.py], and
      the profile form and the opportunity form of [streamlit_app.py].

    Conventions of the embedding.

    - A Python [float] is the rational number it denotes.  In the
      tag-weighted scorer, whose result is truncated by [int], every
      division, product and sum is rounded as binary64 arithmetic rounds
      it: to the nearest number with a significand of 53 bits, ties to the
      even significand ([Binary64]).  Overflow is not modelled: the values
      of that scorer stay far below the largest binary64 number unless a
      list holds more than [10**300] items.  The scorer of
      [opportunity_matcher.py] is modelled with exact rationals.
    - Python [str] is [string]; [lower] acts on the ASCII letters and
      [strip] removes the ASCII white space.
    - A Python [dict] with a fixed set of keys is a record; a key that the
      code reads with a default ([d.get(k, default)]) is a field holding
      that default when the key is absent.
    - The records that [push] adds to a node are the list of these records
      in key order; the push key of a record is its position.  The name of
      a community is used as a path, [opportunities/{community}]: its
      segments lead from the node [opportunities] to the node of the
      community, through the nodes of the communities whose names are the
      shorter paths.  A user name is taken to be one segment: the key of a
      child of [user_profiles] or of [user_activity].
    - [random.randint], [uuid.uuid4] and [datetime.now] are inputs: the
      random draws come from an explicit generator state, the fresh id and
      the time stamp from an explicit environment. *)

From Stdlib Require Import ZArith QArith Qround Qpower Qabs Lqa Lia Ascii String Sorted.
From stdpp Require Import gmap strings list pretty.

(** ** Python built-ins used by the two modules *)

Module Py.

(** [str.lower], on the ASCII letters. *)
Definition lower_ascii (c : ascii) : ascii :=
  let n := nat_of_ascii c in
  if (65 <=? n)%nat && (n <=? 90)%nat then ascii_of_nat (n + 32) else c.

Fixpoint lower (s : string) : string :=
  match s with
  | EmptyString => EmptyString
  | String c s' => String (lower_ascii c) (lower s')
  end.

(** White space removed by [str.strip()] with no argument (ASCII range):
    tab, line feed, vertical tab, form feed, carriage return, the four
    separators 0x1c-0x1f and the space. *)
Definition is_space (c : ascii) : bool :=
  let n := nat_of_ascii c in
  ((9 <=? n)%nat && (n <=? 13)%nat) || ((28 <=? n)%nat && (n <=? 32)%nat).

Fixpoint lstrip (s : string) : string :=
  match s with
  | EmptyString => EmptyString
  | String c s' => if is_space c then lstrip s' else s
  end.

Fixpoint rstrip (s : string) : string :=
  match s with
  | EmptyString => EmptyString
  | String c s' =>
      match rstrip s' with
      | EmptyString => if is_space c then EmptyString else String c EmptyString
      | r => String c r
      end
  end.

Definition strip (s : string) : string := rstrip (lstrip s).

(** [needle in haystack] on two strings: substring test. *)
Fixpoint str_contains (needle haystack : string) : bool :=
  String.prefix needle haystack ||
  match haystack with
  | EmptyString => false
  | String _ h' => str_contains needle h'
  end.

(** [x in l] on a list of strings. *)
Definition list_contains (x : string) (l : list string) : bool :=
  bool_decide (x ∈ l).

(** [sep.join(l)]. *)
Definition join (sep : string) (l : list string) : string := String.concat sep l.

(** [s.split(sep)] for a separator of one character: the pieces between
    the occurrences of [sep]; the empty string gives one empty piece. *)
Fixpoint split (sep : ascii) (s : string) : list string :=
  match s with
  | EmptyString => [EmptyString]
  | String c s' =>
      if Ascii.eqb c sep then EmptyString :: split sep s'
      else match split sep s' with
           | piece :: pieces => String c piece :: pieces
           | [] => [String c EmptyString]
           end
  end.

(** [c in s] for a character [c]. *)
Fixpoint has_char (c : ascii) (s : string) : bool :=
  match s with
  | EmptyString => false
  | String c' s' => Ascii.eqb c' c || has_char c s'
  end.

(** Truth value of a list and of a string: non-empty. *)
Definition truthy {A} (l : list A) : bool :=
  match l with [] => false | _ => true end.

Definition str_truthy (s : string) : bool :=
  match s with EmptyString => false | _ => true end.

(** [sum(1 for x in l if p x)]. *)
Definition count_if {A} (p : A → bool) (l : list A) : nat :=
  length (List.filter p l).

(** [any(p x for x in l)]. *)
Definition any {A} (p : A → bool) (l : list A) : bool := existsb p l.

(** [len(l)] and an [int] as a rational. *)
Definition Q_of_nat (n : nat) : Q := inject_Z (Z.of_nat n).

(** [int(x)] on a float: truncation toward zero. *)
Definition int_of (q : Q) : Z := Z.quot (Qnum q) (Z.pos (Qden q)).

(** [round(x)]: to the nearest integer, ties to the even one. *)
Definition round_half_even (q : Q) : Z :=
  let f := Qfloor q in
  match (q - inject_Z f ?= 1 # 2)%Q with
  | Lt => f
  | Gt => (f + 1)%Z
  | Eq => if Z.even f then f else (f + 1)%Z
  end.

(** [round(x, 3)]. *)
Definition round3 (q : Q) : Q :=
  (inject_Z (round_half_even (q * 1000)) / 1000)%Q.

(** [l[:n]] for an [int] n: the first [n] elements, and for a negative [n]
    all but the last [-n]. *)
Definition slice_to {A} (n : Z) (l : list A) : list A :=
  if (0 <=? n)%Z then take (Z.to_nat n) l
  else take (length l - Z.to_nat (- n)) l.

(** [l[-n:]] for a positive literal [n]: the last [n] elements. *)
Definition last_n {A} (n : nat) (l : list A) : list A :=
  drop (length l - n) l.

(** [list.sort], a stable sort: [lt x y] says that the key of [x] is
    strictly before the key of [y] in the requested order.  The elements
    are inserted from the last one to the first; each goes in front of the
    first element whose key is not strictly before its own, so elements
    with equal keys keep the order of the input. *)
Section Sort.
Context {A : Type} (lt : A → A → bool).

Fixpoint insert_sorted (x : A) (l : list A) : list A :=
  match l with
  | [] => [x]
  | y :: l' => if lt y x then y :: insert_sorted x l' else x :: l
  end.

Definition stable_sort (l : list A) : list A :=
  foldr insert_sorted [] l.

(** [x] may stand in front of [y] in a sorted list. *)
Definition in_order (x y : A) : Prop := lt y x = false.
End Sort.

End Py.

(** ** Binary64 arithmetic *)

Module Binary64.

(** The exponent of the leading bit of a positive [x]:
    [2 ** ilog2 x <= x < 2 ** (ilog2 x + 1)]. *)
Definition ilog2 (x : Q) : Z :=
  let l := (Z.log2 (Qnum x) - Z.log2 (Z.pos (Qden x)))%Z in
  if Qle_bool (2 ^ l) x then l else (l - 1)%Z.

(** The exponent of the last bit of the significand of [x]: 52 places
    below the leading bit, and never below that of the subnormal
    numbers. *)
Definition ulp_exponent (x : Q) : Z := Z.max (ilog2 (Qabs x) - 52) (-1074).

(** The binary64 number nearest to [x], ties to the even significand. *)
Definition round (x : Q) : Q :=
  if Qeq_bool x 0 then 0%Q
  else
    let e := ulp_exponent x in
    Qred (inject_Z (Py.round_half_even (x / 2 ^ e)) * 2 ^ e)%Q.

(** [x + y], [x * y] and [x / y] on floats; [x / y] is also the quotient
    of two [int], which Python rounds once. *)
Definition add (x y : Q) : Q := round (x + y).
Definition mul (x y : Q) : Q := round (x * y).
Definition div (x y : Q) : Q := round (x / y).

End Binary64.

(** ** The generator behind [random.randint] *)

Module Random.

Record state := { entropy : nat → Z; cursor : nat }.

(** [random.randint(a, b)]: an integer [N] with [a <= N <= b]; the draw
    advances the generator. *)
Definition randint (a b : Z) (s : state) : Z * state :=
  ((a + entropy s (cursor s) `mod` (b - a + 1))%Z,
   {| entropy := entropy s; cursor := S (cursor s) |}).

End Random.

(** ** Records shared by the two modules *)

(** A user profile as [update_user_profile] writes it. *)
Record UserProfile := {
  username : string;
  skills : list string;
  interests : list string;
  tags : list string;
  bio : string;
  metadata : gmap string string;
  updated_at : string
}.

(** ** personalized_opportunities.py: the tag-weighted scorer *)

Module Personalized.

(** An entry of [OPPORTUNITY_DATABASE]. *)
Record Template := {
  t_title : string;
  t_type : string;
  t_category : string;
  t_skills : list string;
  t_interests : list string;
  t_tags : list string;
  t_description : string;
  t_company : string;
  urgency_days : Z
}.

(** The four components.  Each is the amount the code adds to [score]. *)

(** [(tag_matches / len(opp_tags)) * 50] *)
Definition tag_contribution (user_tags opp_tags_raw : list string) : Q :=
  let opp_tags := map Py.lower opp_tags_raw in
  let tag_matches := Py.count_if (fun tag => Py.list_contains tag opp_tags) user_tags in
  Binary64.mul
    (Binary64.div (Py.Q_of_nat tag_matches) (Py.Q_of_nat (length opp_tags))) 50.

(** [any(o in u or u in o for o in opp_items)] *)
Definition loosely_matches (opp_items : list string) (u : string) : bool :=
  Py.any (fun o => Py.str_contains o u || Py.str_contains u o) opp_items.

(** [(skill_matches / len(opp_skills)) * weight], also used for interests *)
Definition loose_contribution (weight : Q) (user_items opp_items_raw : list string) : Q :=
  let opp_items := map Py.lower opp_items_raw in
  let matches := Py.count_if (loosely_matches opp_items) user_items in
  Binary64.mul
    (Binary64.div (Py.Q_of_nat matches) (Py.Q_of_nat (length opp_items))) weight.

(** [(bio_matches / len(opportunity['tags'])) * 10] *)
Definition bio_contribution (user_bio : string) (opp_tags : list string) : Q :=
  let bio_matches := Py.count_if (fun tag => Py.str_contains tag user_bio) opp_tags in
  Binary64.mul
    (Binary64.div (Py.Q_of_nat bio_matches) (Py.Q_of_nat (length opp_tags))) 10.

(** The body of [calculate_match_score] up to [# Normalize score]: the pair
    [(score, max_score)] threaded through the four [if] blocks.  [score]
    starts as the [int] 0 and is a [float] from the first [+=] on;
    [max_score] is an [int]. *)
Definition accumulate (user_profile : UserProfile) (opportunity : Template) : Q * Z :=
  let score := 0%Q in
  let max_score := 0%Z in
  let user_skills := map (fun s => Py.strip (Py.lower s)) (skills user_profile) in
  let user_interests := map (fun i => Py.strip (Py.lower i)) (interests user_profile) in
  let user_bio := Py.lower (bio user_profile) in
  let user_tags := map (fun t => Py.strip (Py.lower t)) (tags user_profile) in
  (* TAG MATCHING *)
  let '(score, max_score) :=
    if Py.truthy (t_tags opportunity) && Py.truthy user_tags then
      let max_score := (max_score + 50)%Z in
      if Py.truthy user_tags
      then (Binary64.add score (tag_contribution user_tags (t_tags opportunity)), max_score)
      else (score, max_score)
    else (score, max_score) in
  (* Skills matching *)
  let '(score, max_score) :=
    if Py.truthy (t_skills opportunity) then
      let max_score := (max_score + 25)%Z in
      if Py.truthy user_skills
      then (Binary64.add score (loose_contribution 25 user_skills (t_skills opportunity)), max_score)
      else (score, max_score)
    else (score, max_score) in
  (* Interests matching *)
  let '(score, max_score) :=
    if Py.truthy (t_interests opportunity) then
      let max_score := (max_score + 15)%Z in
      if Py.truthy user_interests
      then (Binary64.add score (loose_contribution 15 user_interests (t_interests opportunity)), max_score)
      else (score, max_score)
    else (score, max_score) in
  (* Bio keyword matching *)
  let '(score, max_score) :=
    if Py.str_truthy user_bio && Py.truthy (t_tags opportunity) then
      let max_score := (max_score + 10)%Z in
      if Py.truthy (t_tags opportunity)
      then (Binary64.add score (bio_contribution user_bio (t_tags opportunity)), max_score)
      else (score, max_score)
    else (score, max_score) in
  (score, max_score).

(** [(score / max_score) * 100], a [float]. *)
Definition percentage (acc : Q * Z) : Q :=
  let '(score, max_score) := acc in
  Binary64.mul (Binary64.div score (inject_Z max_score)) 100.

(** [# Normalize score]: the value of [final_score] before the jitter. *)
Definition normalize (acc : Q * Z) : Z :=
  let '(score, max_score) := acc in
  if (0 <? max_score)%Z
  then Py.int_of (percentage (score, max_score))
  else 0%Z.

Definition pre_jitter_score (user_profile : UserProfile) (opportunity : Template) : Z :=
  normalize (accumulate user_profile opportunity).

(** [calculate_match_score]: the normalized score plus a draw of
    [random.randint(-3, 3)], clamped to [0, 100]. *)
Definition calculate_match_score (user_profile : UserProfile) (opportunity : Template)
    (rng : Random.state) : Z * Random.state :=
  let final_score := pre_jitter_score user_profile opportunity in
  let '(jitter, rng) := Random.randint (-3) 3 rng in
  (Z.max 0 (Z.min 100 (final_score + jitter)), rng).

(** [get_urgency_text] returns a text and an icon; the icons are four
    coloured circles. *)
Inductive Icon := red_circle | yellow_circle | green_circle | blue_circle.

(** An entry of the list [get_personalized_opportunities] returns. *)
Record Scored := {
  s_title : string;
  s_type : string;
  s_category : string;
  s_description : string;
  s_company : string;
  s_match : Z;
  s_urgency : string;
  s_urgency_icon : Icon;
  s_urgency_days : Z
}.

Section Ranking.

(** [(datetime.now() + timedelta(days=days)).strftime('%b %d')] *)
Variable date_after : Z → string.

Definition get_urgency_text (days : Z) : string * Icon :=
  if (days <=? 3)%Z then
    ("Urgent: " +:+ pretty days +:+ " days left", red_circle)
  else if (days <=? 7)%Z then
    ("Apply before " +:+ date_after days, yellow_circle)
  else if (days <=? 14)%Z then
    ("Deadline in " +:+ pretty days +:+ " days", green_circle)
  else
    ("Open until " +:+ date_after days, blue_circle).

(** The dictionary appended for an opportunity with score [score]. *)
Definition scored_entry (opp : Template) (score : Z) : Scored :=
  let '(urgency_text, urgency_icon) := get_urgency_text (urgency_days opp) in
  {| s_title := t_title opp;
     s_type := t_type opp;
     s_category := t_category opp;
     s_description := t_description opp;
     s_company := t_company opp;
     s_match := score;
     s_urgency := urgency_text;
     s_urgency_icon := urgency_icon;
     s_urgency_days := urgency_days opp |}.

(** The [for opp in ...] loop: every opportunity is scored, in catalog
    order, and appended when its score reaches [min_score]. *)
Fixpoint scoring_loop (user_profile : UserProfile) (min_score : Q)
    (catalog : list Template) (rng : Random.state) : list Scored * Random.state :=
  match catalog with
  | [] => ([], rng)
  | opp :: rest =>
      let '(score, rng) := calculate_match_score user_profile opp rng in
      let '(scored_opportunities, rng) := scoring_loop user_profile min_score rest rng in
      (if Qle_bool min_score (inject_Z score)
       then scored_entry opp score :: scored_opportunities
       else scored_opportunities, rng)
  end.

(** The sort key [(-x['match'], x['urgency_days'])], compared as Python
    compares tuples. *)
Definition key_lt (x y : Scored) : bool :=
  (- s_match x <? - s_match y)%Z
  || ((- s_match x =? - s_match y)%Z && (s_urgency_days x <? s_urgency_days y)%Z).

Definition get_personalized_opportunities_in (catalog : list Template)
    (user_profile : UserProfile) (top_n : Z) (min_score : Q)
    (rng : Random.state) : list Scored * Random.state :=
  let '(scored_opportunities, rng) := scoring_loop user_profile min_score catalog rng in
  let scored_opportunities := Py.stable_sort key_lt scored_opportunities in
  (Py.slice_to top_n scored_opportunities, rng).

End Ranking.

Definition OPPORTUNITY_DATABASE : list Template :=
  let mk := Build_Template in [
  mk "Senior Full-Stack Developer" "Job" "Tech"
     ["Python"; "JavaScript"; "React"; "Node.js"] ["Technology"; "Coding"]
     ["python"; "javascript"; "react"; "nodejs"; "fullstack"; "web"; "developer"]
     "Build next-gen SaaS products" "TechVenture Inc." 7%Z;
  mk "Frontend Developer - React" "Job" "Tech"
     ["React"; "JavaScript"; "TypeScript"; "CSS"] ["Technology"; "Frontend"]
     ["react"; "javascript"; "typescript"; "frontend"; "web"; "ui"]
     "Create beautiful user interfaces" "WebCraft Studios" 10%Z;
  mk "Vue.js Developer" "Job" "Tech"
     ["Vue.js"; "JavaScript"; "Vuex"; "CSS"] ["Technology"; "Frontend"]
     ["vue"; "vuejs"; "javascript"; "frontend"; "web"; "spa"]
     "Build modern SPAs with Vue" "VueWorks" 14%Z;
  mk "Angular Developer" "Job" "Tech"
     ["Angular"; "TypeScript"; "RxJS"] ["Technology"; "Frontend"]
     ["angular"; "typescript"; "frontend"; "web"; "spa"]
     "Enterprise Angular applications" "AngularPro" 9%Z;
  mk "Backend Engineer - Node.js" "Job" "Tech"
     ["Node.js"; "Express"; "MongoDB"; "API"] ["Technology"; "Backend"]
     ["nodejs"; "backend"; "api"; "express"; "mongodb"; "database"]
     "Scalable backend systems" "CloudAPI Inc." 12%Z;
  mk "Python Backend Developer" "Job" "Tech"
     ["Python"; "Django"; "Flask"; "PostgreSQL"] ["Technology"; "Backend"]
     ["python"; "django"; "flask"; "backend"; "api"; "postgresql"]
     "Robust Python applications" "PythonWorks" 8%Z;
  mk "Java Spring Boot Developer" "Job" "Tech"
     ["Java"; "Spring Boot"; "Microservices"] ["Technology"; "Backend"]
     ["java"; "spring"; "springboot"; "backend"; "microservices"]
     "Enterprise Java systems" "JavaCorp" 11%Z;
  mk "Go Developer" "Job" "Tech"
     ["Go"; "Golang"; "Microservices"; "Docker"] ["Technology"; "Backend"]
     ["go"; "golang"; "backend"; "microservices"; "docker"]
     "High-performance Go services" "GoTech" 13%Z;
  mk "AI/ML Engineer" "Job" "AI"
     ["Machine Learning"; "Python"; "TensorFlow"; "PyTorch"] ["AI"; "ML"]
     ["ai"; "ml"; "machinelearning"; "python"; "tensorflow"; "pytorch"; "deeplearning"]
     "Cutting-edge AI models" "HealthAI Labs" 14%Z;
  mk "Data Scientist" "Job" "Data"
     ["Python"; "R"; "Statistics"; "ML"] ["Data Science"; "Analytics"]
     ["datascience"; "python"; "r"; "statistics"; "ml"; "analytics"]
     "Extract insights from data" "DataInsights Co." 10%Z;
  mk "NLP Engineer" "Job" "AI"
     ["NLP"; "Python"; "Transformers"; "BERT"] ["AI"; "NLP"]
     ["nlp"; "ai"; "python"; "transformers"; "bert"; "language"]
     "Build language understanding systems" "LangTech AI" 12%Z;
  mk "Computer Vision Engineer" "Job" "AI"
     ["Computer Vision"; "Python"; "OpenCV"; "CNN"] ["AI"; "Vision"]
     ["computervision"; "ai"; "python"; "opencv"; "cnn"; "deeplearning"]
     "Image recognition systems" "VisionAI" 15%Z;
  mk "React Native Developer" "Job" "Mobile"
     ["React Native"; "JavaScript"; "Mobile"] ["Mobile"; "Technology"]
     ["reactnative"; "mobile"; "javascript"; "ios"; "android"; "app"]
     "Cross-platform mobile apps" "MobileFirst" 9%Z;
  mk "iOS Developer" "Job" "Mobile"
     ["Swift"; "iOS"; "SwiftUI"; "Xcode"] ["Mobile"; "iOS"]
     ["ios"; "swift"; "swiftui"; "mobile"; "apple"; "app"]
     "Native iOS applications" "AppleDevs" 11%Z;
  mk "Android Developer" "Job" "Mobile"
     ["Kotlin"; "Android"; "Jetpack Compose"] ["Mobile"; "Android"]
     ["android"; "kotlin"; "mobile"; "jetpack"; "app"]
     "Modern Android apps" "DroidWorks" 10%Z;
  mk "Flutter Developer" "Job" "Mobile"
     ["Flutter"; "Dart"; "Mobile"] ["Mobile"; "Technology"]
     ["flutter"; "dart"; "mobile"; "crossplatform"; "app"]
     "Beautiful Flutter applications" "FlutterPro" 8%Z;
  mk "DevOps Engineer" "Job" "DevOps"
     ["DevOps"; "Docker"; "Kubernetes"; "AWS"] ["DevOps"; "Cloud"]
     ["devops"; "docker"; "kubernetes"; "aws"; "cloud"; "cicd"]
     "Scale infrastructure" "CloudScale Inc." 5%Z;
  mk "AWS Cloud Architect" "Job" "Cloud"
     ["AWS"; "Cloud Architecture"; "Terraform"] ["Cloud"; "Architecture"]
     ["aws"; "cloud"; "architecture"; "terraform"; "devops"]
     "Design cloud solutions" "CloudArch" 12%Z;
  mk "Azure DevOps Engineer" "Job" "DevOps"
     ["Azure"; "DevOps"; "CI/CD"; "Terraform"] ["Cloud"; "DevOps"]
     ["azure"; "devops"; "cloud"; "cicd"; "terraform"]
     "Azure cloud automation" "AzurePro" 14%Z;
  mk "Site Reliability Engineer" "Job" "DevOps"
     ["SRE"; "Kubernetes"; "Monitoring"; "Python"] ["DevOps"; "Reliability"]
     ["sre"; "kubernetes"; "monitoring"; "devops"; "reliability"]
     "Ensure system reliability" "ReliableOps" 10%Z;
  mk "Blockchain Developer" "Job" "Blockchain"
     ["Blockchain"; "Solidity"; "Web3"; "Ethereum"] ["Blockchain"; "Web3"]
     ["blockchain"; "solidity"; "web3"; "ethereum"; "crypto"; "smartcontracts"]
     "Build DeFi applications" "CryptoChain" 10%Z;
  mk "Smart Contract Developer" "Job" "Blockchain"
     ["Solidity"; "Smart Contracts"; "Ethereum"] ["Blockchain"; "DeFi"]
     ["smartcontracts"; "solidity"; "ethereum"; "blockchain"; "defi"]
     "Secure smart contracts" "DeFiLabs" 13%Z;
  mk "Web3 Frontend Developer" "Job" "Blockchain"
     ["React"; "Web3.js"; "Ethereum"; "JavaScript"] ["Web3"; "Frontend"]
     ["web3"; "react"; "ethereum"; "frontend"; "blockchain"; "dapp"]
     "DApp user interfaces" "Web3UI" 11%Z;
  mk "Digital Marketing Manager" "Job" "Marketing"
     ["Marketing"; "SEO"; "Content"; "Social Media"] ["Marketing"; "Business"]
     ["marketing"; "seo"; "content"; "socialmedia"; "digital"; "growth"]
     "Lead marketing strategy" "GrowthHub" 8%Z;
  mk "Content Marketing Specialist" "Job" "Marketing"
     ["Content Writing"; "SEO"; "Marketing"] ["Content"; "Marketing"]
     ["content"; "writing"; "seo"; "marketing"; "copywriting"]
     "Create engaging content" "ContentFirst" 9%Z;
  mk "SEO Specialist" "Job" "Marketing"
     ["SEO"; "Analytics"; "Content"; "Marketing"] ["SEO"; "Marketing"]
     ["seo"; "analytics"; "marketing"; "google"; "optimization"]
     "Optimize search rankings" "SEOPro" 7%Z;
  mk "Social Media Manager" "Job" "Marketing"
     ["Social Media"; "Content"; "Marketing"] ["Social Media"; "Marketing"]
     ["socialmedia"; "content"; "marketing"; "community"; "engagement"]
     "Manage social presence" "SocialGrowth" 10%Z;
  mk "Product Manager" "Job" "Product"
     ["Product Management"; "Agile"; "Strategy"] ["Product"; "Business"]
     ["product"; "productmanagement"; "agile"; "strategy"; "roadmap"]
     "Own product roadmap" "ProductCo" 15%Z;
  mk "Growth Hacker" "Job" "Marketing"
     ["Growth Hacking"; "Analytics"; "Marketing"] ["Growth"; "Startups"]
     ["growth"; "growthhacking"; "marketing"; "analytics"; "startup"]
     "Drive rapid growth" "GrowthLabs" 6%Z;
  mk "Business Development Manager" "Job" "Business"
     ["Business Development"; "Sales"; "Negotiation"] ["Business"; "Sales"]
     ["business"; "sales"; "bd"; "partnerships"; "negotiation"]
     "Build strategic partnerships" "BizDev Inc." 12%Z;
  mk "UI/UX Designer" "Job" "Design"
     ["UI Design"; "UX Design"; "Figma"] ["Design"; "UX"]
     ["ui"; "ux"; "design"; "figma"; "userexperience"; "interface"]
     "Design intuitive interfaces" "DesignTech" 11%Z;
  mk "Product Designer" "Job" "Design"
     ["Product Design"; "UX"; "Prototyping"] ["Design"; "Product"]
     ["productdesign"; "ux"; "design"; "prototyping"; "figma"]
     "End-to-end product design" "ProductDesign Co." 13%Z;
  mk "Graphic Designer" "Job" "Design"
     ["Graphic Design"; "Adobe Creative Suite"] ["Design"; "Art"]
     ["graphicdesign"; "design"; "adobe"; "creative"; "branding"]
     "Create brand identity" "BrandStudio" 7%Z;
  mk "Motion Graphics Designer" "Job" "Design"
     ["Motion Graphics"; "After Effects"; "Animation"] ["Design"; "Animation"]
     ["motiongraphics"; "animation"; "aftereffects"; "design"; "video"]
     "Animated visual content" "MotionWorks" 14%Z;
  mk "Data Analyst" "Job" "Data"
     ["Data Analysis"; "SQL"; "Python"; "Tableau"] ["Data"; "Analytics"]
     ["data"; "analytics"; "sql"; "python"; "tableau"; "visualization"]
     "Analyze business data" "DataCorp" 9%Z;
  mk "Business Intelligence Analyst" "Job" "Data"
     ["BI"; "SQL"; "Power BI"; "Analytics"] ["Business"; "Analytics"]
     ["bi"; "businessintelligence"; "sql"; "powerbi"; "analytics"]
     "Drive data-driven decisions" "BIAnalytics" 11%Z;
  mk "Data Engineer" "Job" "Data"
     ["Data Engineering"; "Python"; "Spark"; "SQL"] ["Data"; "Engineering"]
     ["dataengineering"; "python"; "spark"; "sql"; "etl"; "pipeline"]
     "Build data pipelines" "DataPipe Inc." 10%Z;
  mk "Security Engineer" "Job" "Security"
     ["Cybersecurity"; "Penetration Testing"; "Security"] ["Security"; "Technology"]
     ["security"; "cybersecurity"; "pentesting"; "infosec"; "hacking"]
     "Protect systems from threats" "SecureNet" 8%Z;
  mk "Ethical Hacker" "Job" "Security"
     ["Ethical Hacking"; "Penetration Testing"] ["Security"; "Hacking"]
     ["ethicalhacking"; "pentesting"; "security"; "hacking"; "cybersecurity"]
     "Find and fix vulnerabilities" "HackSafe" 12%Z;
  mk "Co-Founder for FinTech Startup" "Partnership" "Startup"
     ["Entrepreneurship"; "Finance"; "Technology"] ["Startups"; "Entrepreneurship"]
     ["cofounder"; "startup"; "fintech"; "entrepreneurship"; "founder"]
     "Build payment solutions" "FinTech Ventures" 20%Z;
  mk "Technical Co-Founder - AI Startup" "Partnership" "Startup"
     ["AI"; "CTO"; "Technology"; "Leadership"] ["Startups"; "AI"]
     ["cofounder"; "cto"; "ai"; "startup"; "technical"; "founder"]
     "Join as CTO for AI platform" "AI Innovations" 30%Z;
  mk "Marketing Co-Founder" "Partnership" "Startup"
     ["Marketing"; "Growth"; "Strategy"] ["Startups"; "Marketing"]
     ["cofounder"; "marketing"; "startup"; "growth"; "founder"]
     "Lead marketing for SaaS" "SaaS Startup" 25%Z;
  mk "Tech Conference Speaker" "Event" "Speaking"
     ["Public Speaking"; "Technology"] ["Speaking"; "Technology"]
     ["speaking"; "conference"; "tech"; "publicspeaking"; "presentation"]
     "Share expertise with 5000+ attendees" "TechCon" 3%Z;
  mk "AI Summit Panelist" "Event" "Speaking"
     ["AI"; "Public Speaking"] ["AI"; "Speaking"]
     ["ai"; "speaking"; "panel"; "summit"; "conference"]
     "Discuss future of AI" "AI Summit" 5%Z;
  mk "Startup Pitch Competition" "Event" "Competition"
     ["Entrepreneurship"; "Pitching"] ["Startups"; "Competition"]
     ["startup"; "pitch"; "competition"; "entrepreneurship"; "funding"]
     "Win $100K funding" "Startup Arena" 18%Z;
  mk "Hackathon - AI for Good" "Event" "Hackathon"
     ["Coding"; "AI"; "Teamwork"] ["Hackathon"; "AI"]
     ["hackathon"; "ai"; "coding"; "competition"; "innovation"]
     "24-hour AI hackathon" "AIHacks" 4%Z;
  mk "Web3 Hackathon" "Event" "Hackathon"
     ["Blockchain"; "Coding"; "Web3"] ["Blockchain"; "Hackathon"]
     ["hackathon"; "web3"; "blockchain"; "coding"; "crypto"]
     "Build DApps in 48 hours" "Web3Hacks" 6%Z;
  mk "E-commerce Website Development" "Project" "Freelance"
     ["Web Development"; "E-commerce"; "React"] ["Freelancing"; "Web"]
     ["freelance"; "web"; "ecommerce"; "react"; "development"; "project"]
     "Build custom e-commerce platform" "RetailTech" 10%Z;
  mk "Mobile App Design" "Project" "Freelance"
     ["UI Design"; "Mobile Design"; "Figma"] ["Design"; "Freelancing"]
     ["freelance"; "design"; "mobile"; "ui"; "figma"; "project"]
     "Design fitness app" "FitLife" 8%Z;
  mk "Marketing Campaign" "Project" "Consulting"
     ["Marketing"; "Strategy"; "Analytics"] ["Marketing"; "Consulting"]
     ["freelance"; "marketing"; "campaign"; "consulting"; "strategy"]
     "Product launch campaign" "LaunchBoost" 6%Z;
  mk "Data Analysis Project" "Project" "Data"
     ["Data Analysis"; "Python"; "SQL"] ["Data"; "Freelancing"]
     ["freelance"; "data"; "analysis"; "python"; "sql"; "project"]
     "Customer behavior analysis" "DataInsights" 12%Z;
  mk "Logo Design" "Project" "Freelance"
     ["Graphic Design"; "Branding"] ["Design"; "Freelancing"]
     ["freelance"; "design"; "logo"; "branding"; "graphic"]
     "Create brand identity" "BrandNew" 5%Z;
  mk "Coding Mentor" "Mentorship" "Education"
     ["Mentoring"; "Teaching"; "Programming"] ["Teaching"; "Mentorship"]
     ["mentor"; "teaching"; "coding"; "education"; "programming"]
     "Guide junior developers" "CodeMentor" 30%Z;
  mk "AI Workshop Instructor" "Event" "Teaching"
     ["AI"; "Teaching"; "Communication"] ["Teaching"; "AI"]
     ["teaching"; "ai"; "workshop"; "instructor"; "education"]
     "Teach AI fundamentals" "AI Academy" 15%Z;
  mk "Web Development Bootcamp Instructor" "Job" "Teaching"
     ["Web Development"; "Teaching"] ["Teaching"; "Web"]
     ["teaching"; "web"; "bootcamp"; "instructor"; "education"]
     "Teach full-stack development" "CodeBootcamp" 20%Z;
  mk "Angel Investor - EdTech" "Investment" "Funding"
     ["Investment"; "Finance"; "Business"] ["Investment"; "Education"]
     ["investment"; "angel"; "edtech"; "funding"; "investor"]
     "Invest in EdTech startups" "EdTech Fund" 25%Z;
  mk "Startup Advisor - HealthTech" "Advisory" "Consulting"
     ["Healthcare"; "Business"; "Strategy"] ["Healthcare"; "Consulting"]
     ["advisor"; "healthtech"; "startup"; "consulting"; "strategy"]
     "Guide health startups" "HealthAdvisors" 20%Z;
  mk "Tech Advisor for Non-Profit" "Advisory" "Consulting"
     ["Technology"; "Advising"; "Strategy"] ["Social Impact"; "Technology"]
     ["advisor"; "nonprofit"; "tech"; "consulting"; "socialimpact"]
     "Tech strategy for NGO" "TechForGood" 30%Z
  ].

(** [get_personalized_opportunities(user_profile, top_n=5, min_score=30)] *)
Definition get_personalized_opportunities (date_after : Z → string)
    (user_profile : UserProfile) (top_n : Z) (min_score : Q)
    (rng : Random.state) : list Scored * Random.state :=
  get_personalized_opportunities_in date_after OPPORTUNITY_DATABASE
    user_profile top_n min_score rng.

(** The ranking as the specification words it: score every catalog entry,
    sort by [(-match, urgency_days)], keep the first [top_n], and only then
    drop the entries below [min_score]. *)
Fixpoint score_catalog (date_after : Z → string) (user_profile : UserProfile)
    (catalog : list Template) (rng : Random.state) : list Scored * Random.state :=
  match catalog with
  | [] => ([], rng)
  | opp :: rest =>
      let '(score, rng) := calculate_match_score user_profile opp rng in
      let '(scored, rng) := score_catalog date_after user_profile rest rng in
      (scored_entry date_after opp score :: scored, rng)
  end.

Definition reaches (min_score : Q) (x : Scored) : bool :=
  Qle_bool min_score (inject_Z (s_match x)).

Definition rank_then_threshold (date_after : Z → string) (catalog : list Template)
    (user_profile : UserProfile) (top_n : Z) (min_score : Q)
    (rng : Random.state) : list Scored * Random.state :=
  let '(everything, rng) := score_catalog date_after user_profile catalog rng in
  let ranked := Py.slice_to top_n (Py.stable_sort key_lt everything) in
  (List.filter (reaches min_score) ranked, rng).

(** *** Inputs of the scenarios *)

(** A profile and a template with nothing but tags. *)
Definition tags_only_profile (tags : list string) : UserProfile :=
  {| username := ""; skills := []; interests := []; tags := tags;
     bio := ""; metadata := ∅; updated_at := "" |}.

Definition tags_only_template (tags : list string) : Template :=
  {| t_title := ""; t_type := ""; t_category := ""; t_skills := [];
     t_interests := []; t_tags := tags; t_description := "";
     t_company := ""; urgency_days := 0 |}.

(** Scenario 2 of the specification. *)
Definition scenario2_profile : UserProfile := tags_only_profile ["ai"; "python"].
Definition scenario2_template : Template := tags_only_template ["ai"; "ml"; "python"].

(** A tag entered three times, against a template with that one tag. *)
Definition duplicate_tags_profile : UserProfile := tags_only_profile ["ai"; "ai"; "ai"].
Definition single_tag_template : Template := tags_only_template ["ai"].

(** Two skills of the user that both match the one skill of a template. *)
Definition two_skills_profile : UserProfile :=
  {| username := ""; skills := ["python"; "python developer"]; interests := [];
     tags := []; bio := ""; metadata := ∅; updated_at := "" |}.

Definition one_skill_template : Template :=
  {| t_title := ""; t_type := ""; t_category := ""; t_skills := ["Python"];
     t_interests := []; t_tags := []; t_description := "";
     t_company := ""; urgency_days := 0 |}.

(** A profile with the tag [python], a generator whose every draw of
    [randint(-3, 3)] is [0], and a calendar that prints nothing. *)
Definition python_profile : UserProfile := tags_only_profile ["python"].
Definition steady_rng : Random.state :=
  {| Random.entropy := fun _ => 3%Z; Random.cursor := 0 |}.
Definition no_dates : Z → string := fun _ => "".


(** A profile with the tag [react] and the bio [react], and the second
    entry of the catalog, ["Frontend Developer - React"], whose six tags
    hold [react]: the tag component is [1/6 * 50] and the bio component
    [1/6 * 10]. *)
Definition react_profile : UserProfile :=
  {| username := ""; skills := []; interests := []; tags := ["react"];
     bio := "react"; metadata := ∅; updated_at := "" |}.

Definition react_template : Template :=
  default (tags_only_template []) (OPPORTUNITY_DATABASE !! 1).
(** *** [get_opportunity_stats] *)

(** The dictionary [get_opportunity_stats] returns. *)
Record Stats := {
  total : nat;
  high_match : nat;
  medium_match : nat;
  urgent : nat
}.

(** The counts taken over the list [all_opps]. *)
Definition stats_of (all_opps : list Scored) : Stats :=
  {| total := length all_opps;
     high_match := Py.count_if (fun o => (70 <=? s_match o)%Z) all_opps;
     medium_match :=
       Py.count_if (fun o => (50 <=? s_match o)%Z && (s_match o <? 70)%Z) all_opps;
     urgent := Py.count_if (fun o => (s_urgency_days o <=? 7)%Z) all_opps |}.

Definition get_opportunity_stats_in (date_after : Z → string)
    (catalog : list Template) (user_profile : UserProfile)
    (rng : Random.state) : Stats * Random.state :=
  let '(all_opps, rng) :=
    get_personalized_opportunities_in date_after catalog user_profile 200 0 rng in
  (stats_of all_opps, rng).

Definition get_opportunity_stats (date_after : Z → string)
    (user_profile : UserProfile) (rng : Random.state) : Stats * Random.state :=
  get_opportunity_stats_in date_after OPPORTUNITY_DATABASE user_profile rng.

(** A profile with every field empty, the value of [{}]. *)
Definition blank_profile : UserProfile :=
  {| username := ""; skills := []; interests := []; tags := [];
     bio := ""; metadata := ∅; updated_at := "" |}.

(** [x] stands before [y] in a list ranked by [(-match, urgency_days)]:
    a higher score first and, at equal score, the fewer days first. *)
Definition ranked_before (x y : Scored) : Prop :=
  (s_match y < s_match x)%Z
  ∨ (s_match x = s_match y ∧ (s_urgency_days x ≤ s_urgency_days y)%Z).

End Personalized.

(** ** opportunity_matcher.py: the opportunity store and the profile scorer *)

Module Matcher.

(** A stored opportunity. *)
Record Opportunity := {
  opp_id : string;
  opp_title : string;
  opp_description : string;
  opp_category : string;
  opp_tags : list string;
  opp_requirements : list string;
  opp_deadline : option string;
  opp_posted_by : option string;
  opp_metadata : gmap string string;
  opp_created_at : string;
  opp_status : string
}.

(** A record of the activity log. *)
Record Activity := {
  act_username : string;
  act_community : string;
  act_type : string;
  act_content : string;
  act_timestamp : string
}.

(** *** The tree below [opportunities] *)

(** A node of the tree below [opportunities]: the records pushed to it, in
    the order of the keys that the database generated for them, and the
    nodes below it, each under the next segment of its path.  The
    generated keys are not segments of community names: no path leads into
    a record. *)
#[local] Unset Elimination Schemes.
Inductive Node := node (pushed : list Opportunity) (below : gmap string Node).
#[local] Set Elimination Schemes.

Definition pushed_of (n : Node) : list Opportunity :=
  match n with node pushed _ => pushed end.

Definition below_of (n : Node) : gmap string Node :=
  match n with node _ below => below end.

(** A node that holds nothing, which is how a read sees an absent node. *)
Definition empty_node : Node := node [] ∅.

(** A child of a node as a read returns it: a record, or the content of a
    node below. *)
Inductive Value :=
  | stored (opp : Opportunity)
  | nested (n : Node).

(** The hosted database behind [db.reference]: the three subtrees the
    module uses.  [reachable] tells whether the calls on the database
    complete; when they raise, every function below ends in its [except]
    branch. *)
Record Firebase := {
  reachable : bool;
  opportunities : Node;
  user_profiles : gmap string UserProfile;
  user_activity : gmap string (list Activity)
}.

(** [db.reference(f'opportunities/{community}')]: the client refuses a
    path that holds one of the characters [[].?#$] and otherwise follows
    the segments between the slashes, empty segments left out.  The result
    is the path from the node [opportunities]. *)
Definition illegal (c : ascii) : bool := Py.has_char c "[].?#$".

Definition segments (community : string) : option (list string) :=
  if existsb illegal (list_ascii_of_string community) then None
  else Some (List.filter Py.str_truthy (Py.split "/" community)).

(** The node at the end of a path, [empty_node] when there is none. *)
Fixpoint node_at (path : list string) (n : Node) : Node :=
  match path with
  | [] => n
  | segment :: rest => node_at rest (default empty_node (below_of n !! segment))
  end.

(** The tree with the node at the end of a path changed by [f]; the nodes
    on the way are created when they are missing. *)
Fixpoint at_path (f : Node → Node) (path : list string) (n : Node) : Node :=
  match path with
  | [] => f n
  | segment :: rest =>
      node (pushed_of n)
        (<[segment := at_path f rest (default empty_node (below_of n !! segment))]>
           (below_of n))
  end.

(** The children of a node in the order of their keys, which are compared
    as strings.  The keys that the database generates start with ["-"]: a
    node below whose segment is before ["-"] comes before the records, and
    the other nodes below come after them; a segment that itself starts
    with ["-"], or that the database orders as a number, is placed as the
    other segments are. *)
Definition before_generated_keys (segment : string) : bool :=
  String.ltb segment "-".

Definition named (n : Node) : list (string * Node) :=
  Py.stable_sort (fun a b => String.ltb a.1 b.1) (map_to_list (below_of n)).

Definition children (n : Node) : list Value :=
  let first := List.filter (fun c => before_generated_keys c.1) (named n) in
  let last := List.filter (fun c => negb (before_generated_keys c.1)) (named n) in
  map (fun c => nested c.2) first ++ map stored (pushed_of n)
  ++ map (fun c => nested c.2) last.

(** The records pushed under [opportunities/{community}], in key order. *)
Definition collection (σ : Firebase) (community : string) : list Opportunity :=
  match segments community with
  | Some path => pushed_of (node_at path (opportunities σ))
  | None => []
  end.

Definition activity_log (σ : Firebase) (username : string) : list Activity :=
  default [] (user_activity σ !! username).

(** The database with the records of the node at [path] replaced. *)
Definition with_collection (σ : Firebase) (path : list string)
    (records : list Opportunity) : Firebase :=
  {| reachable := reachable σ;
     opportunities :=
       at_path (fun n => node records (below_of n)) path (opportunities σ);
     user_profiles := user_profiles σ;
     user_activity := user_activity σ |}.

(** [ref.child(key).update({"status": status})] on one record. *)
Definition set_status (status : string) (opp : Opportunity) : Opportunity :=
  {| opp_id := opp_id opp;
     opp_title := opp_title opp;
     opp_description := opp_description opp;
     opp_category := opp_category opp;
     opp_tags := opp_tags opp;
     opp_requirements := opp_requirements opp;
     opp_deadline := opp_deadline opp;
     opp_posted_by := opp_posted_by opp;
     opp_metadata := opp_metadata opp;
     opp_created_at := opp_created_at opp;
     opp_status := status |}.

(** What the code reads of a child: [opp.get("status")],
    [x.get("created_at", "")] and the records among the children.  The
    content of a node below has no status; its [created_at] is the default
    unless it has a node below of that name, which is then no string. *)
Definition status_of (v : Value) : option string :=
  match v with
  | stored opp => Some (opp_status opp)
  | nested _ => None
  end.

Definition created_at_of (v : Value) : option string :=
  match v with
  | stored opp => Some (opp_created_at opp)
  | nested n =>
      if bool_decide (is_Some (below_of n !! "created_at")) then None else Some ""
  end.

Definition records (values : list Value) : list Opportunity :=
  omap (fun v => match v with stored opp => Some opp | nested _ => None end) values.

(** *** Opportunity storage and retrieval *)

(** [add_opportunity]; [uuid4] is the value of [str(uuid.uuid4())] and
    [now] the value of [datetime.now().isoformat()].  An argument left out
    by the caller is [None]. *)
Definition add_opportunity (σ : Firebase) (uuid4 now : string)
    (community title description category : string)
    (tags requirements : option (list string))
    (deadline posted_by : option string)
    (metadata : option (gmap string string)) : option string * Firebase :=
  let tags := default [] tags in
  let requirements := default [] requirements in
  let metadata := default ∅ metadata in
  let opportunity :=
    {| opp_id := uuid4;
       opp_title := title;
       opp_description := description;
       opp_category := category;
       opp_tags := tags;
       opp_requirements := requirements;
       opp_deadline := deadline;
       opp_posted_by := posted_by;
       opp_metadata := metadata;
       opp_created_at := now;
       opp_status := "active" |} in
  if reachable σ then
    match segments community with
    | Some path =>
        (Some (opp_id opportunity),
         with_collection σ path
           (pushed_of (node_at path (opportunities σ)) ++ [opportunity]))
    | None => (None, σ)
    end
  else (None, σ).

(** The order of [sort(key=created_at, reverse=True)]. *)
Definition newer (x y : Value) : bool :=
  String.ltb (default "" (created_at_of y)) (default "" (created_at_of x)).

(** [opportunities.sort(key=..., reverse=True)]: the comparison of two keys
    raises when one of them is no string. *)
Definition sort_newest_first (values : list Value) : option (list Value) :=
  if bool_decide (2 ≤ length values)
     && existsb (fun v => bool_decide (created_at_of v = None)) values
  then None
  else Some (Py.stable_sort newer values).

(** [get_opportunities(community, status="active", limit=50)] *)
Definition get_opportunities (σ : Firebase) (community status : string)
    (limit : nat) : list Value :=
  if reachable σ then
    match segments community with
    | Some path =>
        let data := Py.last_n limit (children (node_at path (opportunities σ))) in
        if negb (Py.truthy data) then []
        else
          let opportunities := data in
          let opportunities :=
            if bool_decide (status ≠ "all")
            then List.filter (fun opp => bool_decide (status_of opp = Some status))
                   opportunities
            else opportunities in
          default [] (sort_newest_first opportunities)
    | None => []
    end
  else [].

(** [update_opportunity_status]: the first record, in key order, whose
    [id] is [opportunity_id] gets the new status.  The nodes below have no
    [id]. *)
Definition update_opportunity_status (σ : Firebase)
    (community opportunity_id status : string) : bool * Firebase :=
  if reachable σ then
    match segments community with
    | Some path =>
        let data := children (node_at path (opportunities σ)) in
        if negb (Py.truthy data) then (false, σ)
        else
          match list_find (fun opp => opp_id opp = opportunity_id) (records data) with
          | Some (key, opp) =>
              (true,
               with_collection σ path
                 (<[key := set_status status opp]> (records data)))
          | None => (false, σ)
          end
    | None => (false, σ)
    end
  else (false, σ).

(** *** User profile and interest tracking *)

Definition update_user_profile (σ : Firebase) (now : string) (username : string)
    (skills interests : option (list string)) (bio : option string)
    (tags : option (list string)) (metadata : option (gmap string string))
    : bool * Firebase :=
  let skills := default [] skills in
  let interests := default [] interests in
  let tags := default [] tags in
  let metadata := default ∅ metadata in
  let profile :=
    {| username := username;
       skills := skills;
       interests := interests;
       tags := tags;
       bio := default "" bio;
       metadata := metadata;
       updated_at := now |} in
  if reachable σ then
    (true,
     {| reachable := reachable σ;
        opportunities := opportunities σ;
        user_profiles := <[username := profile]> (user_profiles σ);
        user_activity := user_activity σ |})
  else (false, σ).

Definition get_user_profile (σ : Firebase) (username : string) : option UserProfile :=
  if reachable σ then user_profiles σ !! username else None.

Definition track_user_activity (σ : Firebase) (now : string)
    (username community activity_type content : string) : Firebase :=
  let activity :=
    {| act_username := username;
       act_community := community;
       act_type := activity_type;
       act_content := content;
       act_timestamp := now |} in
  if reachable σ then
    {| reachable := reachable σ;
       opportunities := opportunities σ;
       user_profiles := user_profiles σ;
       user_activity := <[username := activity_log σ username ++ [activity]]> (user_activity σ) |}
  else σ.

(** *** Matching algorithm *)

(** A ranked opportunity: [{"opportunity": opp, "match_score": ...}]. *)
Record Match := { opportunity : Opportunity; match_score : Q }.

Section Matching.

(** [SequenceMatcher(None, a, b).ratio()] of [difflib]. *)
Variable ratio : string → string → Q.

Definition lowered (l : list string) : gset string :=
  list_to_set (map Py.lower l).

(** [# 1. Skills match]: [skills_score], the share of the requirements
    found among the skills (the code computes it when there is a
    requirement), and the amount added to [score]. *)
Definition skills_score (opportunity : Opportunity) (user_profile : UserProfile) : Q :=
  let opp_requirements := lowered (opp_requirements opportunity) in
  let user_skills := lowered (skills user_profile) in
  let skills_overlap := size (user_skills ∩ opp_requirements) in
  (Py.Q_of_nat skills_overlap / Py.Q_of_nat (size opp_requirements))%Q.

Definition skills_match (opportunity : Opportunity) (user_profile : UserProfile) : Q :=
  let opp_requirements := lowered (opp_requirements opportunity) in
  if bool_decide (opp_requirements ≠ ∅) then
    (skills_score opportunity user_profile * (4 # 10))%Q
  else 0%Q.

(** [# 2. Interest match] *)
Definition interest_match (opportunity : Opportunity) (user_profile : UserProfile) : Q :=
  let opp_tags := lowered (opp_tags opportunity) in
  let user_interests := lowered (interests user_profile) in
  if bool_decide (opp_tags ≠ ∅) then
    let interest_overlap := size (user_interests ∩ opp_tags) in
    let interest_score :=
      if bool_decide (opp_tags ≠ ∅)
      then (Py.Q_of_nat interest_overlap / Py.Q_of_nat (size opp_tags))%Q
      else 0%Q in
    (interest_score * (3 # 10))%Q
  else 0%Q.

(** [# 3. Activity relevance] *)
Definition activity_match (opportunity : Opportunity) (user_activity : list Activity) : Q :=
  let opp_description := Py.lower (opp_description opportunity) in
  if Py.truthy user_activity then
    let activity_texts :=
      Py.lower (Py.join " " (map act_content (Py.last_n 20 user_activity))) in
    let activity_score := ratio activity_texts opp_description in
    (activity_score * (2 # 10))%Q
  else 0%Q.

(** [# 4. Bio relevance] *)
Definition bio_match (opportunity : Opportunity) (user_profile : UserProfile) : Q :=
  let opp_description := Py.lower (opp_description opportunity) in
  let user_bio := Py.lower (bio user_profile) in
  if Py.str_truthy user_bio then
    let bio_score := ratio user_bio opp_description in
    (bio_score * (1 # 10))%Q
  else 0%Q.

Definition calculate_match_score (opportunity : Opportunity)
    (user_profile : UserProfile) (user_activity : list Activity) : Q :=
  let score := 0%Q in
  let score := (score + skills_match opportunity user_profile)%Q in
  let score := (score + interest_match opportunity user_profile)%Q in
  let score := (score + activity_match opportunity user_activity)%Q in
  let score := (score + bio_match opportunity user_profile)%Q in
  if Qle_bool score 1 then score else 1%Q.

(** The profile used when none is stored:
    [{"skills": [], "interests": [], "bio": ""}]. *)
Definition empty_profile : UserProfile :=
  {| username := ""; skills := []; interests := []; tags := [];
     bio := ""; metadata := ∅; updated_at := "" |}.

(** The order of [sort(key=match_score, reverse=True)]. *)
Definition better (x y : Match) : bool :=
  negb (Qle_bool (match_score x) (match_score y)).

(** [match_opportunities(username, community, top_k=5)].  The values of a
    listing filtered by a status are records. *)
Definition match_opportunities (σ : Firebase) (username community : string)
    (top_k : Z) : list Match :=
  let user_profile := default empty_profile (get_user_profile σ username) in
  let user_activity :=
    if reachable σ then Py.last_n 50 (activity_log σ username) else [] in
  let opportunities := records (get_opportunities σ community "active" 50) in
  if negb (Py.truthy opportunities) then []
  else
    let scored_opportunities :=
      map (fun opp =>
             {| opportunity := opp;
                match_score :=
                  Py.round3 (calculate_match_score opp user_profile user_activity) |})
          opportunities in
    let scored_opportunities := Py.stable_sort better scored_opportunities in
    Py.slice_to top_k scored_opportunities.

(** [get_opportunity_recommendations(username, community, min_score=0.3)] *)
Definition get_opportunity_recommendations (σ : Firebase)
    (username community : string) (min_score : Q) : list Match :=
  let matches := match_opportunities σ username community 10 in
  List.filter (fun m => Qle_bool min_score (match_score m)) matches.

End Matching.

(** *** The specification's wording of the skills component *)

(** The requirements are a set of strings compared without regard to
    case; the component is the share of them found among the user's
    skills, times 0.4, and 0 when there is no requirement. *)
Definition skills_coverage (requirements user_skills : list string) : Q :=
  let required := remove_dups (map Py.lower requirements) in
  let found :=
    Py.count_if (fun r => Py.list_contains r (map Py.lower user_skills)) required in
  match required with
  | [] => 0%Q
  | _ => (Py.Q_of_nat found / Py.Q_of_nat (length required) * (4 # 10))%Q
  end.

(** A name that is one path segment: as a user name, the key of a child
    of [user_profiles] and of [user_activity]. *)
Definition one_segment (name : string) : Prop := segments name = Some [name].

(** *** Inputs of the scenarios *)

(** The profile [user_profile] with its skills replaced. *)
Definition with_skills (user_profile : UserProfile) (new_skills : list string)
    : UserProfile :=
  {| username := username user_profile;
     skills := new_skills;
     interests := interests user_profile;
     tags := tags user_profile;
     bio := bio user_profile;
     metadata := metadata user_profile;
     updated_at := updated_at user_profile |}.

(** Scenario 1 of the specification. *)
Definition scenario1_profile : UserProfile :=
  {| username := ""; skills := ["python"]; interests := []; tags := [];
     bio := ""; metadata := ∅; updated_at := "" |}.

Definition scenario1_opportunity : Opportunity :=
  {| opp_id := ""; opp_title := ""; opp_description := ""; opp_category := "";
     opp_tags := []; opp_requirements := ["python"; "sql"];
     opp_deadline := None; opp_posted_by := None; opp_metadata := ∅;
     opp_created_at := ""; opp_status := "active" |}.

(** An opportunity that asks for nothing. *)
Definition open_call : Opportunity :=
  {| opp_id := ""; opp_title := ""; opp_description := ""; opp_category := "";
     opp_tags := []; opp_requirements := [];
     opp_deadline := None; opp_posted_by := None; opp_metadata := ∅;
     opp_created_at := ""; opp_status := "active" |}.

(** The arguments of one call of [add_opportunity], with the values that
    [uuid4] and [now] take during the call. *)
Record Submission := {
  sub_uuid4 : string;
  sub_now : string;
  sub_title : string;
  sub_description : string;
  sub_category : string;
  sub_tags : option (list string);
  sub_requirements : option (list string);
  sub_deadline : option string;
  sub_posted_by : option string;
  sub_metadata : option (gmap string string)
}.

Definition submit (σ : Firebase) (community : string) (s : Submission)
    : option string * Firebase :=
  add_opportunity σ (sub_uuid4 s) (sub_now s) community
    (sub_title s) (sub_description s) (sub_category s)
    (sub_tags s) (sub_requirements s) (sub_deadline s) (sub_posted_by s)
    (sub_metadata s).

(** The record a successful call stores. *)
Definition submitted (s : Submission) : Opportunity :=
  {| opp_id := sub_uuid4 s;
     opp_title := sub_title s;
     opp_description := sub_description s;
     opp_category := sub_category s;
     opp_tags := default [] (sub_tags s);
     opp_requirements := default [] (sub_requirements s);
     opp_deadline := sub_deadline s;
     opp_posted_by := sub_posted_by s;
     opp_metadata := default ∅ (sub_metadata s);
     opp_created_at := sub_now s;
     opp_status := "active" |}.

(** A reachable database with nothing in it. *)
Definition empty_store : Firebase :=
  {| reachable := true; opportunities := empty_node; user_profiles := ∅;
     user_activity := ∅ |}.

(** A submission with a title, an id and a time stamp. *)
Definition plain_submission (title uuid4 now : string) : Submission :=
  {| sub_uuid4 := uuid4; sub_now := now; sub_title := title;
     sub_description := ""; sub_category := "event";
     sub_tags := None; sub_requirements := None;
     sub_deadline := None; sub_posted_by := None; sub_metadata := None |}.

(** [a] was not created before [b]: the order of a list sorted by
    [created_at], most recent first. *)
Definition not_older (a b : Value) : Prop :=
  String.le (default "" (created_at_of b)) (default "" (created_at_of a)).

(** Nothing is stored for the community: its name is a path, and there is
    no record and no node at the end of it. *)
Definition vacant (σ : Firebase) (community : string) : Prop :=
  ∃ path, segments community = Some path
    ∧ node_at path (opportunities σ) = empty_node.

(** The community [a] lies at or under the community [b]: the path of [b]
    leads to the node of [a] or to a node above it. *)
Definition lies_under (a b : string) : Prop :=
  ∃ path_a path_b,
    segments a = Some path_a ∧ segments b = Some path_b
    ∧ path_b `prefix_of` path_a.

(** A tag lower-cased and trimmed. *)
Definition lower_and_trim (t : string) : string := Py.lower (Py.strip t).

(** *** Notions used to state what the store functions do *)

(** The database [σ] with the activity log of [username] replaced. *)
Definition with_activity (σ : Firebase) (username : string)
    (log : list Activity) : Firebase :=
  {| reachable := reachable σ;
     opportunities := opportunities σ;
     user_profiles := user_profiles σ;
     user_activity := <[username := log]> (user_activity σ) |}.

(** [a] has a score at least as high as [b]: the order of a ranking. *)
Definition scores_before (a b : Match) : Prop :=
  (match_score b <= match_score a)%Q.

End Matcher.

(** ** analytics.py: engagement tracking *)

Module Analytics.

(** A record of [analytics/engagement/{community}]. *)
Record Engagement := {
  eng_username : string;
  eng_community : string;
  eng_type : string;
  eng_metadata : gmap string string;
  eng_timestamp : string
}.

(** The database of [Matcher] together with the subtree
    [analytics/engagement]: the records pushed to each of its nodes, by the
    path of the node. *)
Record World := {
  firebase : Matcher.Firebase;
  engagement : gmap (list string) (list Engagement)
}.

Definition engagement_log (w : World) (path : list string) : list Engagement :=
  default [] (engagement w !! path).

(** [track_engagement(community, username, activity_type, metadata=None)];
    the community is used as a path, as in [Matcher]. *)
Definition track_engagement (w : World) (now : string)
    (community username activity_type : string)
    (metadata : option (gmap string string)) : World :=
  let metadata := default ∅ metadata in
  let engagement_record :=
    {| eng_username := username;
       eng_community := community;
       eng_type := activity_type;
       eng_metadata := metadata;
       eng_timestamp := now |} in
  if Matcher.reachable (firebase w) then
    match Matcher.segments community with
    | Some path =>
        {| firebase := firebase w;
           engagement :=
             <[path := engagement_log w path ++ [engagement_record]]> (engagement w) |}
    | None => w
    end
  else w.

End Analytics.

(** ** fastapi_server.py: the opportunity and profile endpoints *)

Module Api.

(** [class OpportunityIn(BaseModel)] *)
Record OpportunityIn := {
  in_community : string;
  in_title : string;
  in_description : string;
  in_category : string;
  in_tags : list string;
  in_requirements : list string;
  in_deadline : option string;
  in_posted_by : option string
}.

(** [class UserProfileIn(BaseModel)] *)
Record UserProfileIn := {
  in_username : string;
  in_skills : list string;
  in_interests : list string;
  in_bio : string
}.

(** The two answers of [api_create_opportunity]:
    [{"ok": True, "opportunity_id": ...}] and [{"ok": False, "error": ...}]. *)
Inductive CreateAnswer :=
  | created (opportunity_id : string)
  | not_created (error : string).

(** Truth value of an optional string: neither [None] nor empty. *)
Definition given (s : option string) : bool :=
  match s with Some s => Py.str_truthy s | None => false end.

(** [api_create_opportunity(opp)]; [now] is the time of the write of the
    opportunity and [later] the time of the write of the engagement. *)
Definition api_create_opportunity (w : Analytics.World) (uuid4 now later : string)
    (opp : OpportunityIn) : CreateAnswer * Analytics.World :=
  let '(opp_id, σ) :=
    Matcher.add_opportunity (Analytics.firebase w) uuid4 now
      (in_community opp) (in_title opp) (in_description opp) (in_category opp)
      (Some (in_tags opp)) (Some (in_requirements opp))
      (in_deadline opp) (in_posted_by opp) None in
  let w := {| Analytics.firebase := σ; Analytics.engagement := Analytics.engagement w |} in
  if given opp_id then
    let w :=
      if given (in_posted_by opp)
      then Analytics.track_engagement w later (in_community opp)
             (default "" (in_posted_by opp)) "opportunity_posted" None
      else w in
    (created (default "" opp_id), w)
  else (not_created "Failed to create opportunity", w).

(** [api_match_opportunities(community, username, min_score=0.3)] *)
Definition api_match_opportunities (ratio : string → string → Q)
    (σ : Matcher.Firebase) (community username : string) (min_score : Q)
    : list Matcher.Match :=
  let matches := Matcher.match_opportunities ratio σ username community 10 in
  List.filter (fun m => Qle_bool min_score (Matcher.match_score m)) matches.

(** [api_update_profile(profile)]: the value of ["ok"] and the database. *)
Definition api_update_profile (σ : Matcher.Firebase) (now : string)
    (profile : UserProfileIn) : bool * Matcher.Firebase :=
  Matcher.update_user_profile σ now (in_username profile)
    (Some (in_skills profile)) (Some (in_interests profile))
    (Some (in_bio profile)) None None.

(** [api_get_profile(username)]: the value of ["profile"]. *)
Definition api_get_profile (σ : Matcher.Firebase) (username : string)
    : option UserProfile :=
  Matcher.get_user_profile σ username.

End Api.

(** ** streamlit_app.py: the two forms that write profiles and opportunities *)

Module Forms.

(** [[s.strip() for s in text.split(",")] if text else []] *)
Definition comma_list (text : string) : list string :=
  if Py.str_truthy text then map Py.strip (Py.split "," text) else [].

(** [[t.strip().lower() for t in text.split(",")] if text else []] *)
Definition comma_tags (text : string) : list string :=
  if Py.str_truthy text
  then map (fun t => Py.lower (Py.strip t)) (Py.split "," text)
  else [].

(** The profile form, once submitted. *)
Definition save_profile (σ : Matcher.Firebase) (now user_name : string)
    (bio skills_input interests_input tags_input : string)
    : bool * Matcher.Firebase :=
  let skills := comma_list skills_input in
  let interests := comma_list interests_input in
  let tags := comma_tags tags_input in
  Matcher.update_user_profile σ now user_name
    (Some skills) (Some interests) (Some bio) (Some tags) None.

(** The form [post_opportunity]; [deadline] is [str(deadline)].  The result
    is [None] when the form does nothing. *)
Definition post_opportunity (σ : Matcher.Firebase) (uuid4 now : string)
    (community user_name : string) (submitted : bool)
    (title description category tags_input requirements_input deadline : string)
    : option (option string) * Matcher.Firebase :=
  if submitted && Py.str_truthy title && Py.str_truthy description then
    let tags := comma_list tags_input in
    let requirements := comma_list requirements_input in
    let '(opp_id, σ) :=
      Matcher.add_opportunity σ uuid4 now community title description category
        (Some tags) (Some requirements) (Some deadline) (Some user_name) None in
    (Some opp_id, σ)
  else (None, σ).

End Forms.

(** * Properties *)

(** ** Counting and filtering *)

Lemma filter_bool_decide {A} (P : A → Prop) `{!∀ x, Decision (P x)} (l : list A) :
  List.filter (λ x, bool_decide (P x)) l = filter P l.
Proof.
  induction l as [|x l IH]; [done|]. cbn [List.filter].
  rewrite filter_cons, IH. by case_bool_decide; case_decide.
Qed.

(** Distinct elements of [u] found in [o] are no more than [o] holds. *)
Lemma count_members_le (u o : list string) :
  NoDup u → Py.count_if (λ t, Py.list_contains t o) u ≤ length o.
Proof.
  intros Hu. unfold Py.count_if, Py.list_contains. rewrite filter_bool_decide.
  apply submseteq_length, NoDup_submseteq.
  - by apply NoDup_filter.
  - intros x. rewrite list_elem_of_filter. tauto.
Qed.

(** ** The stable sort *)

Section SortFacts.
Context {A : Type} (lt : A → A → bool).

Local Abbreviation in_order := (Py.in_order lt).

Lemma insert_sorted_perm x l : Py.insert_sorted lt x l ≡ₚ x :: l.
Proof.
  induction l as [|y l IH]; simpl; [done|].
  destruct (lt y x); [|done].
  rewrite IH. apply Permutation_swap.
Qed.

Lemma stable_sort_perm l : Py.stable_sort lt l ≡ₚ l.
Proof.
  induction l as [|x l IH]; simpl; [done|].
  rewrite insert_sorted_perm. by f_equiv.
Qed.

Lemma stable_sort_elem x l : x ∈ Py.stable_sort lt l ↔ x ∈ l.
Proof. by rewrite stable_sort_perm. Qed.

Lemma stable_sort_length l : length (Py.stable_sort lt l) = length l.
Proof. by rewrite stable_sort_perm. Qed.

Lemma filter_all_false (p : A → bool) l :
  Forall (λ z, p z = false) l → List.filter p l = [].
Proof.
  induction 1 as [|z l Hz _ IH]; simpl; [done|]. by rewrite Hz.
Qed.

Hypothesis lt_asym : ∀ x y, lt x y = true → lt y x = false.
Hypothesis in_order_trans : ∀ x y z, in_order x y → in_order y z → in_order x z.

Lemma insert_sorted_head x l :
  Forall (in_order x) l → Py.insert_sorted lt x l = x :: l.
Proof.
  destruct l as [|y l]; simpl; [done|].
  intros H. apply Forall_cons_1 in H as [Hy _].
  unfold Py.in_order in Hy. by rewrite Hy.
Qed.

Lemma insert_sorted_sorted x l :
  StronglySorted in_order l → StronglySorted in_order (Py.insert_sorted lt x l).
Proof.
  induction 1 as [|y l Hl IH Hy]; simpl.
  - repeat constructor.
  - destruct (lt y x) eqn:Hyx.
    + constructor; [done|].
      eapply Permutation_Forall; [symmetry; apply insert_sorted_perm|].
      constructor; [|done]. by apply lt_asym.
    + constructor; [by constructor|].
      constructor; [done|].
      eapply Forall_impl; [exact Hy|]. intros z Hz.
      by apply (in_order_trans x y z).
Qed.

Lemma stable_sort_sorted l : StronglySorted in_order (Py.stable_sort lt l).
Proof.
  induction l as [|x l IH]; simpl; [constructor|].
  by apply insert_sorted_sorted.
Qed.

(** Filtering commutes with inserting into a sorted list, and so with
    sorting: the sort is stable. *)
Lemma filter_insert_sorted (p : A → bool) x l :
  StronglySorted in_order l →
  List.filter p (Py.insert_sorted lt x l) =
  if p x then Py.insert_sorted lt x (List.filter p l) else List.filter p l.
Proof.
  induction 1 as [|y l Hl IH Hy].
  - simpl. by destruct (p x).
  - cbn [Py.insert_sorted]. destruct (lt y x) eqn:Hyx.
    + cbn [List.filter]. rewrite IH.
      destruct (p y), (p x); simpl; by rewrite ?Hyx.
    + change (List.filter p (x :: y :: l))
        with (if p x then x :: List.filter p (y :: l) else List.filter p (y :: l)).
      destruct (p x) eqn:Hpx; [|done].
      symmetry. apply insert_sorted_head.
      assert (Forall (in_order x) (y :: l)) as Hall.
      { constructor; [done|].
        eapply Forall_impl; [exact Hy|]. intros z Hz.
        by apply (in_order_trans x y z). }
      apply Forall_forall. intros z Hz.
      apply list_elem_of_In, filter_In in Hz as [Hz _].
      rewrite Forall_forall in Hall. by apply Hall, list_elem_of_In.
Qed.

Lemma filter_stable_sort (p : A → bool) l :
  List.filter p (Py.stable_sort lt l) = Py.stable_sort lt (List.filter p l).
Proof.
  induction l as [|x l IH]; simpl; [done|].
  rewrite filter_insert_sorted by apply stable_sort_sorted.
  rewrite IH. by destruct (p x).
Qed.

(** On a sorted list, a test that every element in front of a passing
    element passes too keeps a prefix, so it commutes with [take]. *)
Lemma filter_take_sorted (p : A → bool) n l :
  (∀ x y, in_order x y → p y = true → p x = true) →
  StronglySorted in_order l →
  List.filter p (take n l) = take n (List.filter p l).
Proof.
  intros Hp Hl. revert n.
  induction Hl as [|x l Hl IH Hx]; intros [|n]; simpl; try done.
  destruct (p x) eqn:Hpx; simpl; [by rewrite IH|].
  assert (Forall (λ z, p z = false) l) as Hnone.
  { eapply Forall_impl; [exact Hx|]. intros z Hz.
    destruct (p z) eqn:Hpz; [|done].
    by rewrite (Hp x z Hz Hpz) in Hpx. }
  rewrite (filter_all_false p l Hnone), take_nil.
  apply filter_all_false. by apply Forall_take.
Qed.

End SortFacts.

(** ** Rounding *)

Module Binary64Facts.
Import Binary64.
Local Open Scope Q_scope.

Lemma round_half_even_lower (a : Z) (x : Q) :
  (inject_Z a <= x)%Q -> (a <= Py.round_half_even x)%Z.
Proof.
  intros Ha.
  assert (a <= Qfloor x)%Z as Hlow
    by (rewrite <- (Qfloor_Z a); now apply Qfloor_resp_le).
  unfold Py.round_half_even.
  destruct (x - inject_Z (Qfloor x) ?= 1 # 2)%Q; [|lia..].
  destruct (Z.even (Qfloor x)); lia.
Qed.

Lemma round_half_even_upper (b : Z) (x : Q) :
  (x <= inject_Z b)%Q -> (Py.round_half_even x <= b)%Z.
Proof.
  intros Hb.
  assert (Qfloor x <= b)%Z as Hhigh
    by (rewrite <- (Qfloor_Z b); now apply Qfloor_resp_le).
  assert ((inject_Z (Qfloor x) < x)%Q -> (Qfloor x + 1 <= b)%Z) as Hnext.
  { intros Hlt. assert (inject_Z (Qfloor x) < inject_Z b)%Q as H
      by (now apply Qlt_le_trans with x). rewrite <- Zlt_Qlt in H. lia. }
  unfold Py.round_half_even.
  destruct (Qcompare_spec (x - inject_Z (Qfloor x)) (1 # 2)) as [Heq|Hlt|Hgt].
  - destruct (Z.even (Qfloor x)); [lia|]. apply Hnext. lra.
  - lia.
  - apply Hnext. lra.
Qed.

Lemma pow2_pos e : 0 < 2 ^ e.
Proof. now apply Qpower_0_lt. Qed.

Lemma pow2_nat (k : Z) : (0 <= k)%Z -> 2 ^ k == inject_Z (2 ^ k).
Proof. intros H. now rewrite Zpower_Qpower. Qed.

Lemma ilog2_le (x : Q) : 0 < x -> 2 ^ ilog2 x <= x.
Proof.
  intros Hx. unfold ilog2.
  destruct (Qle_bool (2 ^ (Z.log2 (Qnum x) - Z.log2 (Z.pos (Qden x)))) x) eqn:Hb;
    [now apply Qle_bool_iff|].
  clear Hb. destruct x as [n d]. cbn [Qnum Qden].
  assert (0 < n)%Z as Hn by (unfold Qlt in Hx; simpl in Hx; lia).
  replace (Z.log2 n - Z.log2 (Z.pos d) - 1)%Z
    with (Z.log2 n - (Z.log2 (Z.pos d) + 1))%Z by lia.
  rewrite Qpower_minus by discriminate.
  pose proof (Z.log2_nonneg n). pose proof (Z.log2_nonneg (Z.pos d)).
  rewrite !pow2_nat by lia.
  destruct (Z.log2_spec n Hn) as [Hlow _].
  destruct (Z.log2_spec (Z.pos d) eq_refl) as [_ Hhigh].
  replace (Z.succ (Z.log2 (Z.pos d))) with (Z.log2 (Z.pos d) + 1)%Z in Hhigh by lia.
  assert (0 < 2 ^ (Z.log2 (Z.pos d) + 1))%Z as Hpos by lia.
  rewrite (Qmake_Qdiv n d).
  apply Qle_shift_div_l; [now rewrite <- (Zlt_Qlt 0)|].
  set (A := inject_Z (2 ^ Z.log2 n)). set (B := inject_Z (2 ^ (Z.log2 (Z.pos d) + 1))).
  assert (0 < A) as HA by (unfold A; rewrite <- (Zlt_Qlt 0); lia).
  assert (0 < B) as HB by (unfold B; now rewrite <- (Zlt_Qlt 0)).
  apply Qle_trans with (A / B * B).
  - apply Qmult_le_l.
    + apply Qlt_shift_div_l; [assumption|]. now rewrite Qmult_0_l.
    + unfold B. rewrite <- Zle_Qle. lia.
  - assert (A / B * B == A) as -> by (field; lra).
    unfold A. now rewrite <- Zle_Qle.
Qed.

Lemma ilog2_lt (x : Q) : 0 < x → x < 2 ^ (ilog2 x + 1).
Proof.
  intros Hx. unfold ilog2.
  destruct (Qle_bool (2 ^ (Z.log2 (Qnum x) - Z.log2 (Z.pos (Qden x)))) x) eqn:Hb.
  2:{ replace (Z.log2 (Qnum x) - Z.log2 (Z.pos (Qden x)) - 1 + 1)%Z
        with (Z.log2 (Qnum x) - Z.log2 (Z.pos (Qden x)))%Z by lia.
      apply Qnot_le_lt. intros Hle. apply Qle_bool_iff in Hle. congruence. }
  clear Hb. destruct x as [n d]. cbn [Qnum Qden].
  assert (0 < n)%Z as Hn by (unfold Qlt in Hx; simpl in Hx; lia).
  replace (Z.log2 n - Z.log2 (Z.pos d) + 1)%Z
    with (Z.log2 n + 1 - Z.log2 (Z.pos d))%Z by lia.
  rewrite Qpower_minus by discriminate.
  pose proof (Z.log2_nonneg n). pose proof (Z.log2_nonneg (Z.pos d)).
  rewrite !pow2_nat by lia.
  destruct (Z.log2_spec n Hn) as [_ Hhigh].
  destruct (Z.log2_spec (Z.pos d) eq_refl) as [Hlow _].
  replace (Z.succ (Z.log2 n)) with (Z.log2 n + 1)%Z in Hhigh by lia.
  rewrite (Qmake_Qdiv n d).
  set (A := inject_Z (2 ^ (Z.log2 n + 1))). set (B := inject_Z (2 ^ Z.log2 (Z.pos d))).
  assert (0 < B) as HB by (unfold B; rewrite <- (Zlt_Qlt 0); lia).
  assert (0 < inject_Z (Z.pos d)) as HD by reflexivity.
  assert (inject_Z n < A) as HnA by (unfold A; by rewrite <- Zlt_Qlt).
  assert (0 < inject_Z n) as Hn' by (rewrite <- (Zlt_Qlt 0); lia).
  assert (B <= inject_Z (Z.pos d)) as HBd by (unfold B; by rewrite <- Zle_Qle).
  apply Qlt_shift_div_r; [assumption|].
  apply Qlt_le_trans with (A / B * B).
  - assert (A / B * B == A) as -> by (field; lra). assumption.
  - apply Qmult_le_l; [|assumption].
    apply Qlt_shift_div_l; [assumption|]. rewrite Qmult_0_l. lra.
Qed.

(** Rounding to an integer moves a number by one half at most. *)
Lemma round_half_even_near (y : Q) :
  - (1 # 2) <= inject_Z (Py.round_half_even y) - y <= 1 # 2.
Proof.
  unfold Py.round_half_even.
  pose proof (Qfloor_le y) as Hlow. pose proof (Qlt_floor y) as Hhigh.
  rewrite inject_Z_plus in Hhigh. change (inject_Z 1) with 1 in Hhigh.
  destruct (Qcompare_spec (y - inject_Z (Qfloor y)) (1 # 2)) as [Heq|Hlt|Hgt].
  - destruct (Z.even (Qfloor y)).
    + lra.
    + rewrite inject_Z_plus. change (inject_Z 1) with 1. lra.
  - lra.
  - rewrite inject_Z_plus. change (inject_Z 1) with 1. lra.
Qed.

(** [round x] is a multiple of the unit in the last place of [x] that lies
    within half a unit of [x]. *)
Lemma round_near (x : Q) :
  ∃ m : Z, round x == inject_Z m * 2 ^ ulp_exponent x
    ∧ - ((1 # 2) * 2 ^ ulp_exponent x) <= round x - x
      <= (1 # 2) * 2 ^ ulp_exponent x.
Proof.
  unfold round. pose proof (pow2_pos (ulp_exponent x)) as Hp.
  destruct (Qeq_bool x 0) eqn:H0.
  - apply Qeq_bool_iff in H0. exists 0%Z. split; [ring|].
    set (u := 2 ^ ulp_exponent x) in *. lra.
  - cbv zeta. exists (Py.round_half_even (x / 2 ^ ulp_exponent x)).
    rewrite Qred_correct. split; [reflexivity|].
    pose proof (round_half_even_near (x / 2 ^ ulp_exponent x)) as [H1 H2].
    set (r := inject_Z (Py.round_half_even (x / 2 ^ ulp_exponent x))) in *.
    set (u := 2 ^ ulp_exponent x) in *.
    assert (r * u - x == (r - x / u) * u) as -> by (field; lra).
    split.
    + apply Qle_trans with (- (1 # 2) * u); [lra|].
      by apply Qmult_le_compat_r; [|lra].
    + apply Qle_trans with ((1 # 2) * u); [|lra].
      by apply Qmult_le_compat_r; [|lra].
Qed.

Lemma round_sign (x : Q) : (0 <= x -> 0 <= round x) /\ (x <= 0 -> round x <= 0).
Proof.
  unfold round. destruct (Qeq_bool x 0) eqn:H0; [split; intros; apply Qle_refl|].
  cbv zeta. set (e := ulp_exponent x). pose proof (pow2_pos e) as Hp.
  rewrite Qred_correct. split; intros Hx.
  - apply Qmult_le_0_compat; [|lra]. rewrite <- (Zle_Qle 0).
    apply round_half_even_lower. change (inject_Z 0) with 0.
    apply Qle_shift_div_l; [assumption|lra].
  - assert (Py.round_half_even (x / 2 ^ e) <= 0)%Z as Hr.
    { apply round_half_even_upper. change (inject_Z 0) with 0.
      apply Qle_shift_div_r; [assumption|lra]. }
    rewrite Zle_Qle in Hr. change (inject_Z 0) with 0 in Hr.
    apply Qle_trans with (0 * 2 ^ e); [|lra].
    apply Qmult_le_compat_r; lra.
Qed.

Lemma Qabs_nonneg_eq (x : Q) : 0 <= x -> Qabs x = x.
Proof.
  destruct x as [n d]. unfold Qle, Qabs. simpl. intros H.
  f_equal. apply Z.abs_eq. lia.
Qed.

Lemma round_le_int (x : Q) (N : Z) :
  (0 <= N < 2 ^ 53)%Z -> x <= inject_Z N -> round x <= inject_Z N.
Proof.
  intros HN Hx.
  destruct (Qlt_le_dec 0 x) as [Hpos|Hneg].
  2:{ pose proof (proj2 (round_sign x) Hneg).
      assert (0 <= inject_Z N) by (rewrite <- (Zle_Qle 0); lia). lra. }
  unfold round. destruct (Qeq_bool x 0) eqn:H0;
    [rewrite <- (Zle_Qle 0); lia|].
  cbv zeta. rewrite Qred_correct.
  assert (ulp_exponent x <= 0)%Z as He.
  { unfold ulp_exponent. rewrite Qabs_nonneg_eq by lra.
    assert (ilog2 x < 53)%Z; [|lia].
    apply (Qpower_lt_compat_l_inv 2); [|reflexivity].
    apply Qle_lt_trans with x; [now apply ilog2_le|].
    apply Qle_lt_trans with (inject_Z N); [assumption|].
    rewrite pow2_nat by lia. rewrite <- Zlt_Qlt. lia. }
  set (e := ulp_exponent x) in *. pose proof (pow2_pos e) as Hp.
  assert (inject_Z N == inject_Z (N * 2 ^ (- e)) * 2 ^ e) as HN'.
  { rewrite inject_Z_mult, <- pow2_nat by lia.
    rewrite Qpower_opp. field. lra. }
  rewrite HN'. apply Qmult_le_compat_r; [|lra].
  rewrite <- Zle_Qle. apply round_half_even_upper.
  apply Qle_shift_div_r; [assumption|]. now rewrite <- HN'.
Qed.

(** A sum, a product or a quotient that does not exceed a small integer is
    rounded to a number that does not exceed it: the integer is itself a
    binary64 number. *)
Lemma div_range (k n : nat) :
  k ≤ n → 0 <= div (Py.Q_of_nat k) (Py.Q_of_nat n) <= 1.
Proof.
  intros Hkn. unfold div.
  assert (0 <= Py.Q_of_nat k / Py.Q_of_nat n <= 1) as [H0 H1].
  { destruct n as [|n].
    - assert (k = 0%nat) as -> by lia. split; discriminate.
    - assert (0 < Py.Q_of_nat (S n))
        by (unfold Py.Q_of_nat; rewrite <- (Zlt_Qlt 0); lia).
      assert (0 <= Py.Q_of_nat k)
        by (unfold Py.Q_of_nat; rewrite <- (Zle_Qle 0); lia).
      assert (Py.Q_of_nat k <= Py.Q_of_nat (S n))
        by (unfold Py.Q_of_nat; rewrite <- Zle_Qle; lia).
      split; [apply Qle_shift_div_l|apply Qle_shift_div_r]; try assumption; lra. }
  split; [by apply round_sign|].
  by apply (round_le_int _ 1).
Qed.

Lemma div_nonneg (x y : Q) : 0 <= x → 0 <= y → 0 <= div x y.
Proof.
  intros Hx Hy. apply round_sign.
  destruct (Qlt_le_dec 0 y) as [Hpos|Hzero].
  - apply Qle_shift_div_l; [done|lra].
  - assert (y == 0) as -> by lra. unfold Qdiv.
    assert (/ 0 == 0) as -> by reflexivity. lra.
Qed.

Lemma mul_range (x : Q) (w : Z) :
  (0 ≤ w < 2 ^ 53)%Z → 0 <= x <= 1 → 0 <= mul x (inject_Z w) <= inject_Z w.
Proof.
  intros Hw [H0 H1]. unfold mul.
  assert (0 <= inject_Z w) as Hw' by (rewrite <- (Zle_Qle 0); lia).
  split.
  - apply round_sign. by apply Qmult_le_0_compat.
  - apply round_le_int; [done|].
    apply Qle_trans with (1 * inject_Z w); [|lra].
    by apply Qmult_le_compat_r.
Qed.

Lemma mul_nonneg (x y : Q) : 0 <= x → 0 <= y → 0 <= mul x y.
Proof. intros Hx Hy. apply round_sign. by apply Qmult_le_0_compat. Qed.

Lemma add_nonneg (x y : Q) : 0 <= x → 0 <= y → 0 <= add x y.
Proof. intros Hx Hy. apply round_sign. lra. Qed.

Lemma add_le (x y : Q) (m w : Z) :
  (0 ≤ m + w < 2 ^ 53)%Z →
  x <= inject_Z m → y <= inject_Z w → add x y <= inject_Z (m + w).
Proof.
  intros Hmw Hx Hy. apply round_le_int; [done|].
  rewrite inject_Z_plus. lra.
Qed.

End Binary64Facts.

(** ** The tag-weighted scorer and its ranking *)

Module TagScorer.
Import Personalized.

(** *** Arithmetic of the components *)

Lemma count_if_le {A} (q : A → bool) (l : list A) : Py.count_if q l ≤ length l.
Proof.
  unfold Py.count_if. induction l as [|x l IH]; simpl; [done|].
  destruct (q x); simpl; lia.
Qed.

Lemma Q_of_nat_nonneg n : (0 <= Py.Q_of_nat n)%Q.
Proof. unfold Py.Q_of_nat. rewrite <- (Zle_Qle 0). lia. Qed.

Lemma Q_of_nat_pos n : (0 < n)%nat → (0 < Py.Q_of_nat n)%Q.
Proof. intros H. unfold Py.Q_of_nat. rewrite <- (Zlt_Qlt 0). lia. Qed.

Lemma Q_of_nat_le m n : (m ≤ n)%nat → (Py.Q_of_nat m <= Py.Q_of_nat n)%Q.
Proof. intros H. unfold Py.Q_of_nat. rewrite <- Zle_Qle. lia. Qed.

(** A quotient of two counts is not negative, also when the divisor is
    zero ([x / 0] is [0] in [Q]; the code never divides by zero). *)
Lemma count_quotient_nonneg m n : (0 <= Py.Q_of_nat m / Py.Q_of_nat n)%Q.
Proof.
  destruct n as [|n].
  - unfold Qdiv. replace (Py.Q_of_nat 0) with 0%Q by reflexivity.
    assert (/ 0 == 0)%Q as -> by reflexivity. lra.
  - apply Qle_shift_div_l; [apply Q_of_nat_pos; lia|].
    pose proof (Q_of_nat_nonneg m). lra.
Qed.

Lemma count_quotient_le_1 m n :
  (m ≤ n)%nat → (Py.Q_of_nat m / Py.Q_of_nat n <= 1)%Q.
Proof.
  intros H. destruct n as [|n].
  - unfold Qdiv. assert (/ Py.Q_of_nat 0 == 0)%Q as -> by reflexivity. lra.
  - apply Qle_shift_div_r; [apply Q_of_nat_pos; lia|].
    pose proof (Q_of_nat_le m (S n) H). lra.
Qed.

(** A component is the rounded quotient of two counts, times its weight,
    rounded: it is not negative, and it stays within its weight when the
    count of matches does not exceed the divisor. *)
Lemma component_nonneg (k n : nat) (w : Q) :
  (0 <= w)%Q →
  (0 <= Binary64.mul (Binary64.div (Py.Q_of_nat k) (Py.Q_of_nat n)) w)%Q.
Proof.
  intros Hw. apply Binary64Facts.mul_nonneg; [|done].
  apply Binary64Facts.div_nonneg; apply Q_of_nat_nonneg.
Qed.

Lemma component_le (k n : nat) (w : Z) :
  k ≤ n → (0 ≤ w < 2 ^ 53)%Z →
  (Binary64.mul (Binary64.div (Py.Q_of_nat k) (Py.Q_of_nat n)) (inject_Z w)
   <= inject_Z w)%Q.
Proof.
  intros Hkn Hw.
  by apply Binary64Facts.mul_range, Binary64Facts.div_range.
Qed.

Lemma tag_contribution_nonneg u o : (0 <= tag_contribution u o)%Q.
Proof. by apply component_nonneg. Qed.

Lemma loose_contribution_nonneg w u o :
  (0 <= w)%Q → (0 <= loose_contribution w u o)%Q.
Proof. apply component_nonneg. Qed.

Lemma bio_contribution_nonneg b o : (0 <= bio_contribution b o)%Q.
Proof. by apply component_nonneg. Qed.

(** Without a repeated user tag the tag component stays within its
    weight. *)
Lemma tag_contribution_le user_tags opp_tags :
  NoDup user_tags → (tag_contribution user_tags opp_tags <= 50)%Q.
Proof.
  intros Hu. unfold tag_contribution. cbv zeta.
  apply (component_le _ _ 50); [|lia].
  apply (count_members_le user_tags (map Py.lower opp_tags) Hu).
Qed.

(** With no more items on the user's side than on the template's, a
    component of loose matches stays within its weight. *)
Lemma loose_contribution_le (w : Z) user_items opp_items :
  length user_items ≤ length opp_items → (0 ≤ w < 2 ^ 53)%Z →
  (loose_contribution (inject_Z w) user_items opp_items <= inject_Z w)%Q.
Proof.
  intros Hlen Hw. unfold loose_contribution. cbv zeta.
  apply component_le; [|done]. rewrite length_map.
  etrans; [apply count_if_le|done].
Qed.

(** The bio component counts tags of the template: it stays within its
    weight. *)
Lemma bio_contribution_le user_bio opp_tags :
  (bio_contribution user_bio opp_tags <= 10)%Q.
Proof.
  unfold bio_contribution. cbv zeta.
  apply (component_le _ _ 10); [apply count_if_le|lia].
Qed.

Lemma widen (s : Q) (m w : Z) :
  (0 ≤ w)%Z → (s <= inject_Z m)%Q → (s <= inject_Z (m + w))%Q.
Proof.
  intros Hw Hs. apply Qle_trans with (inject_Z m); [done|].
  rewrite <- Zle_Qle. lia.
Qed.

Ltac score_nonneg :=
  lazymatch goal with
  | |- (0 <= Binary64.add _ _)%Q =>
      apply Binary64Facts.add_nonneg; [score_nonneg|assumption]
  | |- (0 <= 0)%Q => apply Qle_refl
  end.

Ltac score_le :=
  first
    [ apply Qle_refl
    | apply Binary64Facts.add_le; [lia|score_le|assumption]
    | apply widen; [lia|score_le] ].

(** [score] is never negative and [max_score] is between 0 and 100. *)
Lemma accumulate_nonneg p o :
  (0 <= (accumulate p o).1)%Q ∧ (0 ≤ (accumulate p o).2 ≤ 100)%Z.
Proof.
  unfold accumulate.
  pose proof (tag_contribution_nonneg
    (map (λ t, Py.strip (Py.lower t)) (tags p)) (t_tags o)).
  pose proof (loose_contribution_nonneg 25
    (map (λ s, Py.strip (Py.lower s)) (skills p)) (t_skills o) ltac:(discriminate)).
  pose proof (loose_contribution_nonneg 15
    (map (λ i, Py.strip (Py.lower i)) (interests p)) (t_interests o)
    ltac:(discriminate)).
  pose proof (bio_contribution_nonneg (Py.lower (bio p)) (t_tags o)).
  repeat match goal with
         | |- context [if ?b then _ else _] => destruct b
         end; cbv beta iota zeta; cbn [fst snd]; (split; [score_nonneg|lia]).
Qed.

(** [score] does not exceed [max_score] when no tag of the user occurs
    twice and the user has no more skills and no more interests than the
    template. *)
Lemma accumulate_le p o :
  NoDup (map (λ t, Py.strip (Py.lower t)) (tags p)) →
  length (skills p) ≤ length (t_skills o) →
  length (interests p) ≤ length (t_interests o) →
  ((accumulate p o).1 <= inject_Z (accumulate p o).2)%Q.
Proof.
  intros Htags Hskills Hinterests. unfold accumulate.
  pose proof (tag_contribution_le
    (map (λ t, Py.strip (Py.lower t)) (tags p)) (t_tags o) Htags).
  pose proof (loose_contribution_le 25
    (map (λ s, Py.strip (Py.lower s)) (skills p)) (t_skills o)
    ltac:(by rewrite length_map) ltac:(lia)).
  pose proof (loose_contribution_le 15
    (map (λ i, Py.strip (Py.lower i)) (interests p)) (t_interests o)
    ltac:(by rewrite length_map) ltac:(lia)).
  pose proof (bio_contribution_le (Py.lower (bio p)) (t_tags o)).
  repeat match goal with
         | |- context [if ?b then _ else _] => destruct b
         end; cbv beta iota zeta; cbn [fst snd]; score_le.
Qed.

(** [int(x)] is the floor of a non-negative [x]. *)
Lemma int_of_floor q : (0 <= q)%Q → Py.int_of q = Qfloor q.
Proof.
  destruct q as [n d]. unfold Qle, Py.int_of. simpl. intros H.
  apply Z.quot_div_nonneg; lia.
Qed.

Lemma int_of_spec q :
  (0 <= q)%Q → (inject_Z (Py.int_of q) <= q < inject_Z (Py.int_of q) + 1)%Q.
Proof.
  intros H. rewrite (int_of_floor q H). split; [apply Qfloor_le|].
  pose proof (Qlt_floor q) as Hlt. rewrite inject_Z_plus in Hlt. exact Hlt.
Qed.

(** The binary64 value of [score / max_score * 100]. *)
Lemma normalized_nonneg score max_score :
  (0 <= score)%Q → (0 < max_score)%Z →
  (0 <= percentage (score, max_score))%Q.
Proof.
  intros Hs Hm. apply Binary64Facts.mul_nonneg; [|discriminate].
  apply Binary64Facts.div_nonneg; [done|]. rewrite <- (Zle_Qle 0). lia.
Qed.

Lemma normalized_le_100 score max_score :
  (0 <= score <= inject_Z max_score)%Q → (0 < max_score)%Z →
  (percentage (score, max_score) <= 100)%Q.
Proof.
  intros [H0 H1] Hm.
  assert (0 < inject_Z max_score)%Q as Hm' by by rewrite <- (Zlt_Qlt 0).
  apply (Binary64Facts.mul_range _ 100); [lia|]. split.
  - apply Binary64Facts.div_nonneg; lra.
  - apply (Binary64Facts.round_le_int _ 1); [lia|].
    change (inject_Z 1) with 1%Q. apply Qle_shift_div_r; [done|]. lra.
Qed.

(** *** Range of the returned score *)

Lemma pre_jitter_score_nonneg p o : (0 ≤ pre_jitter_score p o)%Z.
Proof.
  unfold pre_jitter_score, normalize.
  destruct (accumulate_nonneg p o) as [Hs _].
  destruct (accumulate p o) as [score max_score]; simpl in Hs.
  destruct (Z.ltb_spec 0 max_score) as [Hm|]; [|done].
  rewrite int_of_floor by by apply normalized_nonneg.
  change 0%Z with (Qfloor 0).
  by apply Qfloor_resp_le, normalized_nonneg.
Qed.

Lemma pre_jitter_score_le_100 p o :
  NoDup (map (λ t, Py.strip (Py.lower t)) (tags p)) →
  length (skills p) ≤ length (t_skills o) →
  length (interests p) ≤ length (t_interests o) →
  (pre_jitter_score p o ≤ 100)%Z.
Proof.
  intros Htags Hskills Hinterests.
  pose proof (accumulate_le p o Htags Hskills Hinterests) as Hle.
  unfold pre_jitter_score, normalize.
  destruct (accumulate_nonneg p o) as [Hs _].
  destruct (accumulate p o) as [score max_score]. cbn [fst snd] in *.
  destruct (Z.ltb_spec 0 max_score) as [Hm|]; [|lia].
  rewrite int_of_floor by by apply normalized_nonneg.
  change 100%Z with (Qfloor (inject_Z 100)).
  by apply Qfloor_resp_le, normalized_le_100.
Qed.

(** The value [calculate_match_score] returns, after the jitter and the
    clamp, is an integer between 0 and 100, whatever the draw. *)
Lemma tag_score_range p o rng :
  (0 ≤ (calculate_match_score p o rng).1 ≤ 100)%Z.
Proof. unfold calculate_match_score. simpl. lia. Qed.

(** The draw itself is between -3 and 3. *)
Lemma randint_range a b rng :
  (a ≤ b)%Z → (a ≤ (Random.randint a b rng).1 ≤ b)%Z.
Proof.
  intros H. unfold Random.randint. simpl.
  pose proof (Z.mod_pos_bound (Random.entropy rng (Random.cursor rng)) (b - a + 1)).
  lia.
Qed.

(** *** Normalization *)

(** C2, as the specification states it, fails on scenario 2: [score] is
    the binary64 number [33.33333333333333], [max_score] is 50, the code
    returns [int(66.66666666666666)], which is 66, where [round] would give
    67. *)
Lemma scenario2_is_not_rounded :
  (0 < (accumulate scenario2_profile scenario2_template).2)%Z
  ∧ pre_jitter_score scenario2_profile scenario2_template = 66%Z
  ∧ Py.round_half_even
      (percentage (accumulate scenario2_profile scenario2_template)) = 67%Z.
Proof. by vm_compute. Qed.

(** The truncation applies to the binary64 value, which can lie below the
    exact quotient: with the tag [react] and the bio [react] against the
    second entry of the catalog, [score] is [1/6 * 50 + 1/6 * 10], which is
    [9.999999999999998] in binary64, and the result is 9, where the exact
    quotient is 10. *)
Lemma truncation_of_the_binary64_value :
  (accumulate react_profile react_template).2 = 100%Z
  ∧ pre_jitter_score react_profile react_template = 9%Z
  ∧ Py.int_of (((1 # 6) * 50 + (1 # 6) * 10) / 100 * 100)%Q = 10%Z.
Proof. by vm_compute. Qed.

(** C2, amended.  When a component applies ([max_score > 0]) the score
    before the jitter is [int((score / max_score) * 100)]: the binary64
    value of the product is truncated, not rounded, so the result is the
    largest integer that does not exceed it.  On scenario 2 it is 66. *)
Theorem pre_jitter_is_truncation p o :
  (0 < (accumulate p o).2)%Z →
  pre_jitter_score p o = Py.int_of (percentage (accumulate p o))
  ∧ (inject_Z (pre_jitter_score p o) <= percentage (accumulate p o))%Q
  ∧ (percentage (accumulate p o) < inject_Z (pre_jitter_score p o) + 1)%Q
  ∧ pre_jitter_score scenario2_profile scenario2_template = 66%Z.
Proof.
  intros Hm.
  assert (pre_jitter_score p o = Py.int_of (percentage (accumulate p o))) as Heq.
  { unfold pre_jitter_score, normalize.
    destruct (accumulate p o) as [s m]; cbn [fst snd] in *.
    by destruct (Z.ltb_spec 0 m); [|lia]. }
  split; [done|]. rewrite Heq.
  destruct (accumulate_nonneg p o) as [Hs _].
  destruct (accumulate p o) as [score max_score]; cbn [fst snd] in *.
  pose proof (int_of_spec _ (normalized_nonneg score max_score Hs Hm)) as [H1 H2].
  split; [done|]. split; [done|]. by vm_compute.
Qed.

Lemma pre_jitter_is_truncation_witness :
  (0 < (accumulate scenario2_profile scenario2_template).2)%Z
  ∧ pre_jitter_score scenario2_profile scenario2_template
    = Py.int_of (percentage (accumulate scenario2_profile scenario2_template)).
Proof.
  assert (0 < (accumulate scenario2_profile scenario2_template).2)%Z as H
    by (vm_compute; reflexivity).
  split; [exact H|].
  exact (proj1 (pre_jitter_is_truncation scenario2_profile scenario2_template H)).
Defined.

End TagScorer.

(** ** Ranking over the static catalog *)

Module Ranking.
Import Personalized.

Ltac z_compare :=
  repeat match goal with
         | H : context [(?a <? ?b)%Z] |- _ => destruct (Z.ltb_spec a b)
         | H : context [(?a =? ?b)%Z] |- _ => destruct (Z.eqb_spec a b)
         | |- context [(?a <? ?b)%Z] => destruct (Z.ltb_spec a b)
         | |- context [(?a =? ?b)%Z] => destruct (Z.eqb_spec a b)
         end; simpl in *; try done; try lia.

Lemma key_lt_asym x y : key_lt x y = true → key_lt y x = false.
Proof. unfold key_lt. intros H. z_compare. Qed.

Lemma key_in_order_trans x y z :
  Py.in_order key_lt x y → Py.in_order key_lt y z → Py.in_order key_lt x z.
Proof. unfold Py.in_order, key_lt. intros H1 H2. z_compare. Qed.

Lemma key_in_order_match x y :
  Py.in_order key_lt x y → (s_match y ≤ s_match x)%Z.
Proof. unfold Py.in_order, key_lt. intros H. z_compare. Qed.

(** In a ranked list, whatever stands in front of an entry that reaches
    the threshold reaches it too. *)
Lemma reaches_in_order min_score x y :
  Py.in_order key_lt x y → reaches min_score y = true → reaches min_score x = true.
Proof.
  intros Ho. apply key_in_order_match in Ho. unfold reaches.
  rewrite !Qle_bool_iff. intros H.
  apply Qle_trans with (inject_Z (s_match y)); [done|]. by rewrite <- Zle_Qle.
Qed.

Lemma s_match_scored_entry date_after opp score :
  s_match (scored_entry date_after opp score) = score.
Proof.
  unfold scored_entry. by destruct (get_urgency_text date_after (urgency_days opp)).
Qed.

Lemma reaches_scored_entry date_after min_score opp score :
  reaches min_score (scored_entry date_after opp score) =
  Qle_bool min_score (inject_Z score).
Proof. unfold reaches. by rewrite s_match_scored_entry. Qed.

(** The loop of the code is the scoring of the whole catalog with the
    entries below the threshold left out; the generator ends in the same
    state. *)
Lemma scoring_loop_filter date_after p min_score catalog rng :
  scoring_loop date_after p min_score catalog rng =
  (List.filter (reaches min_score) (score_catalog date_after p catalog rng).1,
   (score_catalog date_after p catalog rng).2).
Proof.
  revert rng. induction catalog as [|opp rest IH]; intros rng;
    cbn [scoring_loop score_catalog]; [done|].
  destruct (calculate_match_score p opp rng) as [score rng1].
  rewrite IH. destruct (score_catalog date_after p rest rng1) as [scored rng2].
  cbn [fst snd List.filter]. by rewrite reaches_scored_entry.
Qed.

(** What the code computes, for every [top_n]: the threshold is applied
    while scoring, before the sort and the slice. *)
Lemma get_personalized_opportunities_in_eq date_after catalog p top_n min_score rng :
  get_personalized_opportunities_in date_after catalog p top_n min_score rng =
  (Py.slice_to top_n
     (Py.stable_sort key_lt
        (List.filter (reaches min_score) (score_catalog date_after p catalog rng).1)),
   (score_catalog date_after p catalog rng).2).
Proof.
  unfold get_personalized_opportunities_in. by rewrite scoring_loop_filter.
Qed.

Lemma threshold_after_ranking date_after catalog p top_n min_score rng :
  (0 ≤ top_n)%Z →
  get_personalized_opportunities_in date_after catalog p top_n min_score rng =
  rank_then_threshold date_after catalog p top_n min_score rng.
Proof.
  intros Hn. rewrite get_personalized_opportunities_in_eq.
  unfold rank_then_threshold.
  destruct (score_catalog date_after p catalog rng) as [everything rng']. simpl.
  f_equal. unfold Py.slice_to.
  destruct (Z.leb_spec 0 top_n) as [_|]; [|lia].
  rewrite (filter_take_sorted key_lt).
  - by rewrite (filter_stable_sort key_lt key_lt_asym key_in_order_trans).
  - apply reaches_in_order.
  - apply stable_sort_sorted; [apply key_lt_asym|apply key_in_order_trans].
Qed.

(** C3, as the specification states it, fails for a negative [top_n]: with
    the tag [python], a threshold of 1 and [top_n = -1] the code drops the
    last of the 9 entries that reach the threshold, while thresholding
    after the slice keeps all 9. *)
Lemma threshold_inside_ranking_observable :
  length (get_personalized_opportunities no_dates python_profile (-1) 1 steady_rng).1 = 8
  ∧ length (rank_then_threshold no_dates OPPORTUNITY_DATABASE
              python_profile (-1) 1 steady_rng).1 = 9
  ∧ get_personalized_opportunities no_dates python_profile (-1) 1 steady_rng
    ≠ rank_then_threshold no_dates OPPORTUNITY_DATABASE python_profile (-1) 1 steady_rng.
Proof.
  split; [by vm_compute|]. split; [by vm_compute|].
  intros H. apply (f_equal (λ r, length r.1)) in H. vm_compute in H. discriminate.
Qed.

(** C3, amended.  [get_personalized_opportunities] applies the threshold
    inside the ranking: it scores the catalog, keeps the entries that reach
    [min_score], sorts them by [(-match, urgency_days)] and slices with
    [[:top_n]].  For a [top_n] that is not negative this is the same list as
    ranking everything first and thresholding afterwards.
    [get_opportunity_recommendations] is [match_opportunities] with
    [top_k = 10] followed by the threshold. *)
Theorem threshold_and_ranking date_after p top_n min_score rng :
  (0 ≤ top_n)%Z →
  get_personalized_opportunities date_after p top_n min_score rng =
    (Py.slice_to top_n
       (Py.stable_sort key_lt
          (List.filter (reaches min_score)
             (score_catalog date_after p OPPORTUNITY_DATABASE rng).1)),
     (score_catalog date_after p OPPORTUNITY_DATABASE rng).2)
  ∧ get_personalized_opportunities date_after p top_n min_score rng =
    rank_then_threshold date_after OPPORTUNITY_DATABASE p top_n min_score rng
  ∧ ∀ ratio σ username community threshold,
      Matcher.get_opportunity_recommendations ratio σ username community threshold =
      List.filter (λ m, Qle_bool threshold (Matcher.match_score m))
        (Matcher.match_opportunities ratio σ username community 10).
Proof.
  intros Hn. unfold get_personalized_opportunities. split; [|split].
  - apply get_personalized_opportunities_in_eq.
  - by apply threshold_after_ranking.
  - done.
Qed.

Lemma threshold_and_ranking_witness :
  (0 ≤ 5)%Z
  ∧ get_personalized_opportunities no_dates python_profile 5 30 steady_rng =
    rank_then_threshold no_dates OPPORTUNITY_DATABASE python_profile 5 30 steady_rng.
Proof.
  assert (0 ≤ 5)%Z as H by lia.
  split; [exact H|].
  exact (proj1 (proj2 (threshold_and_ranking no_dates python_profile 5 30 steady_rng H))).
Defined.

End Ranking.

(** ** The profile scorer of the dynamic catalog *)

Module ProfileScorer.
Import Matcher.
Import TagScorer.

(** *** Sets of case-folded strings *)

Lemma list_to_set_remove_dups (l : list string) :
  list_to_set (remove_dups l) =@{gset string} list_to_set l.
Proof. apply set_eq. intros x. by rewrite !elem_of_list_to_set, elem_of_remove_dups. Qed.

Lemma size_lowered (l : list string) :
  size (lowered l) = length (remove_dups (map Py.lower l)).
Proof.
  unfold lowered. rewrite <- list_to_set_remove_dups.
  apply size_list_to_set, NoDup_remove_dups.
Qed.

(** The size of the intersection counts the distinct requirements found
    among the skills. *)
Lemma size_overlap (user required : list string) :
  size (lowered user ∩ lowered required) =
  Py.count_if (λ r, Py.list_contains r (map Py.lower user))
    (remove_dups (map Py.lower required)).
Proof.
  unfold Py.count_if, Py.list_contains. rewrite filter_bool_decide.
  rewrite <- (size_list_to_set (C := gset string)).
  - f_equal. apply set_eq. intros x. unfold lowered.
    rewrite elem_of_intersection, !elem_of_list_to_set, list_elem_of_filter,
      elem_of_remove_dups. tauto.
  - apply NoDup_filter, NoDup_remove_dups.
Qed.

Lemma lowered_empty (l : list string) :
  lowered l = ∅ ↔ remove_dups (map Py.lower l) = [].
Proof.
  rewrite <- (leibniz_equiv_iff (lowered l) ∅), <- size_empty_iff, size_lowered.
  apply length_zero_iff_nil.
Qed.

Lemma overlap_le (user required : list string) :
  size (lowered user ∩ lowered required) ≤ size (lowered required).
Proof. apply subseteq_size, intersection_subseteq_r. Qed.

(** *** Range of the components and of the score *)

Lemma skills_match_range opp p :
  (0 <= skills_match opp p <= 4 # 10)%Q.
Proof.
  unfold skills_match, skills_score. case_bool_decide; [|lra].
  pose proof (count_quotient_nonneg
    (size (lowered (skills p) ∩ lowered (opp_requirements opp)))
    (size (lowered (opp_requirements opp)))).
  pose proof (count_quotient_le_1 _ _
    (overlap_le (skills p) (opp_requirements opp))).
  cbv zeta. lra.
Qed.

Lemma interest_match_range opp p :
  (0 <= interest_match opp p <= 3 # 10)%Q.
Proof.
  unfold interest_match. case_bool_decide; [|lra].
  pose proof (count_quotient_nonneg
    (size (lowered (interests p) ∩ lowered (opp_tags opp)))
    (size (lowered (opp_tags opp)))).
  pose proof (count_quotient_le_1 _ _
    (overlap_le (interests p) (opp_tags opp))).
  cbv zeta. lra.
Qed.

Section Ratio.
Variable ratio : string → string → Q.

(** [SequenceMatcher.ratio()] is never negative. *)
Hypothesis ratio_nonneg : ∀ a b, (0 <= ratio a b)%Q.

Lemma activity_match_nonneg opp activity :
  (0 <= activity_match ratio opp activity)%Q.
Proof.
  unfold activity_match. destruct (Py.truthy activity); [|lra].
  cbv zeta.
  pose proof (ratio_nonneg
    (Py.lower (Py.join " " (map act_content (Py.last_n 20 activity))))
    (Py.lower (opp_description opp))). lra.
Qed.

Lemma bio_match_nonneg opp p :
  (0 <= bio_match ratio opp p)%Q.
Proof.
  unfold bio_match. destruct (Py.str_truthy (Py.lower (bio p))); [|lra].
  cbv zeta.
  pose proof (ratio_nonneg (Py.lower (bio p)) (Py.lower (opp_description opp))). lra.
Qed.

End Ratio.

(** The score of the dynamic catalog is at most 1, by the final [min]. *)
Lemma profile_score_le_1 ratio opp p activity :
  (calculate_match_score ratio opp p activity <= 1)%Q.
Proof.
  unfold calculate_match_score. cbv zeta.
  match goal with |- context [Qle_bool ?s 1] =>
    destruct (Qle_bool s 1) eqn:Hle; [by apply Qle_bool_iff in Hle|] end.
  discriminate.
Qed.

(** It is not negative, the similarity ratios being not negative. *)
Lemma profile_score_nonneg ratio opp p activity :
  (∀ a b, 0 <= ratio a b)%Q →
  (0 <= calculate_match_score ratio opp p activity)%Q.
Proof.
  intros Hratio. unfold calculate_match_score.
  pose proof (skills_match_range opp p).
  pose proof (interest_match_range opp p).
  pose proof (activity_match_nonneg ratio Hratio opp activity).
  pose proof (bio_match_nonneg ratio Hratio opp p).
  cbv zeta.
  match goal with |- context [Qle_bool ?s 1] => destruct (Qle_bool s 1) end; lra.
Qed.

(** *** The skills component *)

Lemma skills_match_coverage opp p :
  skills_match opp p = skills_coverage (opp_requirements opp) (skills p).
Proof.
  unfold skills_match, skills_score, skills_coverage. cbv zeta.
  rewrite size_overlap, size_lowered.
  case_bool_decide as Hne.
  - destruct (remove_dups (map Py.lower (opp_requirements opp))) eqn:Hreq; [|done].
    by apply lowered_empty in Hreq.
  - assert (lowered (opp_requirements opp) = ∅) as Hempty
      by (by destruct (decide (lowered (opp_requirements opp) = ∅))).
    apply lowered_empty in Hempty. by rewrite Hempty.
Qed.

Lemma remove_dups_NoDup (l : list string) : NoDup l → remove_dups l = l.
Proof.
  induction 1 as [|x l Hx _ IH]; simpl; [done|].
  destruct (decide_rel elem_of x l); [done|]. by rewrite IH.
Qed.

Lemma count_if_map {A B} (f : A → B) (q : B → bool) (l : list A) :
  Py.count_if q (map f l) = Py.count_if (λ x, q (f x)) l.
Proof.
  unfold Py.count_if. induction l as [|x l IH]; simpl; [done|].
  destruct (q (f x)); simpl; by rewrite IH.
Qed.

(** C5. The skills component of [calculate_match_score] is the number of
    the opportunity's requirements found among the user's skills, divided
    by the number of requirements and multiplied by 0.4, requirements and
    skills being compared without regard to case and a requirement written
    twice counting once (so that, for requirements that differ from each
    other also without regard to case, the numbers are counts over the
    list of requirements); it is 0 for an opportunity without
    requirements.  On scenario 1 the component and the total score are
    0.20. *)
Theorem skills_component ratio opp p :
  skills_match opp p = skills_coverage (opp_requirements opp) (skills p)
  ∧ (NoDup (map Py.lower (opp_requirements opp)) →
     opp_requirements opp ≠ [] →
     skills_match opp p =
     (Py.Q_of_nat
        (Py.count_if (λ r, Py.list_contains (Py.lower r) (map Py.lower (skills p)))
           (opp_requirements opp))
      / Py.Q_of_nat (length (opp_requirements opp)) * (4 # 10))%Q)
  ∧ (opp_requirements opp = [] → skills_match opp p = 0%Q)
  ∧ (skills_match scenario1_opportunity scenario1_profile == 2 # 10)%Q
  ∧ (calculate_match_score ratio scenario1_opportunity scenario1_profile [] == 2 # 10)%Q.
Proof.
  split; [apply skills_match_coverage|]. split; [|split; [|split]].
  - intros Hnodup Hne. rewrite skills_match_coverage. unfold skills_coverage.
    cbv zeta. rewrite (remove_dups_NoDup _ Hnodup), count_if_map, length_map.
    by destruct (opp_requirements opp).
  - intros Hreq. rewrite skills_match_coverage, Hreq. done.
  - by vm_compute.
  - by vm_compute.
Qed.

Lemma skills_component_witness :
  skills_match scenario1_opportunity scenario1_profile =
    (Py.Q_of_nat 1 / Py.Q_of_nat 2 * (4 # 10))%Q
  ∧ skills_match open_call scenario1_profile = 0%Q.
Proof.
  destruct (skills_component (λ _ _, 0%Q) scenario1_opportunity scenario1_profile)
    as (_ & Hcount & _).
  destruct (skills_component (λ _ _, 0%Q) open_call scenario1_profile)
    as (_ & _ & Hnone & _).
  split.
  - apply Hcount.
    + apply (bool_decide_unpack _). vm_compute. exact I.
    + discriminate.
  - apply Hnone. reflexivity.
Defined.

(** *** Monotonicity in the skills *)

Lemma lowered_insert (pre post : list string) s :
  lowered (pre ++ post) ⊆ lowered (pre ++ s :: post).
Proof.
  unfold lowered. intros x. rewrite !elem_of_list_to_set, !list_elem_of_fmap.
  intros (y & -> & Hy). exists y. split; [done|].
  rewrite elem_of_app in Hy. rewrite elem_of_app, elem_of_cons. tauto.
Qed.

Lemma skills_score_monotone opp p (pre post : list string) (s : string) :
  (skills_score opp (with_skills p (pre ++ post))
   <= skills_score opp (with_skills p (pre ++ s :: post)))%Q.
Proof.
  unfold skills_score. simpl.
  apply Qmult_le_compat_r.
  - apply Q_of_nat_le, subseteq_size.
    apply intersection_mono_r, lowered_insert.
  - apply Qinv_le_0_compat, Q_of_nat_nonneg.
Qed.

(** C6. Adding a skill to the user's skills, wherever in the list, never
    decreases the skills sub-score of an opportunity, nor the amount it
    adds to the score, nor the score itself; in particular when the added
    skill is one of the opportunity's requirements. *)
Theorem skills_monotone ratio opp p activity (pre post : list string) (s : string) :
  (skills_score opp (with_skills p (pre ++ post))
   <= skills_score opp (with_skills p (pre ++ s :: post)))%Q
  ∧ (skills_match opp (with_skills p (pre ++ post))
     <= skills_match opp (with_skills p (pre ++ s :: post)))%Q
  ∧ (calculate_match_score ratio opp (with_skills p (pre ++ post)) activity
     <= calculate_match_score ratio opp (with_skills p (pre ++ s :: post)) activity)%Q.
Proof.
  pose proof (skills_score_monotone opp p pre post s) as Hscore.
  assert (skills_match opp (with_skills p (pre ++ post))
          <= skills_match opp (with_skills p (pre ++ s :: post)))%Q as Hskills.
  { unfold skills_match. case_bool_decide as Hne; [|lra]. lra. }
  split; [done|]. split; [done|].
  unfold calculate_match_score. cbv zeta.
  change (interest_match opp (with_skills p (pre ++ s :: post)))
    with (interest_match opp (with_skills p (pre ++ post))).
  change (bio_match ratio opp (with_skills p (pre ++ s :: post)))
    with (bio_match ratio opp (with_skills p (pre ++ post))).
  repeat match goal with |- context [Qle_bool ?a 1] =>
    let H := fresh "H" in destruct (Qle_bool a 1) eqn:H;
    [apply Qle_bool_iff in H|] end; try lra.
  exfalso.
  match goal with H : Qle_bool ?a 1 = false |- _ =>
    assert (a <= 1)%Q as Hle by lra; apply Qle_bool_iff in Hle; congruence end.
Qed.

End ProfileScorer.
(** ** The opportunity store *)

Module Lifecycle.
Import Matcher.

(** *** The order of [created_at] *)

Lemma ltb_negb_leb (a b : string) : String.ltb a b = negb (String.leb b a).
Proof.
  unfold String.ltb, String.leb. rewrite (String.compare_antisym a b).
  by destruct (String.compare b a).
Qed.

Lemma newer_asym x y : newer x y = true → newer y x = false.
Proof.
  unfold newer. rewrite !ltb_negb_leb.
  destruct (String.leb_total (default "" (created_at_of x))
              (default "" (created_at_of y))) as [-> | ->];
    simpl; done.
Qed.

Lemma in_order_newer x y : Py.in_order newer x y ↔ not_older x y.
Proof.
  unfold Py.in_order, newer, not_older, String.le. rewrite ltb_negb_leb.
  destruct (String.leb (default "" (created_at_of y))
              (default "" (created_at_of x))); simpl; naive_solver.
Qed.

Lemma newer_in_order_trans x y z :
  Py.in_order newer x y → Py.in_order newer y z → Py.in_order newer x z.
Proof.
  rewrite !in_order_newer. unfold not_older. intros Hxy Hyz. by etrans.
Qed.

Lemma StronglySorted_weaken {A} (R S : A → A → Prop) l :
  (∀ x y, R x y → S x y) → StronglySorted R l → StronglySorted S l.
Proof.
  intros HRS. induction 1 as [|x l Hl IH Hx]; constructor; [done|].
  eapply Forall_impl; [exact Hx|]. auto.
Qed.

(** *** Nodes and paths *)

Lemma node_eta n : node (pushed_of n) (below_of n) = n.
Proof. by destruct n. Qed.

Lemma node_at_empty path : node_at path empty_node = empty_node.
Proof. induction path as [|s path IH]; [done|]. simpl. by rewrite lookup_empty. Qed.

Lemma node_at_at_path f path n :
  node_at path (at_path f path n) = f (node_at path n).
Proof.
  revert n. induction path as [|s path IH]; intros n; [done|].
  simpl. rewrite lookup_insert_eq. simpl. apply IH.
Qed.

(** A change of the records of a node leaves every node alone that is not
    that node or above it. *)
Lemma node_at_at_path_apart f path path' n :
  (∀ m, below_of (f m) = below_of m) →
  ¬ path' `prefix_of` path →
  node_at path' (at_path f path n) = node_at path' n.
Proof.
  intros Hf. revert path' n.
  induction path as [|t path IH]; intros [|s path'] n Hpre.
  - destruct Hpre. apply prefix_nil.
  - simpl. by rewrite Hf.
  - destruct Hpre. apply prefix_nil.
  - simpl. destruct (decide (t = s)) as [->|Hne].
    + rewrite lookup_insert_eq. simpl. apply IH.
      intros Hpre'. apply Hpre. by apply prefix_cons.
    + by rewrite lookup_insert_ne.
Qed.

(** It leaves the records of every other node alone. *)
Lemma pushed_of_at_path_other f path path' n :
  (∀ m, below_of (f m) = below_of m) →
  path' ≠ path →
  pushed_of (node_at path' (at_path f path n)) = pushed_of (node_at path' n).
Proof.
  intros Hf. revert path' n.
  induction path as [|t path IH]; intros [|s path'] n Hne.
  - done.
  - simpl. by rewrite Hf.
  - done.
  - simpl. destruct (decide (t = s)) as [->|Hts].
    + rewrite lookup_insert_eq. simpl. apply IH. congruence.
    + by rewrite lookup_insert_ne.
Qed.

Lemma at_path_at_path f g path n :
  at_path g path (at_path f path n) = at_path (λ m, g (f m)) path n.
Proof.
  revert n. induction path as [|s path IH]; intros n; [done|].
  simpl. rewrite lookup_insert_eq. simpl. by rewrite IH, insert_insert_eq.
Qed.

(** A change that leaves the node as it is leaves the tree as it is, when
    the node is there. *)
Lemma at_path_unchanged f path n :
  node_at path n ≠ empty_node →
  f (node_at path n) = node_at path n →
  at_path f path n = n.
Proof.
  revert n. induction path as [|s path IH]; intros n Hnode Hf; [done|].
  simpl in *. destruct (below_of n !! s) as [c|] eqn:Hc; simpl in *.
  - rewrite IH by done. rewrite insert_id by done. apply node_eta.
  - destruct Hnode. apply node_at_empty.
Qed.

(** *** Reading and writing a collection *)

Lemma records_nested {A} (f : A → Node) (l : list A) :
  records (map (λ c, nested (f c)) l) = [].
Proof. unfold records. by induction l. Qed.

Lemma records_stored (l : list Opportunity) : records (map stored l) = l.
Proof.
  unfold records. induction l as [|x l IH]; [done|]. simpl. f_equal. exact IH.
Qed.

Lemma records_app (l k : list Value) : records (l ++ k) = records l ++ records k.
Proof. unfold records. apply omap_app. Qed.

(** The records among the children of a node are the records pushed to
    it. *)
Lemma records_children n : records (children n) = pushed_of n.
Proof.
  unfold children. cbv zeta.
  rewrite !records_app, records_stored.
  rewrite (records_nested snd), (records_nested snd). by rewrite app_nil_r.
Qed.

Lemma elem_of_records (l : list Value) opp : opp ∈ records l ↔ stored opp ∈ l.
Proof.
  unfold records. rewrite list_elem_of_omap. split.
  - intros ([o|n] & Hin & Heq); simplify_eq. done.
  - intros Hin. by exists (stored opp).
Qed.

Lemma children_empty : children empty_node = [].
Proof. by vm_compute. Qed.

Lemma collection_path σ c path :
  segments c = Some path →
  collection σ c = pushed_of (node_at path (opportunities σ)).
Proof. intros H. unfold collection. by rewrite H. Qed.

Lemma collection_with_collection σ c path records :
  segments c = Some path →
  collection (with_collection σ path records) c = records.
Proof.
  intros H. unfold collection, with_collection. rewrite H. simpl.
  by rewrite node_at_at_path.
Qed.

(** Writing back the records of a node that holds some changes nothing. *)
Lemma with_collection_same σ path :
  pushed_of (node_at path (opportunities σ)) ≠ [] →
  with_collection σ path (pushed_of (node_at path (opportunities σ))) = σ.
Proof.
  intros Hne. unfold with_collection. rewrite at_path_unchanged.
  - by destruct σ.
  - intros Hempty. by rewrite Hempty in Hne.
  - apply node_eta.
Qed.

Lemma set_status_same opp : set_status (opp_status opp) opp = opp.
Proof. by destruct opp. Qed.

Lemma last_n_elem {A} (n : nat) (l : list A) x : x ∈ Py.last_n n l → x ∈ l.
Proof. unfold Py.last_n. apply subseteq_drop. Qed.

(** *** [get_opportunities] *)

Lemma sort_newest_first_elem values sorted v :
  sort_newest_first values = Some sorted → v ∈ sorted → v ∈ values.
Proof.
  unfold sort_newest_first.
  destruct (_ && _); [done|]. intros [= <-]. by rewrite stable_sort_elem.
Qed.

Lemma sort_newest_first_sorted values :
  StronglySorted not_older (default [] (sort_newest_first values)).
Proof.
  unfold sort_newest_first. destruct (_ && _); simpl; [constructor|].
  eapply StronglySorted_weaken; [apply in_order_newer|].
  apply stable_sort_sorted; [apply newer_asym|apply newer_in_order_trans].
Qed.

(** Records have a [created_at] that is a string: their sort succeeds. *)
Lemma sort_newest_first_records (l : list Opportunity) :
  sort_newest_first (map stored l) = Some (Py.stable_sort newer (map stored l)).
Proof.
  unfold sort_newest_first.
  assert (existsb (λ v, bool_decide (created_at_of v = None)) (map stored l) = false)
    as -> by (by induction l).
  by rewrite andb_false_r.
Qed.

(** The listing, spelled out: what is read, filtered and sorted. *)
Lemma get_opportunities_eq σ c status limit :
  get_opportunities σ c status limit =
  if reachable σ then
    match segments c with
    | Some path =>
        default []
          (sort_newest_first
             (if bool_decide (status ≠ "all")
              then List.filter (λ v, bool_decide (status_of v = Some status))
                     (Py.last_n limit (children (node_at path (opportunities σ))))
              else Py.last_n limit (children (node_at path (opportunities σ)))))
    | None => []
    end
  else [].
Proof.
  unfold get_opportunities. destruct (reachable σ); [|done].
  destruct (segments c) as [path|]; [|done]. cbv zeta.
  destruct (Py.last_n limit (children (node_at path (opportunities σ))));
    simpl; [|done].
  by case_bool_decide.
Qed.

Lemma get_opportunities_elem σ c status limit v :
  v ∈ get_opportunities σ c status limit →
  ∃ path, segments c = Some path
    ∧ v ∈ children (node_at path (opportunities σ))
    ∧ (status ≠ "all" → status_of v = Some status).
Proof.
  rewrite get_opportunities_eq.
  destruct (reachable σ); [|by intros ?%elem_of_nil].
  destruct (segments c) as [path|]; [|by intros ?%elem_of_nil].
  destruct (sort_newest_first _) as [sorted|] eqn:Hsort; simpl;
    [|by intros ?%elem_of_nil].
  intros Hv. apply (sort_newest_first_elem _ _ _ Hsort) in Hv.
  exists path. split; [done|].
  case_bool_decide as Hall.
  - apply list_elem_of_In, filter_In in Hv as [Hv Hs].
    apply list_elem_of_In, last_n_elem in Hv.
    apply bool_decide_eq_true in Hs. done.
  - apply last_n_elem in Hv. done.
Qed.

(** Every record [get_opportunities] returns is stored in the collection
    of the community. *)
Lemma get_opportunities_stored σ c status limit opp :
  stored opp ∈ get_opportunities σ c status limit → opp ∈ collection σ c.
Proof.
  intros (path & Hpath & Hv & _)%get_opportunities_elem.
  rewrite (collection_path _ _ _ Hpath), <- records_children.
  by apply elem_of_records.
Qed.

Lemma get_opportunities_status σ c status limit :
  status ≠ "all" →
  Forall (λ v, ∃ opp, v = stored opp ∧ opp_status opp = status)
    (get_opportunities σ c status limit).
Proof.
  intros Hall. apply Forall_forall. intros v Hv.
  apply get_opportunities_elem in Hv as (_ & _ & _ & Hs).
  specialize (Hs Hall). destruct v as [opp|n]; [|done].
  exists opp. split; [done|]. by injection Hs.
Qed.

Lemma get_opportunities_sorted σ c status limit :
  StronglySorted not_older (get_opportunities σ c status limit).
Proof.
  rewrite get_opportunities_eq.
  destruct (reachable σ); [|constructor].
  destruct (segments c); [|constructor].
  apply sort_newest_first_sorted.
Qed.

(** With a status filter the values of a listing are records. *)
Lemma get_opportunities_records σ c status limit :
  status ≠ "all" →
  get_opportunities σ c status limit
  = map stored (records (get_opportunities σ c status limit)).
Proof.
  intros Hall. pose proof (get_opportunities_status σ c status limit Hall) as H.
  induction H as [|v l (opp & -> & _) _ IH]; [done|].
  unfold records in *. simpl. f_equal. exact IH.
Qed.

(** *** [update_opportunity_status] *)

Lemma update_found σ c path oid status key opp :
  reachable σ = true →
  segments c = Some path →
  list_find (λ o, opp_id o = oid) (collection σ c) = Some (key, opp) →
  update_opportunity_status σ c oid status =
  (true, with_collection σ path (<[key := set_status status opp]> (collection σ c))).
Proof.
  intros Hr Hpath Hfind. unfold update_opportunity_status.
  rewrite (collection_path _ _ _ Hpath) in *.
  rewrite Hr, Hpath. cbv zeta. rewrite records_children, Hfind.
  destruct (children (node_at path (opportunities σ))) eqn:Hc; [|done].
  pose proof (records_children (node_at path (opportunities σ))) as Hrec.
  rewrite Hc in Hrec. rewrite <- Hrec in Hfind. done.
Qed.

Lemma update_not_found σ c oid status :
  list_find (λ o, opp_id o = oid) (collection σ c) = None →
  update_opportunity_status σ c oid status = (false, σ).
Proof.
  intros Hfind. unfold update_opportunity_status, collection in *.
  destruct (reachable σ); [|done].
  destruct (segments c) as [path|]; [|done]. cbv zeta.
  rewrite records_children, Hfind.
  by destruct (Py.truthy (children (node_at path (opportunities σ)))).
Qed.

Lemma find_by_id σ c oid :
  (∃ opp, opp ∈ collection σ c ∧ opp_id opp = oid) →
  ∃ key opp, list_find (λ o, opp_id o = oid) (collection σ c) = Some (key, opp).
Proof.
  intros (opp & Hin & Hid).
  destruct (list_find (λ o, opp_id o = oid) (collection σ c)) as [[key o]|] eqn:Hfind;
    [by eauto|].
  apply list_find_None in Hfind. rewrite Forall_forall in Hfind.
  by destruct (Hfind opp Hin).
Qed.

(** A community with a record is a community whose name is a path. *)
Lemma collection_segments σ c opp :
  opp ∈ collection σ c → ∃ path, segments c = Some path.
Proof.
  unfold collection. destruct (segments c) as [path|]; [by eauto|].
  by intros ?%elem_of_nil.
Qed.

(** *** [add_opportunity] *)

Lemma submit_stores σ c path s :
  reachable σ = true →
  segments c = Some path →
  submit σ c s =
  (Some (sub_uuid4 s), with_collection σ path (collection σ c ++ [submitted s])).
Proof.
  intros Hr Hpath. unfold submit, add_opportunity.
  by rewrite Hr, Hpath, (collection_path _ _ _ Hpath).
Qed.

Lemma submit_collection σ c path s :
  reachable σ = true →
  segments c = Some path →
  reachable (submit σ c s).2 = true
  ∧ collection (submit σ c s).2 c = collection σ c ++ [submitted s].
Proof.
  intros Hr Hpath. rewrite (submit_stores _ _ path) by done. simpl.
  by rewrite (collection_with_collection _ _ path).
Qed.

(** A successful [add_opportunity] appends the record to the records of
    the node and leaves the nodes below it alone. *)
Lemma submit_node σ c path s :
  reachable σ = true →
  segments c = Some path →
  node_at path (opportunities (submit σ c s).2)
  = node (pushed_of (node_at path (opportunities σ)) ++ [submitted s])
      (below_of (node_at path (opportunities σ))).
Proof.
  intros Hr Hpath. rewrite (submit_stores _ _ path) by done. simpl.
  by rewrite node_at_at_path, (collection_path _ _ _ Hpath).
Qed.

Lemma children_records_only (l : list Opportunity) :
  children (node l ∅) = map stored l.
Proof.
  unfold children, named. simpl. rewrite map_to_list_empty. simpl.
  by rewrite app_nil_r.
Qed.

(** The listing of a node that holds records only. *)
Lemma get_opportunities_records_only σ c path status (l : list Opportunity) :
  reachable σ = true →
  segments c = Some path →
  node_at path (opportunities σ) = node l ∅ →
  status ≠ "all" →
  get_opportunities σ c status 50
  = map stored
      (Py.stable_sort (λ x y, newer (stored x) (stored y))
         (List.filter (λ opp, bool_decide (opp_status opp = status))
            (Py.last_n 50 l))).
Proof.
  intros Hr Hpath Hnode Hall.
  rewrite get_opportunities_eq, Hr, Hpath, Hnode, children_records_only.
  rewrite bool_decide_true by done.
  assert (∀ k : list Opportunity,
            List.filter (λ v, bool_decide (status_of v = Some status)) (map stored k)
            = map stored
                (List.filter (λ opp, bool_decide (opp_status opp = status)) k))
    as Hfilter.
  { induction k as [|x k IH]; [done|]. cbn [map List.filter status_of].
    destruct (decide (opp_status x = status)) as [Hx|Hx].
    - rewrite !bool_decide_true by congruence. cbn [map]. by rewrite IH.
    - rewrite !bool_decide_false by congruence. done. }
  assert (Py.last_n 50 (map stored l) = map stored (Py.last_n 50 l)) as ->.
  { unfold Py.last_n. by rewrite length_map, <- fmap_drop. }
  rewrite Hfilter, sort_newest_first_records. simpl.
  generalize (List.filter (λ opp, bool_decide (opp_status opp = status))
                (Py.last_n 50 l)).
  intros k. induction k as [|x k IH]; [done|].
  cbn [map Py.stable_sort foldr]. fold (Py.stable_sort newer (map stored k)).
  fold (Py.stable_sort (λ x y, newer (stored x) (stored y)) k).
  rewrite IH. generalize (Py.stable_sort (λ x y, newer (stored x) (stored y)) k).
  intros k'. induction k' as [|y k' IH']; [done|].
  cbn [map Py.insert_sorted]. destruct (newer (stored y) (stored x)); [|done].
  cbn [map]. by rewrite IH'.
Qed.

(** Scenario 3: three opportunities created in a community for which
    nothing was stored, one of them closed. *)
Lemma three_created_one_closed σ community s1 s2 s3 s :
  reachable σ = true →
  vacant σ community →
  NoDup [sub_uuid4 s1; sub_uuid4 s2; sub_uuid4 s3] →
  s ∈ [s1; s2; s3] →
  let σ3 := (submit (submit (submit σ community s1).2 community s2).2 community s3).2 in
  let closing := update_opportunity_status σ3 community (sub_uuid4 s) "closed" in
  closing.1 = true
  ∧ get_opportunities closing.2 community "closed" 50
    = [stored (set_status "closed" (submitted s))].
Proof.
  intros Hr (path & Hpath & Hempty) Hids Hs σ3 closing.
  assert (reachable σ3 = true ∧
          node_at path (opportunities σ3)
          = node [submitted s1; submitted s2; submitted s3] ∅)
    as [Hr3 Hn3].
  { unfold σ3.
    destruct (submit_collection σ community path s1 Hr Hpath) as [Hr1 _].
    destruct (submit_collection _ community path s2 Hr1 Hpath) as [Hr2 _].
    destruct (submit_collection _ community path s3 Hr2 Hpath) as [Hr3 _].
    split; [done|].
    rewrite (submit_node _ _ path) by done.
    rewrite (submit_node _ _ path) by done.
    rewrite (submit_node _ _ path) by done.
    by rewrite Hempty. }
  assert (collection σ3 community = [submitted s1; submitted s2; submitted s3])
    as Hc3 by (by rewrite (collection_path _ _ _ Hpath), Hn3).
  apply NoDup_cons in Hids as [H1 Hids]. apply NoDup_cons in Hids as [H2 _].
  rewrite !not_elem_of_cons in H1. rewrite !not_elem_of_cons in H2.
  destruct H1 as (H12 & H13 & _). destruct H2 as (H23 & _).
  assert (∀ key sk,
            list_find (λ o, opp_id o = sub_uuid4 sk) (collection σ3 community)
            = Some (key, submitted sk) →
            (∀ σ', reachable σ' = true →
               node_at path (opportunities σ')
               = node (<[key := set_status "closed" (submitted sk)]>
                         [submitted s1; submitted s2; submitted s3]) ∅ →
               get_opportunities σ' community "closed" 50
               = [stored (set_status "closed" (submitted sk))]) →
            (update_opportunity_status σ3 community (sub_uuid4 sk) "closed").1 = true
            ∧ get_opportunities
                (update_opportunity_status σ3 community (sub_uuid4 sk) "closed").2
                community "closed" 50
              = [stored (set_status "closed" (submitted sk))]) as Hclose.
  { intros key sk Hfind Hget.
    rewrite (update_found _ _ path _ _ key (submitted sk)) by done.
    split; [done|]. apply Hget; [done|]. simpl.
    by rewrite node_at_at_path, Hc3, Hn3. }
  assert (∀ σ' records,
            reachable σ' = true →
            node_at path (opportunities σ') = node records ∅ →
            get_opportunities σ' community "closed" 50
            = map stored
                (Py.stable_sort (λ x y, newer (stored x) (stored y))
                   (List.filter (λ opp, bool_decide (opp_status opp = "closed"))
                      (Py.last_n 50 records)))) as Hget.
  { intros σ' records Hr' Hn'.
    by apply (get_opportunities_records_only _ _ path). }
  unfold closing. rewrite !elem_of_cons in Hs.
  destruct Hs as [-> | [-> | [-> | []%elem_of_nil]]].
  - apply (Hclose 0).
    + rewrite Hc3. simpl. by rewrite decide_True.
    + intros σ' Hr' Hn'. by rewrite (Hget σ' _ Hr' Hn').
  - apply (Hclose 1).
    + rewrite Hc3. simpl. rewrite decide_False by done. by rewrite decide_True.
    + intros σ' Hr' Hn'. by rewrite (Hget σ' _ Hr' Hn').
  - apply (Hclose 2).
    + rewrite Hc3. simpl. rewrite decide_False by done.
      rewrite decide_False by done. by rewrite decide_True.
    + intros σ' Hr' Hn'. by rewrite (Hget σ' _ Hr' Hn').
Qed.

(** C7. With a status other than ["all"], every value that
    [get_opportunities] returns is an opportunity with that status;
    whatever the status argument, the list is ordered by [created_at], most
    recent first; and after three opportunities are created in a community
    for which nothing was stored and one of them is closed,
    [get_opportunities(community, status="closed")] is the list of that
    one opportunity, closed. *)
Theorem listing_contract σ community status limit s1 s2 s3 s :
  (status ≠ "all" →
   Forall (λ v, ∃ opp, v = stored opp ∧ opp_status opp = status)
     (get_opportunities σ community status limit))
  ∧ StronglySorted not_older (get_opportunities σ community status limit)
  ∧ (reachable σ = true →
     vacant σ community →
     NoDup [sub_uuid4 s1; sub_uuid4 s2; sub_uuid4 s3] →
     s ∈ [s1; s2; s3] →
     let σ3 :=
       (submit (submit (submit σ community s1).2 community s2).2 community s3).2 in
     let closing := update_opportunity_status σ3 community (sub_uuid4 s) "closed" in
     closing.1 = true
     ∧ get_opportunities closing.2 community "closed" 50
       = [stored (set_status "closed" (submitted s))]).
Proof.
  split; [apply get_opportunities_status|].
  split; [apply get_opportunities_sorted|].
  apply three_created_one_closed.
Qed.

Lemma listing_contract_witness :
  let s1 := plain_submission "Demo day" "id-1" "2024-05-01" in
  let s2 := plain_submission "Hack night" "id-2" "2024-05-02" in
  let s3 := plain_submission "Seed round" "id-3" "2024-05-03" in
  let σ3 := (submit (submit (submit empty_store "hub" s1).2 "hub" s2).2 "hub" s3).2 in
  Forall (λ v, ∃ opp, v = stored opp ∧ opp_status opp = "closed")
    (get_opportunities empty_store "hub" "closed" 50)
  ∧ get_opportunities (update_opportunity_status σ3 "hub" "id-2" "closed").2
      "hub" "closed" 50
    = [stored (set_status "closed" (submitted s2))].
Proof.
  intros s1 s2 s3 σ3.
  pose proof (listing_contract empty_store "hub" "closed" 50 s1 s2 s3 s2)
    as (Hstatus & _ & Hscenario).
  split.
  - apply Hstatus. discriminate.
  - apply Hscenario.
    + reflexivity.
    + exists ["hub"]. split; reflexivity.
    + apply (bool_decide_unpack _). vm_compute. exact I.
    + rewrite !elem_of_cons. right. left. reflexivity.
Defined.

(** C8. [update_opportunity_status] returns [False] and leaves the
    database as it is when no record of the community has the given id;
    it returns [True] when a record has it (the calls on the database
    completing); and when the records with that id already have the status
    asked for, it returns [True] and the database is unchanged. *)
Theorem status_update_result σ community opportunity_id status :
  ((∀ opp, opp ∈ collection σ community → opp_id opp ≠ opportunity_id) →
   update_opportunity_status σ community opportunity_id status = (false, σ))
  ∧ (reachable σ = true →
     (∃ opp, opp ∈ collection σ community ∧ opp_id opp = opportunity_id) →
     (update_opportunity_status σ community opportunity_id status).1 = true)
  ∧ (reachable σ = true →
     (∃ opp, opp ∈ collection σ community ∧ opp_id opp = opportunity_id) →
     (∀ opp, opp ∈ collection σ community → opp_id opp = opportunity_id →
             opp_status opp = status) →
     update_opportunity_status σ community opportunity_id status = (true, σ)).
Proof.
  split; [|split].
  - intros Hnone. apply update_not_found, list_find_None, Forall_forall.
    intros opp Hin. by apply Hnone.
  - intros Hr Hex.
    destruct Hex as (o & Ho & Hid).
    destruct (collection_segments _ _ _ Ho) as [path Hpath].
    destruct (find_by_id σ community opportunity_id) as (key & opp & Hfind);
      [by eauto|].
    by rewrite (update_found _ _ path _ _ key opp).
  - intros Hr Hex Hsame.
    destruct Hex as (o & Ho & Hid).
    destruct (collection_segments _ _ _ Ho) as [path Hpath].
    destruct (find_by_id σ community opportunity_id) as (key & opp & Hfind);
      [by eauto|].
    rewrite (update_found _ _ path _ _ key opp) by done. f_equal.
    apply list_find_Some in Hfind as (Hkey & Hid' & _).
    rewrite <- (Hsame opp) by (by eauto using list_elem_of_lookup_2).
    rewrite set_status_same, list_insert_id by done.
    rewrite (collection_path _ _ _ Hpath) in *.
    apply with_collection_same. intros Hnil. by rewrite Hnil in Hkey.
Qed.

Lemma status_update_result_witness :
  reachable (submit empty_store "hub" (plain_submission "Demo day" "id-1" "2024-05-01")).2
    = true
  ∧ update_opportunity_status
      (submit empty_store "hub" (plain_submission "Demo day" "id-1" "2024-05-01")).2
      "hub" "id-1" "active"
    = (true, (submit empty_store "hub" (plain_submission "Demo day" "id-1" "2024-05-01")).2).
Proof.
  split; [reflexivity|].
  apply (status_update_result
           (submit empty_store "hub" (plain_submission "Demo day" "id-1" "2024-05-01")).2
           "hub" "id-1" "active").
  - reflexivity.
  - exists (submitted (plain_submission "Demo day" "id-1" "2024-05-01")).
    split; [|reflexivity]. vm_compute. apply list_elem_of_here.
  - intros opp Hin _. vm_compute in Hin.
    apply list_elem_of_singleton in Hin. by rewrite Hin.
Defined.

(** C10. When [update_opportunity_status] reports a record found, the
    record stored under the key of the first match differs from the one
    that was there in its status only, every other record of the
    collection is the same, and so are the records of every other node,
    the profiles and the activity log. *)
Theorem status_update_frame σ community opportunity_id status σ' :
  update_opportunity_status σ community opportunity_id status = (true, σ') →
  ∃ key opp opp',
    collection σ community !! key = Some opp
    ∧ opp_id opp = opportunity_id
    ∧ collection σ' community !! key = Some opp'
    ∧ opp_status opp' = status
    ∧ opp_id opp' = opp_id opp
    ∧ opp_title opp' = opp_title opp
    ∧ opp_description opp' = opp_description opp
    ∧ opp_category opp' = opp_category opp
    ∧ opp_tags opp' = opp_tags opp
    ∧ opp_requirements opp' = opp_requirements opp
    ∧ opp_deadline opp' = opp_deadline opp
    ∧ opp_posted_by opp' = opp_posted_by opp
    ∧ opp_metadata opp' = opp_metadata opp
    ∧ opp_created_at opp' = opp_created_at opp
    ∧ length (collection σ' community) = length (collection σ community)
    ∧ (∀ j, j ≠ key → collection σ' community !! j = collection σ community !! j)
    ∧ (∀ c, segments c ≠ segments community → collection σ' c = collection σ c)
    ∧ user_profiles σ' = user_profiles σ
    ∧ user_activity σ' = user_activity σ
    ∧ reachable σ' = reachable σ.
Proof.
  intros Hupd.
  destruct (reachable σ) eqn:Hr;
    [|by unfold update_opportunity_status in Hupd; rewrite Hr in Hupd].
  destruct (list_find (λ o, opp_id o = opportunity_id) (collection σ community))
    as [[key opp]|] eqn:Hfind;
    [|by rewrite update_not_found in Hupd].
  pose proof Hfind as Hfind'.
  apply list_find_Some in Hfind' as (Hkey & Hid & _).
  destruct (collection_segments σ community opp) as [path Hpath];
    [by eapply list_elem_of_lookup_2|].
  rewrite (update_found _ _ path _ _ key opp) in Hupd by done.
  injection Hupd as <-.
  exists key, opp, (set_status status opp).
  rewrite (collection_with_collection _ _ path) by done.
  repeat split; try done.
  - apply list_lookup_insert_eq. by eapply lookup_lt_Some.
  - apply length_insert.
  - intros j Hj. by apply list_lookup_insert_ne.
  - intros c Hc. unfold collection.
    destruct (segments c) as [path'|] eqn:Hc'; [|done].
    unfold with_collection. cbn [opportunities].
    apply pushed_of_at_path_other; [done|]. congruence.
Qed.

Lemma status_update_frame_witness :
  ∃ key opp opp',
    collection (submit empty_store "hub" (plain_submission "Demo day" "id-1" "2024-05-01")).2
      "hub" !! key = Some opp
    ∧ opp_id opp = "id-1"
    ∧ opp_status opp' = "closed"
    ∧ opp_title opp' = opp_title opp.
Proof.
  destruct (status_update_frame
              (submit empty_store "hub" (plain_submission "Demo day" "id-1" "2024-05-01")).2
              "hub" "id-1" "closed" _ eq_refl)
    as (key & opp & opp' & H1 & H2 & _ & H4 & _ & H6 & _).
  exists key, opp, opp'. repeat split; assumption.
Defined.

(** *** Communities and paths *)

Lemma slice_to_elem {A} (n : Z) (l : list A) x : x ∈ Py.slice_to n l → x ∈ l.
Proof. unfold Py.slice_to. destruct (0 <=? n)%Z; apply subseteq_take. Qed.

(** Every match that [match_opportunities] returns holds an opportunity
    that [get_opportunities] returns for the community. *)
Lemma match_opportunities_listed ratio σ username c top_k m :
  m ∈ match_opportunities ratio σ username c top_k →
  stored (opportunity m) ∈ get_opportunities σ c "active" 50.
Proof.
  unfold match_opportunities. cbv zeta.
  destruct (Py.truthy (records (get_opportunities σ c "active" 50))); simpl;
    [|by intros ?%elem_of_nil].
  intros H%slice_to_elem. rewrite stable_sort_elem in H.
  apply list_elem_of_fmap in H as (opp & -> & Hopp). simpl.
  by apply elem_of_records.
Qed.

(** C9, as the specification states it, fails for names that are paths.
    The name ["hub/x"] leads to a node below the node of ["hub"]: an
    opportunity created under it is returned, within the content of that
    node, by the listing of all opportunities of ["hub"].  The name
    ["hub/"] leads to the node of ["hub"] itself: an opportunity created
    under it is listed and ranked for ["hub"]. *)
Lemma nested_community_is_listed :
  let s := plain_submission "Demo day" "id-1" "2024-05-01" in
  "hub/x" ≠ "hub"
  ∧ get_opportunities (submit empty_store "hub/x" s).2 "hub" "all" 50
    = [nested (node [submitted s] ∅)]
  ∧ "hub/" ≠ "hub"
  ∧ get_opportunities (submit empty_store "hub/" s).2 "hub" "active" 50
    = [stored (submitted s)]
  ∧ map opportunity
      (match_opportunities (λ _ _, 1%Q) (submit empty_store "hub/" s).2
         "ana" "hub" 5)
    = [submitted s].
Proof.
  intros s. split; [discriminate|]. split; [by vm_compute|].
  split; [discriminate|]. split; by vm_compute.
Qed.

Lemma add_opportunity_apart σ uuid4 now a b title description category
    tags requirements deadline posted_by metadata :
  ¬ lies_under a b →
  let σ' := (add_opportunity σ uuid4 now a title description category
               tags requirements deadline posted_by metadata).2 in
  (∀ path, segments b = Some path →
           node_at path (opportunities σ') = node_at path (opportunities σ))
  ∧ reachable σ' = reachable σ
  ∧ user_profiles σ' = user_profiles σ
  ∧ user_activity σ' = user_activity σ.
Proof.
  intros Hab. unfold add_opportunity. cbv zeta.
  destruct (reachable σ) eqn:Hr; [|done].
  destruct (segments a) as [path_a|] eqn:Ha; [|done].
  cbn [snd with_collection opportunities reachable user_profiles user_activity].
  split; [|done]. intros path_b Hb.
  apply node_at_at_path_apart; [done|].
  intros Hpre. apply Hab. by exists path_a, path_b.
Qed.

(** Two names that are single segments lead to nodes of which none is
    below the other. *)
Lemma segments_apart a b :
  segments a = Some [a] → segments b = Some [b] → a ≠ b → ¬ lies_under a b.
Proof.
  intros Ha Hb Hab (path_a & path_b & Ha' & Hb' & Hpre). simplify_eq.
  by apply prefix_cons_inv_1 in Hpre.
Qed.

(** C9, amended.  An opportunity added under community [a] leaves every
    listing and every ranking of a community [b] as it was, for every
    status filter, unless the name of [a] leads to the node of [b] or to a
    node below it; and then, as its id is new to [b], no opportunity with
    that id appears in a listing or a ranking of [b].  Two different names
    that are single segments are such communities. *)
Theorem community_isolation σ uuid4 now a b title description category
    tags requirements deadline posted_by metadata :
  (segments a = Some [a] → segments b = Some [b] → a ≠ b → ¬ lies_under a b)
  ∧ (¬ lies_under a b →
     let σ' := (add_opportunity σ uuid4 now a title description category
                  tags requirements deadline posted_by metadata).2 in
     (∀ status limit,
        get_opportunities σ' b status limit = get_opportunities σ b status limit)
     ∧ (∀ ratio username top_k,
          match_opportunities ratio σ' username b top_k
          = match_opportunities ratio σ username b top_k)
     ∧ ((∀ opp, opp ∈ collection σ b → opp_id opp ≠ uuid4) →
        (∀ status limit opp,
           stored opp ∈ get_opportunities σ' b status limit → opp_id opp ≠ uuid4)
        ∧ (∀ ratio username top_k m,
             m ∈ match_opportunities ratio σ' username b top_k →
             opp_id (opportunity m) ≠ uuid4))).
Proof.
  split; [apply segments_apart|].
  intros Hab σ'.
  destruct (add_opportunity_apart σ uuid4 now a b title description category
              tags requirements deadline posted_by metadata Hab)
    as (Hn & Hr & Hp & Ha).
  fold σ' in Hn, Hr, Hp, Ha.
  assert (∀ status limit,
            get_opportunities σ' b status limit = get_opportunities σ b status limit)
    as Hlist.
  { intros status limit. unfold get_opportunities. rewrite Hr.
    destruct (segments b) as [path|]; [|done]. by rewrite (Hn path). }
  assert (∀ ratio username top_k,
            match_opportunities ratio σ' username b top_k
            = match_opportunities ratio σ username b top_k) as Hrank.
  { intros ratio username top_k. unfold match_opportunities, get_user_profile,
      activity_log. by rewrite Hlist, Hr, Hp, Ha. }
  split; [done|]. split; [done|].
  intros Hfresh. split.
  - intros status limit opp Hin. rewrite Hlist in Hin.
    by eapply Hfresh, get_opportunities_stored.
  - intros ratio username top_k m Hin. rewrite Hrank in Hin.
    by eapply Hfresh, get_opportunities_stored, match_opportunities_listed.
Qed.

Lemma community_isolation_witness :
  "hub" ≠ "lab"
  ∧ get_opportunities
      (add_opportunity empty_store "id-1" "2024-05-01" "hub" "Demo day" "" "event"
         None None None None None).2 "lab" "all" 50
    = get_opportunities empty_store "lab" "all" 50.
Proof.
  assert ("hub" ≠ "lab") as H by discriminate.
  split; [exact H|].
  pose proof (community_isolation empty_store "id-1" "2024-05-01" "hub" "lab"
                "Demo day" "" "event" None None None None None) as [Hapart Hsame].
  exact (proj1 (Hsame (Hapart eq_refl eq_refl H)) "all" 50).
Defined.

(** *** [update_user_profile] *)

(** C4, as the specification states it, fails: the tag [" AI "] is stored
    as it is, neither lower-cased nor trimmed. *)
Lemma tag_stored_as_given :
  let result :=
    update_user_profile empty_store "2024-05-01" "ana" None None None
      (Some [" AI "]) None in
  result.1 = true
  ∧ tags <$> (user_profiles result.2 !! "ana") = Some [" AI "]
  ∧ map lower_and_trim [" AI "] = ["ai"]
  ∧ tags <$> (user_profiles result.2 !! "ana") ≠ Some (map lower_and_trim [" AI "]).
Proof. by vm_compute. Qed.

(** C4, amended.  When the write of [update_user_profile] succeeds, the
    tags stored in the user's profile are the tags passed to the call,
    unchanged (the empty list when none is passed); they are lower-cased
    and trimmed when the caller passes them so. *)
Theorem profile_tags_stored σ now user new_skills new_interests new_bio
    new_tags new_metadata :
  (update_user_profile σ now user new_skills new_interests new_bio
     new_tags new_metadata).1 = true →
  let σ' := (update_user_profile σ now user new_skills new_interests new_bio
               new_tags new_metadata).2 in
  tags <$> (user_profiles σ' !! user) = Some (default [] new_tags)
  ∧ (map lower_and_trim (default [] new_tags) = default [] new_tags →
     tags <$> (user_profiles σ' !! user)
     = Some (map lower_and_trim (default [] new_tags))).
Proof.
  unfold update_user_profile. cbv zeta.
  destruct (reachable σ); simpl; [|done]. intros _.
  rewrite lookup_insert_eq. simpl. split; [done|]. by intros ->.
Qed.

Lemma profile_tags_stored_witness :
  let result :=
    update_user_profile empty_store "2024-05-01" "ana" None None None
      (Some ["ai"; "python"]) None in
  result.1 = true
  ∧ tags <$> (user_profiles result.2 !! "ana") = Some ["ai"; "python"].
Proof.
  intros result.
  assert (result.1 = true) as H by reflexivity.
  split; [exact H|].
  exact (proj1 (profile_tags_stored empty_store "2024-05-01" "ana" None None None
                  (Some ["ai"; "python"]) None H)).
Defined.

End Lifecycle.

(** ** Ranges of the two scorers *)

Module ScoreBounds.

(** C1, as the specification states it, fails before the jitter.  Two
    skills of the user that both match the single skill of a template give
    a skills component of 50 against a [max_score] of 25, and a score of
    200 before the jitter; and a tag entered three times is counted three
    times, which gives a tag component of 150, above its weight of 50, and
    a score of 300 before the jitter. *)
Lemma score_before_jitter_exceeds_100 :
  ((Personalized.accumulate Personalized.two_skills_profile
      Personalized.one_skill_template).1 == 50)%Q
  ∧ (Personalized.accumulate Personalized.two_skills_profile
       Personalized.one_skill_template).2 = 25%Z
  ∧ Personalized.pre_jitter_score Personalized.two_skills_profile
      Personalized.one_skill_template = 200%Z
  ∧ (Personalized.tag_contribution
       (map (λ t, Py.strip (Py.lower t)) (tags Personalized.duplicate_tags_profile))
       (Personalized.t_tags Personalized.single_tag_template) == 150)%Q
  ∧ Personalized.pre_jitter_score Personalized.duplicate_tags_profile
      Personalized.single_tag_template = 300%Z.
Proof. by vm_compute. Qed.

(** C1, amended.  The score of the dynamic catalog is at most 1, and it
    is not negative as the similarity ratios are not.  The tag-weighted
    scorer returns an integer between 0 and 100 once the jitter is added
    and the sum clamped; before the jitter its score is an integer that is
    not negative, and it is at most 100 when no tag of the user,
    lower-cased and trimmed, occurs twice and the user has no more skills
    and no more interests than the opportunity.  The tag component does not
    exceed its weight of 50 when no tag of the user, lower-cased and
    trimmed, occurs twice. *)
Theorem score_ranges ratio opp p activity template rng :
  (Matcher.calculate_match_score ratio opp p activity <= 1)%Q
  ∧ ((∀ a b, 0 <= ratio a b)%Q →
     (0 <= Matcher.calculate_match_score ratio opp p activity)%Q)
  ∧ (0 ≤ (Personalized.calculate_match_score p template rng).1 ≤ 100)%Z
  ∧ (0 ≤ Personalized.pre_jitter_score p template)%Z
  ∧ (NoDup (map (λ t, Py.strip (Py.lower t)) (tags p)) →
     length (skills p) ≤ length (Personalized.t_skills template) →
     length (interests p) ≤ length (Personalized.t_interests template) →
     (Personalized.pre_jitter_score p template ≤ 100)%Z)
  ∧ (NoDup (map (λ t, Py.strip (Py.lower t)) (tags p)) →
     (Personalized.tag_contribution
        (map (λ t, Py.strip (Py.lower t)) (tags p))
        (Personalized.t_tags template) <= 50)%Q).
Proof.
  split; [apply ProfileScorer.profile_score_le_1|].
  split; [apply ProfileScorer.profile_score_nonneg|].
  split; [apply TagScorer.tag_score_range|].
  split; [apply TagScorer.pre_jitter_score_nonneg|].
  split; [apply TagScorer.pre_jitter_score_le_100|].
  apply TagScorer.tag_contribution_le.
Qed.

Lemma score_ranges_witness :
  (0 <= Matcher.calculate_match_score (λ _ _, 1%Q)
          Matcher.scenario1_opportunity Matcher.scenario1_profile [])%Q
  ∧ (Personalized.pre_jitter_score Personalized.react_profile
       Personalized.react_template ≤ 100)%Z
  ∧ (Personalized.tag_contribution
       (map (λ t, Py.strip (Py.lower t)) (tags Personalized.scenario2_profile))
       (Personalized.t_tags Personalized.scenario2_template) <= 50)%Q.
Proof.
  destruct (score_ranges (λ _ _, 1%Q) Matcher.scenario1_opportunity
              Matcher.scenario1_profile [] Personalized.scenario2_template
              Personalized.steady_rng) as (_ & Hnonneg & _).
  destruct (score_ranges (λ _ _, 1%Q) Matcher.scenario1_opportunity
              Personalized.react_profile [] Personalized.react_template
              Personalized.steady_rng) as (_ & _ & _ & _ & Hle & _).
  destruct (score_ranges (λ _ _, 1%Q) Matcher.scenario1_opportunity
              Personalized.scenario2_profile [] Personalized.scenario2_template
              Personalized.steady_rng) as (_ & _ & _ & _ & _ & Htag).
  split; [|split].
  - apply Hnonneg. intros _ _. discriminate.
  - apply Hle.
    + apply (bool_decide_unpack _). vm_compute. exact I.
    + vm_compute. lia.
    + vm_compute. lia.
  - apply Htag. apply (bool_decide_unpack _). vm_compute. exact I.
Defined.

End ScoreBounds.

(** ** The ranking over the static catalog: what every result satisfies *)

Module CatalogRanking.
Import Personalized.

Lemma StronglySorted_take {A} (R : A → A → Prop) n (l : list A) :
  StronglySorted R l → StronglySorted R (take n l).
Proof.
  intros Hl. revert n. induction Hl as [|x l Hl IH Hx]; intros [|n]; simpl;
    try constructor; [apply IH|by apply Forall_take].
Qed.

Lemma StronglySorted_slice_to {A} (R : A → A → Prop) n (l : list A) :
  StronglySorted R l → StronglySorted R (Py.slice_to n l).
Proof. unfold Py.slice_to. destruct (0 <=? n)%Z; apply StronglySorted_take. Qed.

Lemma slice_to_sublist {A} (n : Z) (l : list A) : Py.slice_to n l `sublist_of` l.
Proof. unfold Py.slice_to. destruct (0 <=? n)%Z; apply sublist_take. Qed.

Lemma slice_to_length {A} (n : Z) (l : list A) :
  (0 ≤ n)%Z → length (Py.slice_to n l) ≤ Z.to_nat n.
Proof.
  intros Hn. unfold Py.slice_to. destruct (Z.leb_spec 0 n); [|lia].
  rewrite length_take. lia.
Qed.

Lemma filter_sublist {A} (p : A → bool) (l : list A) : List.filter p l `sublist_of` l.
Proof.
  induction l as [|x l IH]; simpl; [constructor|].
  destruct (p x); by constructor.
Qed.

Lemma filter_keeps_all {A} (p : A → bool) (l : list A) :
  Forall (λ x, p x = true) l → List.filter p l = l.
Proof. induction 1 as [|x l Hx _ IH]; simpl; [done|]. by rewrite Hx, IH. Qed.

Lemma count_if_perm {A} (p : A → bool) (l k : list A) :
  l ≡ₚ k → Py.count_if p l = Py.count_if p k.
Proof.
  unfold Py.count_if. induction 1 as [|x l k _ IH|x y l|l k m _ IH1 _ IH2]; simpl.
  - done.
  - destruct (p x); simpl; by rewrite IH.
  - by destruct (p x), (p y).
  - by rewrite IH1.
Qed.

Lemma count_if_disjoint {A} (p q : A → bool) (l : list A) :
  (∀ x, p x = true → q x = false) →
  Py.count_if p l + Py.count_if q l ≤ length l.
Proof.
  intros Hpq. unfold Py.count_if. induction l as [|x l IH]; simpl; [done|].
  destruct (p x) eqn:Hp; [rewrite (Hpq x Hp)|destruct (q x)]; simpl; lia.
Qed.

(** *** The scored catalog *)

Lemma s_urgency_days_scored_entry date_after opp score :
  s_urgency_days (scored_entry date_after opp score) = urgency_days opp.
Proof.
  unfold scored_entry. by destruct (get_urgency_text date_after (urgency_days opp)).
Qed.

(** Scoring the catalog gives one entry per template, in the order of the
    catalog, each with a score between 0 and 100, and takes one draw of the
    generator per template. *)
Lemma score_catalog_spec date_after p catalog rng :
  Forall2 (λ x opp, x = scored_entry date_after opp (s_match x)
                    ∧ (0 ≤ s_match x ≤ 100)%Z)
    (score_catalog date_after p catalog rng).1 catalog
  ∧ Random.cursor (score_catalog date_after p catalog rng).2
    = Random.cursor rng + length catalog
  ∧ Random.entropy (score_catalog date_after p catalog rng).2 = Random.entropy rng.
Proof.
  revert rng. induction catalog as [|opp rest IH]; intros rng;
    cbn [score_catalog]; [simpl; split; [constructor|split; [lia|done]]|].
  pose proof (TagScorer.tag_score_range p opp rng) as Hrange.
  assert (Random.cursor (calculate_match_score p opp rng).2 = S (Random.cursor rng)
          ∧ Random.entropy (calculate_match_score p opp rng).2 = Random.entropy rng)
    as [Hcur Hent] by done.
  destruct (calculate_match_score p opp rng) as [score rng1]. simpl in *.
  destruct (IH rng1) as (Hall & Hcursor & Hentropy).
  destruct (score_catalog date_after p rest rng1) as [scored rng2]. simpl in *.
  split; [|split; [lia|congruence]].
  constructor; [|done]. by rewrite Ranking.s_match_scored_entry.
Qed.

Lemma score_catalog_length date_after p catalog rng :
  length (score_catalog date_after p catalog rng).1 = length catalog.
Proof. destruct (score_catalog_spec date_after p catalog rng) as [H _].
       by apply Forall2_length in H. Qed.

Lemma score_catalog_entries date_after p catalog rng x :
  x ∈ (score_catalog date_after p catalog rng).1 →
  (∃ opp, opp ∈ catalog ∧ x = scored_entry date_after opp (s_match x))
  ∧ (0 ≤ s_match x ≤ 100)%Z.
Proof.
  destruct (score_catalog_spec date_after p catalog rng) as [H _].
  intros Hx. apply list_elem_of_lookup in Hx as [i Hi].
  destruct (Forall2_lookup_l _ _ _ _ _ H Hi) as (opp & Hopp & Heq & Hrange).
  split; [|done]. exists opp. split; [|done]. by eapply list_elem_of_lookup_2.
Qed.

(** The list the code returns is a sublist of the ranked list of the whole
    scored catalog. *)
Lemma result_elem date_after catalog p top_n min_score rng x :
  x ∈ (get_personalized_opportunities_in date_after catalog p top_n min_score rng).1 →
  x ∈ (score_catalog date_after p catalog rng).1 ∧ reaches min_score x = true.
Proof.
  rewrite Ranking.get_personalized_opportunities_in_eq. simpl.
  intros Hx. apply Lifecycle.slice_to_elem in Hx.
  rewrite stable_sort_elem in Hx.
  apply list_elem_of_In, filter_In in Hx as [Hx Hr]. split; [|done].
  by apply list_elem_of_In.
Qed.

(** *** What [get_personalized_opportunities] returns *)

Lemma result_bounds_in date_after catalog p top_n min_score rng :
  let result :=
    get_personalized_opportunities_in date_after catalog p top_n min_score rng in
  Forall (λ x, (min_score <= inject_Z (s_match x))%Q ∧ (0 ≤ s_match x ≤ 100)%Z) result.1
  ∧ ((0 ≤ top_n)%Z → length result.1 ≤ Z.to_nat top_n)
  ∧ length result.1 ≤ length catalog
  ∧ Random.cursor result.2 = Random.cursor rng + length catalog.
Proof.
  intros result. unfold result. split; [|split; [|split]].
  - apply Forall_forall. intros x Hx.
    apply result_elem in Hx as [Hx Hr].
    apply score_catalog_entries in Hx as [_ Hrange].
    split; [|done]. by apply Qle_bool_iff.
  - intros Hn. rewrite Ranking.get_personalized_opportunities_in_eq.
    cbn [fst snd]. by apply slice_to_length.
  - rewrite Ranking.get_personalized_opportunities_in_eq. cbn [fst snd].
    etrans; [apply sublist_length, slice_to_sublist|].
    rewrite stable_sort_length.
    etrans; [apply sublist_length, filter_sublist|].
    by rewrite score_catalog_length.
  - rewrite Ranking.get_personalized_opportunities_in_eq. cbn [fst snd].
    apply score_catalog_spec.
Qed.

(** X1. Every entry that [get_personalized_opportunities] returns has a
    score that reaches [min_score] and lies between 0 and 100; for a
    [top_n] that is not negative there are at most [top_n] entries, and
    never more than the catalog has; every call draws one random number
    per catalog entry, whatever the threshold and [top_n]. *)
Theorem personalized_result_bounds date_after p top_n min_score rng :
  let result := get_personalized_opportunities date_after p top_n min_score rng in
  Forall (λ x, (min_score <= inject_Z (s_match x))%Q ∧ (0 ≤ s_match x ≤ 100)%Z) result.1
  ∧ ((0 ≤ top_n)%Z → length result.1 ≤ Z.to_nat top_n)
  ∧ length result.1 ≤ length OPPORTUNITY_DATABASE
  ∧ Random.cursor result.2 = Random.cursor rng + length OPPORTUNITY_DATABASE.
Proof.
  exact (result_bounds_in date_after OPPORTUNITY_DATABASE p top_n min_score rng).
Qed.

Lemma personalized_result_bounds_witness :
  length (get_personalized_opportunities no_dates python_profile 5 1 steady_rng).1
  ≤ Z.to_nat 5.
Proof.
  apply (personalized_result_bounds no_dates python_profile 5 1 steady_rng). lia.
Defined.

Lemma in_order_ranked x y : Py.in_order key_lt x y → ranked_before x y.
Proof.
  unfold Py.in_order, key_lt, ranked_before. intros H.
  destruct (Z.ltb_spec (- s_match y) (- s_match x)); [done|].
  destruct (Z.eqb_spec (- s_match y) (- s_match x)); simpl in H.
  - destruct (Z.ltb_spec (s_urgency_days y) (s_urgency_days x)); [done|].
    right. lia.
  - left. lia.
Qed.

Lemma result_ranked_in date_after catalog p top_n min_score rng :
  StronglySorted ranked_before
    (get_personalized_opportunities_in date_after catalog p top_n min_score rng).1.
Proof.
  rewrite Ranking.get_personalized_opportunities_in_eq. cbn [fst snd].
  apply StronglySorted_slice_to.
  eapply Lifecycle.StronglySorted_weaken; [apply in_order_ranked|].
  apply stable_sort_sorted;
    [apply Ranking.key_lt_asym|apply Ranking.key_in_order_trans].
Qed.

(** X2. The list that [get_personalized_opportunities] returns is ranked:
    of two entries, the one in front has the higher score or, at equal
    score, no more [urgency_days] than the other. *)
Theorem personalized_result_ranked date_after p top_n min_score rng :
  StronglySorted ranked_before
    (get_personalized_opportunities date_after p top_n min_score rng).1.
Proof.
  exact (result_ranked_in date_after OPPORTUNITY_DATABASE p top_n min_score rng).
Qed.

Lemma result_from_catalog_in date_after catalog p top_n min_score rng x :
  x ∈ (get_personalized_opportunities_in date_after catalog p top_n min_score rng).1 →
  ∃ opp, opp ∈ catalog
    ∧ s_title x = t_title opp
    ∧ s_type x = t_type opp
    ∧ s_category x = t_category opp
    ∧ s_description x = t_description opp
    ∧ s_company x = t_company opp
    ∧ s_urgency_days x = urgency_days opp
    ∧ (s_urgency x, s_urgency_icon x) = get_urgency_text date_after (urgency_days opp).
Proof.
  intros Hx. apply result_elem in Hx as [Hx _].
  apply score_catalog_entries in Hx as [(opp & Hopp & Heq) _].
  exists opp. split; [done|]. rewrite Heq. unfold scored_entry.
  by destruct (get_urgency_text date_after (urgency_days opp)).
Qed.

(** X3. Every entry that [get_personalized_opportunities] returns is built
    from an entry of [OPPORTUNITY_DATABASE]: it carries the title, type,
    category, description, company and [urgency_days] of that entry, and
    the urgency text and icon that [get_urgency_text] gives for its
    [urgency_days]. *)
Theorem personalized_result_from_catalog date_after p top_n min_score rng x :
  x ∈ (get_personalized_opportunities date_after p top_n min_score rng).1 →
  ∃ opp, opp ∈ OPPORTUNITY_DATABASE
    ∧ s_title x = t_title opp
    ∧ s_type x = t_type opp
    ∧ s_category x = t_category opp
    ∧ s_description x = t_description opp
    ∧ s_company x = t_company opp
    ∧ s_urgency_days x = urgency_days opp
    ∧ (s_urgency x, s_urgency_icon x) = get_urgency_text date_after (urgency_days opp).
Proof.
  exact (result_from_catalog_in date_after OPPORTUNITY_DATABASE p top_n min_score rng x).
Qed.

Lemma personalized_result_from_catalog_witness :
  ∃ opp, opp ∈ OPPORTUNITY_DATABASE ∧ t_title opp = "Python Backend Developer".
Proof.
  destruct (personalized_result_from_catalog no_dates python_profile 1 1 steady_rng
              (scored_entry no_dates
                 (Build_Template "Python Backend Developer" "Job" "Tech"
                    ["Python"; "Django"; "Flask"; "PostgreSQL"]
                    ["Technology"; "Backend"]
                    ["python"; "django"; "flask"; "backend"; "api"; "postgresql"]
                    "Robust Python applications" "PythonWorks" 8) 9))
    as (opp & Hopp & Htitle & _).
  - vm_compute. apply list_elem_of_here.
  - exists opp. split; [exact Hopp|]. symmetry. exact Htitle.
Defined.

(** *** [get_opportunity_stats] *)

Lemma all_opps_perm date_after catalog p rng :
  length catalog ≤ 200 →
  (get_personalized_opportunities_in date_after catalog p 200 0 rng).1
  ≡ₚ (score_catalog date_after p catalog rng).1.
Proof.
  intros Hlen. rewrite Ranking.get_personalized_opportunities_in_eq. cbn [fst].
  pose proof (score_catalog_length date_after p catalog rng) as Hlength.
  set (everything := (score_catalog date_after p catalog rng).1) in *.
  assert (List.filter (reaches 0) everything = everything) as ->.
  { apply filter_keeps_all, Forall_forall. intros x Hx.
    apply score_catalog_entries in Hx as [_ Hrange].
    apply Qle_bool_iff. rewrite <- (Zle_Qle 0). lia. }
  unfold Py.slice_to. cbn [Z.leb Z.compare Z.to_nat].
  rewrite take_ge; [apply stable_sort_perm|].
  rewrite stable_sort_length, Hlength. etrans; [exact Hlen|]. by vm_compute.
Qed.

Lemma urgent_count date_after (l : list Scored) (catalog : list Template) :
  Forall2 (λ x opp, x = scored_entry date_after opp (s_match x)
                    ∧ (0 ≤ s_match x ≤ 100)%Z) l catalog →
  Py.count_if (λ o, (s_urgency_days o <=? 7)%Z) l
  = Py.count_if (λ opp, (urgency_days opp <=? 7)%Z) catalog.
Proof.
  unfold Py.count_if.
  induction 1 as [|x opp l k [Hx _] _ IH]; [done|].
  cbn [List.filter]. rewrite Hx at 1. rewrite s_urgency_days_scored_entry.
  destruct (urgency_days opp <=? 7)%Z; cbn [length]; by rewrite IH.
Qed.

Lemma stats_in date_after catalog p rng :
  length catalog ≤ 200 →
  total (get_opportunity_stats_in date_after catalog p rng).1 = length catalog
  ∧ urgent (get_opportunity_stats_in date_after catalog p rng).1
    = Py.count_if (λ opp, (urgency_days opp <=? 7)%Z) catalog
  ∧ high_match (get_opportunity_stats_in date_after catalog p rng).1
    + medium_match (get_opportunity_stats_in date_after catalog p rng).1
    ≤ total (get_opportunity_stats_in date_after catalog p rng).1.
Proof.
  intros Hlen.
  pose proof (all_opps_perm date_after catalog p rng Hlen) as Hperm.
  unfold get_opportunity_stats_in.
  destruct (get_personalized_opportunities_in date_after catalog p 200 0 rng)
    as [all_opps rng'].
  cbn [fst] in Hperm. cbn [fst stats_of total urgent high_match medium_match].
  split; [|split].
  - rewrite Hperm. apply score_catalog_length.
  - rewrite (count_if_perm _ _ _ Hperm).
    apply (urgent_count date_after), score_catalog_spec.
  - apply count_if_disjoint. intros x Hx.
    apply Z.leb_le in Hx. apply andb_false_intro2. apply Z.ltb_ge. lia.
Qed.

(** X4. Whatever the profile and the random draws, [get_opportunity_stats]
    reports a total of 58, the size of the catalog, and 11 urgent
    opportunities, the catalog entries with at most 7 [urgency_days]: the
    two figures do not depend on the user.  The high and the medium
    matches together never exceed the total. *)
Theorem opportunity_stats_totals date_after p rng :
  total (get_opportunity_stats date_after p rng).1 = 58
  ∧ urgent (get_opportunity_stats date_after p rng).1 = 11
  ∧ high_match (get_opportunity_stats date_after p rng).1
    + medium_match (get_opportunity_stats date_after p rng).1
    ≤ total (get_opportunity_stats date_after p rng).1.
Proof.
  assert (length OPPORTUNITY_DATABASE ≤ 200) as Hlen by (vm_compute; lia).
  destruct (stats_in date_after OPPORTUNITY_DATABASE p rng Hlen) as (H1 & H2 & H3).
  split; [|split].
  - etrans; [exact H1|]. by vm_compute.
  - etrans; [exact H2|]. by vm_compute.
  - exact H3.
Qed.

(** *** A profile with nothing in it *)

Lemma score_catalog_scores (P : Z → Prop) date_after p catalog rng :
  (∀ opp rng', P (calculate_match_score p opp rng').1) →
  Forall (λ x, P (s_match x)) (score_catalog date_after p catalog rng).1.
Proof.
  intros HP. revert rng. induction catalog as [|opp rest IH]; intros rng;
    cbn [score_catalog]; [constructor|].
  pose proof (HP opp rng) as Hscore.
  destruct (calculate_match_score p opp rng) as [score rng1].
  pose proof (IH rng1) as Hrest.
  destruct (score_catalog date_after p rest rng1) as [scored rng2]. simpl in *.
  constructor; [|done]. by rewrite Ranking.s_match_scored_entry.
Qed.

Lemma empty_profile_score p opp rng :
  skills p = [] → interests p = [] → tags p = [] → bio p = "" →
  pre_jitter_score p opp = 0%Z
  ∧ (0 ≤ (calculate_match_score p opp rng).1 ≤ 3)%Z.
Proof.
  intros Hs Hi Ht Hb.
  assert (pre_jitter_score p opp = 0%Z) as Hpre.
  { unfold pre_jitter_score, accumulate. rewrite Hs, Hi, Ht, Hb. simpl.
    rewrite andb_false_r.
    destruct (Py.truthy (t_skills opp)), (Py.truthy (t_interests opp)); simpl;
      done. }
  split; [done|]. unfold calculate_match_score. rewrite Hpre.
  pose proof (TagScorer.randint_range (-3) 3 rng) as H.
  destruct (Random.randint (-3) 3 rng) as [jitter rng']. simpl in *. lia.
Qed.

Lemma empty_profile_nothing_in date_after catalog p top_n min_score rng :
  skills p = [] → interests p = [] → tags p = [] → bio p = "" →
  (3 < min_score)%Q →
  (get_personalized_opportunities_in date_after catalog p top_n min_score rng).1
  = [].
Proof.
  intros Hs Hi Ht Hb Hmin.
  destruct (get_personalized_opportunities_in date_after catalog p top_n
              min_score rng).1 as [|x l] eqn:Hres; [done|].
  assert (x ∈ (get_personalized_opportunities_in date_after catalog p top_n
                 min_score rng).1)
    as Hx by (rewrite Hres; apply list_elem_of_here).
  apply result_elem in Hx as [Hx Hr].
  pose proof (score_catalog_scores (λ z, (z ≤ 3)%Z) date_after p catalog rng)
    as Hall.
  rewrite Forall_forall in Hall.
  specialize (Hall (λ o r, proj2 (proj2 (empty_profile_score p o r Hs Hi Ht Hb)))
                   x Hx).
  apply Qle_bool_iff in Hr. cbv beta in Hall.
  apply (Qlt_le_trans _ _ _ Hmin) in Hr.
  rewrite <- (Zlt_Qlt 3) in Hr. lia.
Qed.

(** X5. For a profile without skills, interests and tags and with an empty
    bio, the score of every opportunity is 0 before the jitter, so the
    score returned is the jitter alone, between 0 and 3; with a threshold
    above 3, such as the default 30, [get_personalized_opportunities]
    returns nothing for that profile. *)
Theorem empty_profile_gets_nothing date_after p opp top_n min_score rng :
  skills p = [] → interests p = [] → tags p = [] → bio p = "" →
  pre_jitter_score p opp = 0%Z
  ∧ (0 ≤ (calculate_match_score p opp rng).1 ≤ 3)%Z
  ∧ ((3 < min_score)%Q →
     (get_personalized_opportunities date_after p top_n min_score rng).1 = []).
Proof.
  intros Hs Hi Ht Hb.
  destruct (empty_profile_score p opp rng Hs Hi Ht Hb) as [Hpre Hscore].
  split; [done|]. split; [done|]. intros Hmin.
  exact (empty_profile_nothing_in date_after OPPORTUNITY_DATABASE p top_n
           min_score rng Hs Hi Ht Hb Hmin).
Qed.

Lemma empty_profile_gets_nothing_witness :
  (get_personalized_opportunities no_dates blank_profile 5 30 steady_rng).1 = [].
Proof.
  refine (proj2 (proj2 (empty_profile_gets_nothing no_dates blank_profile
           single_tag_template 5 30 steady_rng eq_refl eq_refl eq_refl eq_refl))
           _).
  reflexivity.
Defined.

End CatalogRanking.

(** ** The store of opportunity_matcher.py: profiles, listings, rankings *)

Module StoreFacts.
Import Matcher.

(** *** Profiles *)

(** X6. A profile written by [update_user_profile] is what
    [get_user_profile] reads back: the fields passed, an empty list, an
    empty bio or an empty metadata for the ones left out, and the time of
    the write; nothing of the profile stored before remains.  The profiles
    of the other users, the opportunities and the activity log are
    untouched.  The user names are single path segments. *)
Theorem profile_round_trip σ now user new_skills new_interests new_bio
    new_tags new_metadata :
  reachable σ = true →
  one_segment user →
  let result := update_user_profile σ now user new_skills new_interests new_bio
                  new_tags new_metadata in
  result.1 = true
  ∧ get_user_profile result.2 user =
    Some {| username := user;
            skills := default [] new_skills;
            interests := default [] new_interests;
            tags := default [] new_tags;
            bio := default "" new_bio;
            metadata := default ∅ new_metadata;
            updated_at := now |}
  ∧ (∀ other, one_segment other → other ≠ user →
       get_user_profile result.2 other = get_user_profile σ other)
  ∧ opportunities result.2 = opportunities σ
  ∧ user_activity result.2 = user_activity σ.
Proof.
  intros Hr _. unfold update_user_profile, get_user_profile. cbv zeta.
  rewrite Hr. simpl. rewrite lookup_insert_eq.
  repeat split; try done. intros other _ Hother. by rewrite lookup_insert_ne.
Qed.

Lemma profile_round_trip_witness :
  bio <$> get_user_profile
            (update_user_profile empty_store "2024-05-01" "ana"
               (Some ["python"]) None None None None).2 "ana"
  = Some "".
Proof.
  destruct (profile_round_trip empty_store "2024-05-01" "ana"
              (Some ["python"]) None None None None eq_refl eq_refl) as (_ & H & _).
  rewrite H. reflexivity.
Defined.

(** *** When the database does not answer *)

(** X7. When the calls on the database raise, no function changes the
    database and each returns its default: [None] for [add_opportunity] and
    [get_user_profile], [False] for the two updates, the empty list for
    [get_opportunities], [match_opportunities] and
    [get_opportunity_recommendations]. *)
Theorem unreachable_defaults ratio σ uuid4 now community title description
    category tags requirements deadline posted_by metadata status limit
    opportunity_id user new_skills new_interests new_bio new_tags
    activity_type content top_k min_score :
  reachable σ = false →
  add_opportunity σ uuid4 now community title description category
    tags requirements deadline posted_by metadata = (None, σ)
  ∧ get_opportunities σ community status limit = []
  ∧ update_opportunity_status σ community opportunity_id status = (false, σ)
  ∧ update_user_profile σ now user new_skills new_interests new_bio new_tags
      metadata = (false, σ)
  ∧ get_user_profile σ user = None
  ∧ track_user_activity σ now user community activity_type content = σ
  ∧ match_opportunities ratio σ user community top_k = []
  ∧ get_opportunity_recommendations ratio σ user community min_score = [].
Proof.
  intros Hr.
  assert (get_opportunities σ community "active" 50 = []) as Hactive
    by (unfold get_opportunities; by rewrite Hr).
  unfold add_opportunity, get_opportunities, update_opportunity_status,
    update_user_profile, get_user_profile, track_user_activity,
    get_opportunity_recommendations, match_opportunities.
  cbv zeta. rewrite Hactive, Hr. done.
Qed.

Lemma unreachable_defaults_witness :
  match_opportunities (λ _ _, 1%Q)
    {| reachable := false; opportunities := empty_node; user_profiles := ∅;
       user_activity := ∅ |} "ana" "hub" 5 = [].
Proof.
  apply (unreachable_defaults (λ _ _, 1%Q)
           {| reachable := false; opportunities := empty_node; user_profiles := ∅;
              user_activity := ∅ |}
           "" "" "hub" "" "" "" None None None None None "" 0 "" "ana"
           None None None None "" "" 5 0).
  reflexivity.
Defined.

(** *** Listings *)

Lemma last_n_length {A} (n : nat) (l : list A) : length (Py.last_n n l) ≤ n.
Proof. unfold Py.last_n. rewrite length_drop. lia. Qed.

Lemma last_n_all {A} (n : nat) (l : list A) : length l ≤ n → Py.last_n n l = l.
Proof. intros H. unfold Py.last_n. by replace (length l - n) with 0 by lia. Qed.

Lemma filter_elem {A} (p : A → bool) (l : list A) x :
  x ∈ List.filter p l ↔ x ∈ l ∧ p x = true.
Proof. by rewrite !list_elem_of_In, filter_In. Qed.

(** A list of values whose [created_at] are strings is sorted without
    error. *)
Lemma sort_newest_first_strings (l : list Value) :
  Forall (λ v, created_at_of v ≠ None) l →
  sort_newest_first l = Some (Py.stable_sort newer l).
Proof.
  intros Hl. unfold sort_newest_first.
  assert (existsb (λ v, bool_decide (created_at_of v = None)) l = false) as ->.
  { induction Hl as [|v l Hv _ IH]; [done|]. simpl.
    by rewrite bool_decide_false, IH. }
  by rewrite andb_false_r.
Qed.

Lemma filter_status_strings status (l : list Value) :
  Forall (λ v, created_at_of v ≠ None)
    (List.filter (λ v, bool_decide (status_of v = Some status)) l).
Proof.
  apply Forall_forall. intros v [_ Hv]%filter_elem.
  apply bool_decide_eq_true in Hv. by destruct v.
Qed.

(** The listing for a status, spelled out for a database that answers: the
    children read, those with the status kept, sorted. *)
Lemma get_opportunities_filtered σ c path status limit :
  reachable σ = true →
  segments c = Some path →
  status ≠ "all" →
  get_opportunities σ c status limit =
  Py.stable_sort newer
    (List.filter (λ v, bool_decide (status_of v = Some status))
       (Py.last_n limit (children (node_at path (opportunities σ))))).
Proof.
  intros Hr Hpath Hall.
  rewrite Lifecycle.get_opportunities_eq, Hr, Hpath, bool_decide_true by done.
  by rewrite sort_newest_first_strings by apply filter_status_strings.
Qed.

Lemma get_opportunities_length σ community status limit :
  length (get_opportunities σ community status limit) ≤ limit.
Proof.
  rewrite Lifecycle.get_opportunities_eq.
  destruct (reachable σ); [|simpl; lia].
  destruct (segments community) as [path|]; [|simpl; lia].
  destruct (sort_newest_first _) as [sorted|] eqn:Hsort; [|simpl; lia].
  unfold sort_newest_first in Hsort. destruct (_ && _); [done|].
  injection Hsort as <-. simpl. rewrite stable_sort_length.
  case_bool_decide.
  - etrans; [apply sublist_length, CatalogRanking.filter_sublist|].
    apply last_n_length.
  - apply last_n_length.
Qed.



Lemma last_n_map {A B} (f : A → B) (n : nat) (l : list A) :
  Py.last_n n (map f l) = map f (Py.last_n n l).
Proof. unfold Py.last_n. by rewrite length_map, <- fmap_drop. Qed.

Lemma filter_status_stored status (l : list Opportunity) :
  List.filter (λ v, bool_decide (status_of v = Some status)) (map stored l)
  = map stored (List.filter (λ o, bool_decide (opp_status o = status)) l).
Proof.
  induction l as [|o l IH]; [done|]. cbn [map List.filter status_of].
  rewrite IH. do 2 case_bool_decide; try done; naive_solver.
Qed.

(** The children of the node of a community that has no community nested
    below it are its records. *)
Lemma children_of_plain σ community path :
  segments community = Some path →
  below_of (node_at path (opportunities σ)) = ∅ →
  children (node_at path (opportunities σ)) = map stored (collection σ community).
Proof.
  intros Hpath Hbelow. rewrite (Lifecycle.collection_path _ _ _ Hpath).
  rewrite <- (Lifecycle.node_eta (node_at path (opportunities σ))) at 1.
  rewrite Hbelow. apply Lifecycle.children_records_only.
Qed.

(** X9. The [limit] of [get_opportunities] bounds the records read, not
    the records returned: a listing holds at most [limit] values; for a
    community with no community nested below it, they are all among the
    last [limit] records of the community, and for a status the listing
    holds exactly those of them that have that status. *)
Theorem listing_reads_last_children σ community status limit :
  length (get_opportunities σ community status limit) ≤ limit
  ∧ (∀ path, segments community = Some path →
     below_of (node_at path (opportunities σ)) = ∅ →
     (∀ v, v ∈ get_opportunities σ community status limit →
           v ∈ map stored (Py.last_n limit (collection σ community)))
     ∧ (reachable σ = true → status ≠ "all" →
        get_opportunities σ community status limit
        ≡ₚ map stored
             (List.filter (λ o, bool_decide (opp_status o = status))
                (Py.last_n limit (collection σ community))))).
Proof.
  split; [apply get_opportunities_length|].
  intros path Hpath Hbelow.
  pose proof (children_of_plain σ community path Hpath Hbelow) as Hchildren.
  split.
  - intros v. rewrite Lifecycle.get_opportunities_eq, Hpath.
    destruct (reachable σ); [|by intros ?%elem_of_nil].
    destruct (sort_newest_first _) as [sorted|] eqn:Hsort; simpl;
      [|by intros ?%elem_of_nil].
    intros Hv. apply (Lifecycle.sort_newest_first_elem _ _ _ Hsort) in Hv.
    rewrite <- last_n_map, <- Hchildren. case_bool_decide; [|done].
    by apply filter_elem in Hv as [Hv _].
  - intros Hr Hall.
    rewrite (get_opportunities_filtered _ _ path) by done.
    rewrite Hchildren, last_n_map, filter_status_stored.
    apply stable_sort_perm.
Qed.

Lemma listing_reads_last_children_witness :
  get_opportunities
    (submit empty_store "hub" (plain_submission "Demo day" "id-1" "2024-05-01")).2
    "hub" "closed" 50
  ≡ₚ [].
Proof.
  destruct (listing_reads_last_children
              (submit empty_store "hub" (plain_submission "Demo day" "id-1" "2024-05-01")).2
              "hub" "closed" 50) as (_ & H).
  destruct (H ["hub"] eq_refl eq_refl) as [_ H'].
  rewrite (H' eq_refl ltac:(discriminate)). by vm_compute.
Defined.

(** *** Status changes *)

(** With ids that are unique in a collection, the first record with a given
    id is the only one. *)
Lemma find_unique_id (records : list Opportunity) opp :
  NoDup (map opp_id records) →
  opp ∈ records →
  ∃ key, list_find (λ o, opp_id o = opp_id opp) records = Some (key, opp)
         ∧ records !! key = Some opp.
Proof.
  intros Hids Hin. apply list_elem_of_lookup in Hin as [key Hkey].
  exists key. split; [|done]. apply list_find_Some.
  split; [done|]. split; [done|].
  intros j o Hj Hlt Hid.
  assert (j = key); [|lia].
  apply (NoDup_lookup (map opp_id records) j key (opp_id opp) Hids).
  - by rewrite list_lookup_fmap, Hj; simpl; rewrite Hid.
  - by rewrite list_lookup_fmap, Hkey.
Qed.

Lemma updated_records_with_id (records : list Opportunity) key opp status o :
  NoDup (map opp_id records) →
  records !! key = Some opp →
  o ∈ <[key := set_status status opp]> records →
  opp_id o = opp_id opp →
  o = set_status status opp.
Proof.
  intros Hids Hkey Hin Hid. apply list_elem_of_lookup in Hin as [j Hj].
  apply list_lookup_insert_Some in Hj as [(-> & <- & _)|[Hne Hj]]; [done|].
  exfalso. apply Hne. symmetry.
  apply (NoDup_lookup (map opp_id records) j key (opp_id opp) Hids).
  - by rewrite list_lookup_fmap, Hj; simpl; rewrite Hid.
  - by rewrite list_lookup_fmap, Hkey.
Qed.

(** X10. With ids unique in the community, once
    [update_opportunity_status] has set the status of an opportunity, the
    opportunity is listed under that status (the node of the community
    having no more than [limit] children) and under no other status filter
    than ["all"]; in particular [match_opportunities] never returns an
    opportunity whose status was set to something else than ["active"]. *)
Theorem status_decides_listing ratio σ community opp status limit :
  reachable σ = true →
  NoDup (map opp_id (collection σ community)) →
  opp ∈ collection σ community →
  let result := update_opportunity_status σ community (opp_id opp) status in
  result.1 = true
  ∧ (status ≠ "all" →
     (∀ path, segments community = Some path →
              length (children (node_at path (opportunities σ))) ≤ limit) →
     stored (set_status status opp)
     ∈ get_opportunities result.2 community status limit)
  ∧ (∀ other o, other ≠ "all" →
       stored o ∈ get_opportunities result.2 community other limit →
       opp_id o = opp_id opp → other = status)
  ∧ (status ≠ "active" →
     ∀ user top_k m, m ∈ match_opportunities ratio result.2 user community top_k →
                     opp_id (opportunity m) ≠ opp_id opp).
Proof.
  intros Hr Hids Hin result.
  destruct (Lifecycle.collection_segments _ _ _ Hin) as [path Hpath].
  destruct (find_unique_id _ opp Hids Hin) as (key & Hfind & Hkey).
  assert (result = (true, with_collection σ path
                            (<[key := set_status status opp]> (collection σ community))))
    as Hresult by (by apply Lifecycle.update_found).
  rewrite Hresult. simpl.
  set (σ' := with_collection σ path _).
  assert (collection σ' community
          = <[key := set_status status opp]> (collection σ community)) as Hc
    by by apply Lifecycle.collection_with_collection.
  assert (∀ lim other o, other ≠ "all" →
            stored o ∈ get_opportunities σ' community other lim →
            opp_id o = opp_id opp → other = status) as Hother.
  { intros lim other o Hall Ho Hid.
    pose proof (Lifecycle.get_opportunities_status σ' community other lim Hall)
      as Hstatus.
    rewrite Forall_forall in Hstatus.
    destruct (Hstatus _ Ho) as (o' & [= <-] & Hs).
    apply Lifecycle.get_opportunities_stored in Ho. rewrite Hc in Ho.
    rewrite (updated_records_with_id _ key opp status o Hids Hkey Ho Hid) in Hs.
    done. }
  split; [done|]. split; [|split; [by apply Hother|]].
  - intros Hall Hlimit. specialize (Hlimit path Hpath).
    rewrite (get_opportunities_filtered _ _ path) by done.
    rewrite stable_sort_elem. apply filter_elem.
    split; [|by apply bool_decide_eq_true].
    assert (stored (set_status status opp)
            ∈ children (node_at path (opportunities σ'))) as Hchild.
    { apply Lifecycle.elem_of_records.
      rewrite Lifecycle.records_children.
      rewrite <- (Lifecycle.collection_path _ _ _ Hpath), Hc.
      apply list_elem_of_lookup. exists key.
      apply list_lookup_insert_eq. by eapply lookup_lt_Some. }
    rewrite last_n_all; [done|].
    unfold σ', with_collection. cbn [opportunities].
    rewrite Lifecycle.node_at_at_path.
    etrans; [|exact Hlimit].
    unfold children. cbv zeta. cbn [pushed_of below_of].
    rewrite !length_app, !length_map, length_insert.
    by rewrite (Lifecycle.collection_path _ _ _ Hpath).
  - intros Hactive user top_k m Hm Hid.
    apply Lifecycle.match_opportunities_listed in Hm.
    apply Hactive. symmetry. by apply (Hother 50 "active" (opportunity m)).
Qed.

Lemma status_decides_listing_witness :
  stored (set_status "closed"
            (submitted (plain_submission "Demo day" "id-1" "2024-05-01")))
  ∈ get_opportunities
      (update_opportunity_status
         (submit empty_store "hub" (plain_submission "Demo day" "id-1" "2024-05-01")).2
         "hub" "id-1" "closed").2
      "hub" "closed" 50.
Proof.
  apply (status_decides_listing (λ _ _, 1%Q)
           (submit empty_store "hub" (plain_submission "Demo day" "id-1" "2024-05-01")).2
           "hub" (submitted (plain_submission "Demo day" "id-1" "2024-05-01"))
           "closed" 50).
  - reflexivity.
  - apply (bool_decide_unpack _). vm_compute. exact I.
  - vm_compute. apply list_elem_of_here.
  - discriminate.
  - intros path [= <-]. vm_compute. lia.
Defined.

(** X11. Setting the status of an opportunity and then setting it back to
    what it was restores the database exactly (ids unique in the
    community): closing and reopening is a round trip. *)
Theorem status_round_trip σ community opp status :
  reachable σ = true →
  NoDup (map opp_id (collection σ community)) →
  opp ∈ collection σ community →
  let changed := update_opportunity_status σ community (opp_id opp) status in
  changed.1 = true
  ∧ update_opportunity_status changed.2 community (opp_id opp) (opp_status opp)
    = (true, σ).
Proof.
  intros Hr Hids Hin changed.
  destruct (Lifecycle.collection_segments _ _ _ Hin) as [path Hpath].
  destruct (find_unique_id _ opp Hids Hin) as (key & Hfind & Hkey).
  assert (changed = (true, with_collection σ path
                             (<[key := set_status status opp]> (collection σ community))))
    as Hchanged by (by apply Lifecycle.update_found).
  rewrite Hchanged. simpl. split; [done|].
  set (records := <[key := set_status status opp]> (collection σ community)).
  assert (key < length (collection σ community)) as Hlt by by eapply lookup_lt_Some.
  rewrite (Lifecycle.update_found _ _ path _ _ key (set_status status opp)).
  - f_equal. rewrite (Lifecycle.collection_with_collection _ _ path) by done.
    unfold records. rewrite list_insert_insert_eq.
    replace (set_status (opp_status opp) (set_status status opp)) with opp
      by (by destruct opp).
    rewrite (list_insert_id _ key opp) by done.
    unfold with_collection. cbn [opportunities reachable user_profiles user_activity].
    rewrite (Lifecycle.collection_path _ _ _ Hpath) in *.
    assert (at_path (λ n, node (pushed_of (node_at path (opportunities σ))) (below_of n))
              path
              (at_path (λ n, node (<[key := set_status status opp]>
                                     (pushed_of (node_at path (opportunities σ))))
                               (below_of n)) path (opportunities σ))
            = opportunities σ) as ->; [|by destruct σ].
    rewrite Lifecycle.at_path_at_path.
    apply Lifecycle.at_path_unchanged.
    + intros Hempty. by rewrite Hempty in Hkey.
    + cbn [below_of]. apply Lifecycle.node_eta.
  - done.
  - done.
  - rewrite (Lifecycle.collection_with_collection _ _ path) by done.
    apply list_find_Some. split; [|split].
    + unfold records. by apply list_lookup_insert_eq.
    + done.
    + intros j o Hj Hjlt Hid. unfold records in Hj.
      rewrite list_lookup_insert_ne in Hj by lia.
      apply list_find_Some in Hfind as (_ & _ & Hfirst).
      by apply (Hfirst j o).
Qed.

Lemma status_round_trip_witness :
  update_opportunity_status
    (update_opportunity_status
       (submit empty_store "hub" (plain_submission "Demo day" "id-1" "2024-05-01")).2
       "hub" "id-1" "closed").2
    "hub" "id-1" "active"
  = (true, (submit empty_store "hub" (plain_submission "Demo day" "id-1" "2024-05-01")).2).
Proof.
  apply (status_round_trip
           (submit empty_store "hub" (plain_submission "Demo day" "id-1" "2024-05-01")).2
           "hub" (submitted (plain_submission "Demo day" "id-1" "2024-05-01")) "closed").
  - reflexivity.
  - apply (bool_decide_unpack _). vm_compute. exact I.
  - vm_compute. apply list_elem_of_here.
Defined.

End StoreFacts.

(** ** The ranking over the dynamic catalog *)

Module DynamicRanking.
Import Matcher.

(** *** Rounding *)

Lemma round3_nonneg (q : Q) : (0 <= q)%Q → (0 <= Py.round3 q)%Q.
Proof.
  intros H. unfold Py.round3.
  assert (0 ≤ Py.round_half_even (q * 1000))%Z as Hr
    by (apply Binary64Facts.round_half_even_lower; change (inject_Z 0) with 0%Q; lra).
  apply Qle_shift_div_l; [reflexivity|].
  rewrite (Zle_Qle 0) in Hr. change (inject_Z 0) with 0%Q in Hr. lra.
Qed.

Lemma round3_le_1 (q : Q) : (q <= 1)%Q → (Py.round3 q <= 1)%Q.
Proof.
  intros H. unfold Py.round3.
  assert (Py.round_half_even (q * 1000) ≤ 1000)%Z as Hr
    by (apply Binary64Facts.round_half_even_upper; change (inject_Z 1000) with 1000%Q; lra).
  apply Qle_shift_div_r; [reflexivity|].
  rewrite Zle_Qle in Hr. change (inject_Z 1000) with 1000%Q in Hr. lra.
Qed.

Lemma round3_zero (q : Q) : (q == 0)%Q → (Py.round3 q == 0)%Q.
Proof.
  intros H. unfold Py.round3.
  assert (Py.round_half_even (q * 1000) = 0)%Z as ->; [|reflexivity].
  assert (0 ≤ Py.round_half_even (q * 1000))%Z
    by (apply Binary64Facts.round_half_even_lower; change (inject_Z 0) with 0%Q; lra).
  assert (Py.round_half_even (q * 1000) ≤ 0)%Z
    by (apply Binary64Facts.round_half_even_upper; change (inject_Z 0) with 0%Q; lra).
  lia.
Qed.

(** *** The order of a ranking *)

Lemma better_asym x y : better x y = true → better y x = false.
Proof.
  unfold better. intros H. apply negb_true_iff in H. apply negb_false_iff.
  apply Qle_bool_iff.
  destruct (Qlt_le_dec (match_score y) (match_score x)) as [Hlt|Hle].
  - by apply Qlt_le_weak.
  - apply Qle_bool_iff in Hle. congruence.
Qed.

Lemma in_order_better x y : Py.in_order better x y ↔ scores_before x y.
Proof.
  unfold Py.in_order, better, scores_before.
  rewrite negb_false_iff. apply Qle_bool_iff.
Qed.

Lemma better_in_order_trans x y z :
  Py.in_order better x y → Py.in_order better y z → Py.in_order better x z.
Proof.
  rewrite !in_order_better. unfold scores_before. intros H1 H2.
  by apply Qle_trans with (match_score y).
Qed.

(** A list in which no element is strictly before another is left as it is
    by the sort. *)
Lemma stable_sort_flat {A} (lt : A → A → bool) (l : list A) :
  (∀ x y, x ∈ l → y ∈ l → lt x y = false) → Py.stable_sort lt l = l.
Proof.
  induction l as [|x l IH]; intros Hflat; simpl; [done|].
  rewrite IH.
  - destruct l as [|y l']; simpl; [done|].
    rewrite Hflat; [done|apply list_elem_of_further, list_elem_of_here
                    |apply list_elem_of_here].
  - intros a b Ha Hb. apply Hflat; by apply list_elem_of_further.
Qed.

Lemma slice_to_map {A B} (f : A → B) (n : Z) (l : list A) :
  map f (Py.slice_to n l) = Py.slice_to n (map f l).
Proof.
  unfold Py.slice_to. rewrite length_map.
  destruct (0 <=? n)%Z; by rewrite <- fmap_take.
Qed.

(** *** A profile with nothing in it *)

Lemma zero_share n : (Py.Q_of_nat 0 / Py.Q_of_nat n == 0)%Q.
Proof. unfold Qdiv. change (Py.Q_of_nat 0) with 0%Q. apply Qmult_0_l. Qed.

Lemma lowered_nil_overlap (required : list string) :
  size (lowered [] ∩ lowered required) = 0.
Proof.
  unfold lowered at 1. simpl.
  rewrite (left_absorb_L ∅ (∩)). apply size_empty.
Qed.

Lemma score_without_signal ratio opp p :
  skills p = [] → interests p = [] → bio p = "" →
  (calculate_match_score ratio opp p [] == 0)%Q.
Proof.
  intros Hs Hi Hb. unfold calculate_match_score. cbv zeta.
  assert (skills_match opp p == 0)%Q as H1.
  { unfold skills_match, skills_score. rewrite Hs. cbv zeta.
    rewrite lowered_nil_overlap. case_bool_decide; [|reflexivity].
    rewrite zero_share. reflexivity. }
  assert (interest_match opp p == 0)%Q as H2.
  { unfold interest_match. rewrite Hi. cbv zeta.
    rewrite lowered_nil_overlap. case_bool_decide; [|reflexivity].
    rewrite zero_share. reflexivity. }
  assert (activity_match ratio opp [] = 0%Q) as H3 by done.
  assert (bio_match ratio opp p = 0%Q) as H4
    by (unfold bio_match; by rewrite Hb).
  rewrite H3, H4.
  match goal with |- context [Qle_bool ?s 1] =>
    assert (s == 0)%Q as Hsum by (rewrite H1, H2; reflexivity);
    destruct (Qle_bool s 1) eqn:Hle; [done|] end.
  assert (Qle_bool (0 + skills_match opp p + interest_match opp p + 0 + 0) 1 = true)
    as Htrue by (apply Qle_bool_iff; rewrite Hsum; discriminate).
  congruence.
Qed.

Lemma empty_profile_zero ratio opp :
  (calculate_match_score ratio opp empty_profile [] == 0)%Q.
Proof. by apply score_without_signal. Qed.

(** X12. For a profile without skills and interests and with an empty bio,
    and without recorded activity, the score of every opportunity of the
    dynamic catalog is 0. *)
Theorem empty_profile_scores_zero ratio opp p :
  skills p = [] → interests p = [] → bio p = "" →
  (calculate_match_score ratio opp p [] == 0)%Q.
Proof. apply score_without_signal. Qed.

Lemma empty_profile_scores_zero_witness :
  (calculate_match_score (λ _ _, 1%Q) scenario1_opportunity empty_profile [] == 0)%Q.
Proof.
  apply (empty_profile_scores_zero (λ _ _, 1%Q) scenario1_opportunity empty_profile);
    reflexivity.
Defined.

(** *** What [match_opportunities] returns *)

Lemma ranking_elem ratio σ user community top_k m :
  m ∈ match_opportunities ratio σ user community top_k →
  ∃ opp, stored opp ∈ get_opportunities σ community "active" 50
    ∧ m = {| opportunity := opp;
             match_score :=
               Py.round3
                 (calculate_match_score ratio opp
                    (default empty_profile (get_user_profile σ user))
                    (if reachable σ then Py.last_n 50 (activity_log σ user) else [])) |}.
Proof.
  unfold match_opportunities. cbv zeta.
  destruct (Py.truthy (records (get_opportunities σ community "active" 50))); simpl;
    [|by intros ?%elem_of_nil].
  intros H%Lifecycle.slice_to_elem. rewrite stable_sort_elem in H.
  apply list_elem_of_fmap in H as (opp & -> & Hopp). exists opp.
  split; [by apply Lifecycle.elem_of_records|done].
Qed.

Lemma records_length (l : list Value) : length (records l) ≤ length l.
Proof.
  induction l as [|v l IH]; [done|].
  assert (records (v :: l)
          = match v with stored opp => opp :: records l | nested _ => records l end)
    as -> by (by destruct v).
  destruct v; simpl; lia.
Qed.

(** The ranking, spelled out. *)
Lemma match_opportunities_eq ratio σ user community top_k :
  match_opportunities ratio σ user community top_k =
  Py.slice_to top_k
    (Py.stable_sort better
       (map (λ opp,
               {| opportunity := opp;
                  match_score :=
                    Py.round3
                      (calculate_match_score ratio opp
                         (default empty_profile (get_user_profile σ user))
                         (if reachable σ
                          then Py.last_n 50 (activity_log σ user) else [])) |})
          (records (get_opportunities σ community "active" 50)))).
Proof.
  unfold match_opportunities. cbv zeta.
  destruct (records (get_opportunities σ community "active" 50)); simpl; [|done].
  unfold Py.slice_to. destruct (0 <=? top_k)%Z; by rewrite take_nil.
Qed.

Lemma match_opportunities_sorted ratio σ user community top_k :
  StronglySorted scores_before (match_opportunities ratio σ user community top_k).
Proof.
  rewrite match_opportunities_eq.
  apply CatalogRanking.StronglySorted_slice_to.
  eapply Lifecycle.StronglySorted_weaken; [apply in_order_better|].
  apply stable_sort_sorted; [apply better_asym|apply better_in_order_trans].
Qed.

Lemma match_opportunities_length ratio σ user community top_k :
  (0 ≤ top_k)%Z →
  length (match_opportunities ratio σ user community top_k) ≤ Z.to_nat top_k.
Proof.
  intros Hk. rewrite match_opportunities_eq.
  by apply CatalogRanking.slice_to_length.
Qed.

Lemma match_opportunities_scores ratio σ user community top_k m :
  m ∈ match_opportunities ratio σ user community top_k →
  (match_score m <= 1)%Q
  ∧ ((∀ a b, 0 <= ratio a b)%Q → (0 <= match_score m)%Q).
Proof.
  intros Hm. apply ranking_elem in Hm as (opp & _ & ->). simpl. split.
  - apply round3_le_1, ProfileScorer.profile_score_le_1.
  - intros Hratio. by apply round3_nonneg, ProfileScorer.profile_score_nonneg.
Qed.

Lemma match_opportunities_active ratio σ user community top_k m :
  m ∈ match_opportunities ratio σ user community top_k →
  opp_status (opportunity m) = "active"
  ∧ opportunity m ∈ collection σ community.
Proof.
  intros Hm. apply Lifecycle.match_opportunities_listed in Hm. split.
  - pose proof (Lifecycle.get_opportunities_status σ community "active" 50) as H.
    rewrite Forall_forall in H.
    destruct (H ltac:(discriminate) _ Hm) as (opp & [= <-] & Hs). done.
  - by eapply Lifecycle.get_opportunities_stored.
Qed.

(** X13. Every match that [match_opportunities] returns holds an active
    opportunity of the community; the matches are in the order of their
    scores, highest first; there are at most [top_k] of them ([top_k] not
    negative) and never more than 50; every score is at most 1, and not
    negative as the similarity ratios are not. *)
Theorem ranking_contract ratio σ user community top_k :
  let ranking := match_opportunities ratio σ user community top_k in
  Forall (λ m, opp_status (opportunity m) = "active"
               ∧ opportunity m ∈ collection σ community) ranking
  ∧ StronglySorted scores_before ranking
  ∧ ((0 ≤ top_k)%Z → length ranking ≤ Z.to_nat top_k)
  ∧ length ranking ≤ 50
  ∧ Forall (λ m, (match_score m <= 1)%Q) ranking
  ∧ ((∀ a b, 0 <= ratio a b)%Q → Forall (λ m, (0 <= match_score m)%Q) ranking).
Proof.
  intros ranking. unfold ranking.
  split; [|split; [|split; [|split; [|split]]]].
  - apply Forall_forall. intros m Hm.
    by eapply match_opportunities_active.
  - apply match_opportunities_sorted.
  - apply match_opportunities_length.
  - rewrite match_opportunities_eq.
    etrans; [apply sublist_length, CatalogRanking.slice_to_sublist|].
    rewrite stable_sort_length, length_map.
    etrans; [apply records_length|].
    apply StoreFacts.get_opportunities_length.
  - apply Forall_forall. intros m Hm.
    by apply match_opportunities_scores in Hm as [H _].
  - intros Hratio. apply Forall_forall. intros m Hm.
    apply match_opportunities_scores in Hm as [_ H]. by apply H.
Qed.

Lemma ranking_contract_witness :
  length (match_opportunities (λ _ _, 1%Q)
            (submit empty_store "hub" (plain_submission "Demo day" "id-1" "2024-05-01")).2
            "ana" "hub" 5) ≤ Z.to_nat 5
  ∧ Forall (λ m, (0 <= match_score m)%Q)
      (match_opportunities (λ _ _, 1%Q)
         (submit empty_store "hub" (plain_submission "Demo day" "id-1" "2024-05-01")).2
         "ana" "hub" 5).
Proof.
  destruct (ranking_contract (λ _ _, 1%Q)
              (submit empty_store "hub" (plain_submission "Demo day" "id-1" "2024-05-01")).2
              "ana" "hub" 5) as (_ & _ & Hlen & _ & _ & Hpos).
  split.
  - apply Hlen. lia.
  - apply Hpos. intros _ _. discriminate.
Defined.

(** X14. For a user, named by one path segment, without stored profile and
    without recorded activity,
    [match_opportunities] gives every active opportunity the score 0 and
    keeps the order of the listing: the ranking is the first [top_k] active
    opportunities of the listing of the community, most recent first. *)
Theorem unknown_user_ranking ratio σ user community top_k :
  one_segment user →
  get_user_profile σ user = None →
  activity_log σ user = [] →
  map opportunity (match_opportunities ratio σ user community top_k)
  = Py.slice_to top_k (records (get_opportunities σ community "active" 50))
  ∧ Forall (λ m, (match_score m == 0)%Q)
      (match_opportunities ratio σ user community top_k).
Proof.
  intros _ Hprofile Hlog.
  assert (Forall (λ m, (match_score m == 0)%Q)
            (match_opportunities ratio σ user community top_k)) as Hzero.
  { apply Forall_forall. intros m Hm.
    apply ranking_elem in Hm as (opp & _ & ->). simpl.
    rewrite Hprofile, Hlog. simpl.
    apply round3_zero.
    replace (if reachable σ then Py.last_n 50 [] else []) with (@nil Activity)
      by (by destruct (reachable σ)).
    by apply empty_profile_zero. }
  split; [|done].
  rewrite match_opportunities_eq, Hprofile, Hlog. simpl.
  replace (if reachable σ then Py.last_n 50 [] else []) with (@nil Activity)
    by (by destruct (reachable σ)).
  rewrite stable_sort_flat.
  - rewrite slice_to_map. f_equal. rewrite map_map. simpl. apply map_id.
  - intros x y Hx Hy.
    apply list_elem_of_fmap in Hx as (ox & -> & _).
    apply list_elem_of_fmap in Hy as (oy & -> & _).
    unfold better. cbn [match_score]. apply negb_false_iff, Qle_bool_iff.
    rewrite !round3_zero by by apply empty_profile_zero. discriminate.
Qed.

Lemma unknown_user_ranking_witness :
  map opportunity
    (match_opportunities (λ _ _, 1%Q)
       (submit empty_store "hub" (plain_submission "Demo day" "id-1" "2024-05-01")).2
       "ana" "hub" 5)
  = Py.slice_to 5
      (records
         (get_opportunities
            (submit empty_store "hub" (plain_submission "Demo day" "id-1" "2024-05-01")).2
            "hub" "active" 50)).
Proof.
  apply (unknown_user_ranking (λ _ _, 1%Q)
           (submit empty_store "hub" (plain_submission "Demo day" "id-1" "2024-05-01")).2
           "ana" "hub" 5); reflexivity.
Defined.

(** *** The activity log *)

(** X15. [track_user_activity] appends one record, with the user, the
    community, the type, the content and the time of the call, at the end
    of the log of the user; the logs of the other users, the profiles and
    the opportunities are untouched, and so is every listing.  The user
    names are single path segments. *)
Theorem activity_is_appended σ now user community activity_type content :
  reachable σ = true →
  one_segment user →
  let σ' := track_user_activity σ now user community activity_type content in
  activity_log σ' user
  = activity_log σ user
    ++ [{| act_username := user; act_community := community;
           act_type := activity_type; act_content := content;
           act_timestamp := now |}]
  ∧ (∀ other, one_segment other → other ≠ user →
       activity_log σ' other = activity_log σ other)
  ∧ user_profiles σ' = user_profiles σ
  ∧ opportunities σ' = opportunities σ
  ∧ (∀ c status limit,
       get_opportunities σ' c status limit = get_opportunities σ c status limit).
Proof.
  intros Hr _. unfold track_user_activity. cbv zeta. rewrite Hr.
  unfold activity_log at 1. simpl. rewrite lookup_insert_eq. simpl.
  split; [done|]. split; [|split; [done|split; [done|]]].
  - intros other _ Hother. unfold activity_log. simpl.
    by rewrite lookup_insert_ne.
  - intros c status limit. unfold get_opportunities, collection. simpl.
    by rewrite Hr.
Qed.

Lemma activity_is_appended_witness :
  length (activity_log
            (track_user_activity empty_store "2024-05-01" "ana" "hub" "message" "hello")
            "ana") = 1.
Proof.
  destruct (activity_is_appended empty_store "2024-05-01" "ana" "hub" "message"
              "hello" eq_refl eq_refl) as (H & _).
  rewrite H. reflexivity.
Defined.

Lemma last_n_last_n {A} (m n : nat) (l : list A) :
  m ≤ n → Py.last_n m (Py.last_n n l) = Py.last_n m l.
Proof.
  intros Hmn. unfold Py.last_n. rewrite length_drop, drop_drop. f_equal. lia.
Qed.

Lemma last_n_nil_iff {A} (n : nat) (l : list A) :
  0 < n → Py.last_n n l = [] ↔ l = [].
Proof.
  intros Hn. split; [|by intros ->].
  unfold Py.last_n. intros H. apply (f_equal length) in H.
  rewrite length_drop in H. simpl in H.
  destruct l; [done|]. simpl in H. lia.
Qed.

(** The score reads the contents of the last 20 records of the activity it
    is given. *)
Lemma activity_match_recent ratio opp (log log' : list Activity) :
  map act_content (Py.last_n 20 log) = map act_content (Py.last_n 20 log') →
  activity_match ratio opp log = activity_match ratio opp log'.
Proof.
  intros Hsame. unfold activity_match. rewrite Hsame.
  assert (Py.truthy log = Py.truthy log') as ->; [|done].
  apply (f_equal length) in Hsame. rewrite !length_map in Hsame.
  assert (Py.last_n 20 log = [] ↔ Py.last_n 20 log' = []) as Hnil.
  { rewrite <- !length_zero_iff_nil. lia. }
  rewrite !last_n_nil_iff in Hnil by lia.
  destruct log, log'; try done.
  - by pose proof (proj1 Hnil eq_refl).
  - by pose proof (proj2 Hnil eq_refl).
Qed.

(** X16. [match_opportunities] reads of the activity of the user only the
    contents of the 20 most recent records: a log that agrees with the
    stored one on these contents gives the same ranking, whatever its
    older records and whatever the types, communities and times
    recorded.  The user name is a single path segment. *)
Theorem ranking_reads_recent_activity ratio σ user community top_k log :
  one_segment user →
  map act_content (Py.last_n 20 log)
  = map act_content (Py.last_n 20 (activity_log σ user)) →
  match_opportunities ratio (with_activity σ user log) user community top_k
  = match_opportunities ratio σ user community top_k.
Proof.
  intros _ Hsame. rewrite !match_opportunities_eq.
  assert (∀ status limit,
            get_opportunities (with_activity σ user log) community status limit
            = get_opportunities σ community status limit) as -> by done.
  assert (get_user_profile (with_activity σ user log) user = get_user_profile σ user)
    as -> by done.
  assert (activity_log (with_activity σ user log) user = log) as ->
    by (unfold activity_log, with_activity; simpl; by rewrite lookup_insert_eq).
  change (reachable (with_activity σ user log)) with (reachable σ).
  destruct (reachable σ); [|done].
  do 2 f_equal. apply map_ext. intros opp. do 2 f_equal.
  unfold calculate_match_score. cbv zeta.
  rewrite (activity_match_recent ratio opp (Py.last_n 50 log)
             (Py.last_n 50 (activity_log σ user))); [done|].
  by rewrite !last_n_last_n by lia.
Qed.

Lemma ranking_reads_recent_activity_witness :
  match_opportunities (λ _ _, 1%Q)
    (with_activity
       (track_user_activity empty_store "2024-05-01" "ana" "hub" "message" "hello")
       "ana"
       [{| act_username := "ana"; act_community := "lab"; act_type := "share";
           act_content := "hello"; act_timestamp := "2024-05-02" |}]) "ana" "hub" 5
  = match_opportunities (λ _ _, 1%Q)
      (track_user_activity empty_store "2024-05-01" "ana" "hub" "message" "hello")
      "ana" "hub" 5.
Proof.
  apply (ranking_reads_recent_activity (λ _ _, 1%Q)
           (track_user_activity empty_store "2024-05-01" "ana" "hub" "message" "hello")
           "ana" "hub" 5).
  - reflexivity.
  - vm_compute. reflexivity.
Defined.

End DynamicRanking.

(** ** The profile scorer and the recommendations *)

Module ScoringFacts.
Import Matcher.

(** *** Shares *)

Lemma Q_of_nat_inj n d : (Py.Q_of_nat n == Py.Q_of_nat d)%Q ↔ n = d.
Proof.
  unfold Py.Q_of_nat. rewrite inject_Z_injective. lia.
Qed.

(** A share [n / d] of a weight [w] is the whole weight exactly when
    [n = d], and nothing exactly when [n = 0]. *)
Lemma share_full n d (w : Q) :
  0 < d → (0 < w)%Q →
  (Py.Q_of_nat n / Py.Q_of_nat d * w == w)%Q ↔ n = d.
Proof.
  intros Hd Hw. pose proof (TagScorer.Q_of_nat_pos d Hd) as Hpos.
  rewrite <- Q_of_nat_inj. split; intros H.
  - assert (Py.Q_of_nat n / Py.Q_of_nat d == 1)%Q as H1.
    { apply (Qmult_inj_r _ _ w); [lra|]. rewrite H. lra. }
    rewrite <- (Qmult_div_r (Py.Q_of_nat n) (Py.Q_of_nat d)) by lra.
    rewrite H1. lra.
  - rewrite H. unfold Qdiv. rewrite Qmult_inv_r by lra. lra.
Qed.

Lemma share_none n d (w : Q) :
  0 < d → (0 < w)%Q →
  (Py.Q_of_nat n / Py.Q_of_nat d * w == 0)%Q ↔ n = 0.
Proof.
  intros Hd Hw. pose proof (TagScorer.Q_of_nat_pos d Hd) as Hpos.
  rewrite <- (Q_of_nat_inj n 0). change (Py.Q_of_nat 0) with 0%Q.
  split; intros H.
  - assert (Py.Q_of_nat n / Py.Q_of_nat d == 0)%Q as H1.
    { apply (Qmult_inj_r _ _ w); [lra|]. rewrite H. lra. }
    rewrite <- (Qmult_div_r (Py.Q_of_nat n) (Py.Q_of_nat d)) by lra.
    rewrite H1. lra.
  - rewrite H. unfold Qdiv. lra.
Qed.

(** *** Sets of case-folded strings *)

Lemma elem_of_lowered (x : string) (l : list string) :
  x ∈ lowered l ↔ ∃ s, s ∈ l ∧ Py.lower s = x.
Proof.
  unfold lowered. rewrite elem_of_list_to_set, list_elem_of_In, in_map_iff.
  split; intros (s & H1 & H2); exists s; by rewrite ?list_elem_of_In in *.
Qed.

Lemma lowered_nonempty (l : list string) : l ≠ [] → lowered l ≠ ∅.
Proof.
  destruct l as [|x l]; [done|]. intros _ Hempty.
  assert (Py.lower x ∈ lowered (x :: l)) as Hin
    by (apply elem_of_lowered; exists x; split; [apply list_elem_of_here|done]).
  rewrite Hempty in Hin. by apply not_elem_of_empty in Hin.
Qed.

Lemma lowered_covered (required user : list string) :
  lowered required ⊆ lowered user
  ↔ ∀ r, r ∈ required → ∃ s, s ∈ user ∧ Py.lower s = Py.lower r.
Proof.
  split.
  - intros Hsub r Hr. apply elem_of_lowered, Hsub, elem_of_lowered. by exists r.
  - intros Hall x (r & Hr & <-)%elem_of_lowered. apply elem_of_lowered. by apply Hall.
Qed.

Lemma lowered_apart (required user : list string) :
  lowered user ∩ lowered required = ∅
  ↔ ∀ r s, r ∈ required → s ∈ user → Py.lower s ≠ Py.lower r.
Proof.
  split.
  - intros Hempty r s Hr Hs Heq.
    assert (Py.lower r ∈ lowered user ∩ lowered required) as Hin.
    { apply elem_of_intersection. split; apply elem_of_lowered; eauto. }
    rewrite Hempty in Hin. by apply not_elem_of_empty in Hin.
  - intros Hall. apply leibniz_equiv, elem_of_equiv_empty. intros x.
    rewrite elem_of_intersection, !elem_of_lowered.
    intros [(s & Hs & <-) (r & Hr & Heq)]. by apply (Hall r s).
Qed.

Lemma overlap_full (U R : gset string) : size (U ∩ R) = size R ↔ R ⊆ U.
Proof.
  split.
  - intros Hsize.
    assert (U ∩ R = R) as Heq.
    { apply set_subseteq_size_eq; [|lia].
      intros x Hx. by apply elem_of_intersection in Hx as [_ Hx]. }
    intros x Hx. rewrite <- Heq in Hx.
    by apply elem_of_intersection in Hx as [Hx _].
  - intros Hsub. f_equal. apply leibniz_equiv. intros x.
    rewrite elem_of_intersection.
    split; [by intros [_ ?]|]. intros Hx. split; [by apply Hsub|done].
Qed.

Lemma overlap_none (U R : gset string) : size (U ∩ R) = 0 ↔ U ∩ R = ∅.
Proof. by rewrite size_empty_iff, leibniz_equiv_iff. Qed.

(** *** The components at their extremes *)

Lemma skills_match_share opp p :
  opp_requirements opp ≠ [] →
  skills_match opp p
  = (Py.Q_of_nat (size (lowered (skills p) ∩ lowered (opp_requirements opp)))
     / Py.Q_of_nat (size (lowered (opp_requirements opp))) * (4 # 10))%Q
  ∧ 0 < size (lowered (opp_requirements opp)).
Proof.
  intros Hreq. apply lowered_nonempty in Hreq.
  unfold skills_match, skills_score. cbv zeta.
  rewrite bool_decide_true by done. split; [done|].
  apply Nat.neq_0_lt_0. by rewrite size_empty_iff, leibniz_equiv_iff.
Qed.

Lemma interest_match_share opp p :
  opp_tags opp ≠ [] →
  interest_match opp p
  = (Py.Q_of_nat (size (lowered (interests p) ∩ lowered (opp_tags opp)))
     / Py.Q_of_nat (size (lowered (opp_tags opp))) * (3 # 10))%Q
  ∧ 0 < size (lowered (opp_tags opp)).
Proof.
  intros Htags. apply lowered_nonempty in Htags.
  unfold interest_match. cbv zeta.
  rewrite !bool_decide_true by done. split; [done|].
  apply Nat.neq_0_lt_0. by rewrite size_empty_iff, leibniz_equiv_iff.
Qed.

(** X17. When the opportunity has requirements, the skills component is
    the full 0.4 exactly when every requirement is, without regard to
    case, one of the user's skills, and it is 0 exactly when no requirement
    is; the same holds of the interest component, 0.3, the tags of the
    opportunity and the user's interests. *)
Theorem components_at_extremes opp p :
  (opp_requirements opp ≠ [] →
   ((skills_match opp p == 4 # 10)%Q
    ↔ ∀ r, r ∈ opp_requirements opp →
           ∃ s, s ∈ skills p ∧ Py.lower s = Py.lower r)
   ∧ ((skills_match opp p == 0)%Q
      ↔ ∀ r s, r ∈ opp_requirements opp → s ∈ skills p →
               Py.lower s ≠ Py.lower r))
  ∧ (opp_tags opp ≠ [] →
     ((interest_match opp p == 3 # 10)%Q
      ↔ ∀ t, t ∈ opp_tags opp →
             ∃ i, i ∈ interests p ∧ Py.lower i = Py.lower t)
     ∧ ((interest_match opp p == 0)%Q
        ↔ ∀ t i, t ∈ opp_tags opp → i ∈ interests p →
                 Py.lower i ≠ Py.lower t)).
Proof.
  split.
  - intros Hreq. destruct (skills_match_share opp p Hreq) as [-> Hpos]. split.
    + rewrite share_full by (done || reflexivity).
      by rewrite overlap_full, lowered_covered.
    + rewrite share_none by (done || reflexivity).
      by rewrite overlap_none, lowered_apart.
  - intros Htags. destruct (interest_match_share opp p Htags) as [-> Hpos]. split.
    + rewrite share_full by (done || reflexivity).
      by rewrite overlap_full, lowered_covered.
    + rewrite share_none by (done || reflexivity).
      by rewrite overlap_none, lowered_apart.
Qed.

Lemma components_at_extremes_witness :
  (skills_match scenario1_opportunity (with_skills scenario1_profile ["SQL"; "Python"])
   == 4 # 10)%Q.
Proof.
  apply (components_at_extremes scenario1_opportunity
           (with_skills scenario1_profile ["SQL"; "Python"])).
  - discriminate.
  - intros r Hr. apply list_elem_of_In in Hr. simpl in Hr.
    destruct Hr as [<-|[<-|[]]].
    + exists "Python". split; [|reflexivity].
      apply list_elem_of_further, list_elem_of_here.
    + exists "SQL". split; [|reflexivity]. apply list_elem_of_here.
Defined.

(** *** The sum of the components *)

Section Ratio.
Variable ratio : string → string → Q.
Hypothesis ratio_range : ∀ a b, (0 <= ratio a b <= 1)%Q.

Lemma activity_match_range opp activity :
  (0 <= activity_match ratio opp activity <= 2 # 10)%Q.
Proof.
  unfold activity_match. destruct (Py.truthy activity); [|lra]. cbv zeta.
  match goal with |- context [ratio ?a ?b] => pose proof (ratio_range a b) end.
  lra.
Qed.

Lemma bio_match_range opp p :
  (0 <= bio_match ratio opp p <= 1 # 10)%Q.
Proof.
  unfold bio_match. destruct (Py.str_truthy (Py.lower (bio p))); [|lra]. cbv zeta.
  match goal with |- context [ratio ?a ?b] => pose proof (ratio_range a b) end.
  lra.
Qed.

Lemma score_is_sum opp p activity :
  (calculate_match_score ratio opp p activity
   == skills_match opp p + interest_match opp p
      + activity_match ratio opp activity + bio_match ratio opp p)%Q.
Proof.
  pose proof (ProfileScorer.skills_match_range opp p).
  pose proof (ProfileScorer.interest_match_range opp p).
  pose proof (activity_match_range opp activity).
  pose proof (bio_match_range opp p).
  unfold calculate_match_score. cbv zeta.
  match goal with |- context [Qle_bool ?s 1] =>
    destruct (Qle_bool s 1) eqn:Hle; [lra|];
    assert (Qle_bool s 1 = true) by (apply Qle_bool_iff; lra) end.
  congruence.
Qed.

End Ratio.

Lemma skills_match_none opp p : opp_requirements opp = [] → skills_match opp p = 0%Q.
Proof. intros H. unfold skills_match. by rewrite H. Qed.

Lemma interest_match_none opp p : opp_tags opp = [] → interest_match opp p = 0%Q.
Proof. intros H. unfold interest_match. by rewrite H. Qed.

Lemma bio_match_none ratio opp p : bio p = "" → bio_match ratio opp p = 0%Q.
Proof. intros H. unfold bio_match. by rewrite H. Qed.

(** X18. With similarity ratios between 0 and 1, as those of [difflib]
    are, the score is the plain sum of the four components, the final
    [min(score, 1.0)] changing nothing; the components lie between 0 and
    their weights 0.4, 0.3, 0.2 and 0.1; and a component is 0 when what it
    compares is missing: the requirements of the opportunity, its tags, the
    recorded activity of the user, the bio of the user. *)
Theorem score_is_weighted_sum ratio opp p activity :
  (∀ a b, 0 <= ratio a b <= 1)%Q →
  (calculate_match_score ratio opp p activity
   == skills_match opp p + interest_match opp p
      + activity_match ratio opp activity + bio_match ratio opp p)%Q
  ∧ (0 <= skills_match opp p <= 4 # 10)%Q
  ∧ (0 <= interest_match opp p <= 3 # 10)%Q
  ∧ (0 <= activity_match ratio opp activity <= 2 # 10)%Q
  ∧ (0 <= bio_match ratio opp p <= 1 # 10)%Q
  ∧ (opp_requirements opp = [] → (skills_match opp p == 0)%Q)
  ∧ (opp_tags opp = [] → (interest_match opp p == 0)%Q)
  ∧ (activity = [] → (activity_match ratio opp activity == 0)%Q)
  ∧ (bio p = "" → (bio_match ratio opp p == 0)%Q).
Proof.
  intros Hratio.
  split; [apply (score_is_sum ratio Hratio)|].
  split; [apply ProfileScorer.skills_match_range|].
  split; [apply ProfileScorer.interest_match_range|].
  split; [apply (activity_match_range ratio Hratio)|].
  split; [apply (bio_match_range ratio Hratio)|].
  split; [intros H'; by rewrite (skills_match_none opp p H')|].
  split; [intros H'; by rewrite (interest_match_none opp p H')|].
  split; [by intros ->|].
  intros H'. by rewrite (bio_match_none ratio opp p H').
Qed.

Lemma score_is_weighted_sum_witness :
  (calculate_match_score (λ _ _, 1%Q) open_call scenario1_profile []
   == skills_match open_call scenario1_profile
      + interest_match open_call scenario1_profile
      + activity_match (λ _ _, 1%Q) open_call []
      + bio_match (λ _ _, 1%Q) open_call scenario1_profile)%Q.
Proof.
  destruct (score_is_weighted_sum (λ _ _, 1%Q) open_call scenario1_profile [])
    as [H _]; [|exact H].
  intros _ _. split; discriminate.
Defined.

(** *** What the scorer reads of a profile *)

(** X19. The score reads of the profile only the set of its case-folded
    skills, the set of its case-folded interests and its case-folded bio:
    two profiles that agree on these get the same score for every
    opportunity, whatever their tags, names and metadata, and whatever the
    order, the case and the repetitions in their lists. *)
Theorem scorer_reads_skills_interests_bio ratio opp p p' activity :
  lowered (skills p) = lowered (skills p') →
  lowered (interests p) = lowered (interests p') →
  Py.lower (bio p) = Py.lower (bio p') →
  calculate_match_score ratio opp p activity
  = calculate_match_score ratio opp p' activity.
Proof.
  intros Hs Hi Hb.
  unfold calculate_match_score, skills_match, skills_score, interest_match,
    bio_match.
  cbv zeta. by rewrite Hs, Hi, Hb.
Qed.

Lemma scorer_reads_skills_interests_bio_witness :
  calculate_match_score (λ _ _, 1%Q) scenario1_opportunity
    {| username := "ana"; skills := ["SQL"; "sql"; "Python"]; interests := [];
       tags := ["ai"]; bio := "Data"; metadata := ∅; updated_at := "" |} []
  = calculate_match_score (λ _ _, 1%Q) scenario1_opportunity
      {| username := "ben"; skills := ["python"; "SQL"]; interests := [];
         tags := []; bio := "data"; metadata := ∅; updated_at := "" |} [].
Proof.
  apply (scorer_reads_skills_interests_bio (λ _ _, 1%Q) scenario1_opportunity).
  - apply (bool_decide_unpack _). vm_compute. exact I.
  - reflexivity.
  - reflexivity.
Defined.

(** *** Recommendations *)

(** In a list sorted by an order that a test respects, the elements that
    pass the test are the first ones. *)
Lemma filter_sorted_prefix {A} (R : A → A → Prop) (p : A → bool) (l : list A) :
  (∀ x y, R x y → p y = true → p x = true) →
  StronglySorted R l →
  List.filter p l = take (length (List.filter p l)) l.
Proof.
  intros HR. induction 1 as [|x l Hl IH Hx]; [done|].
  cbn [List.filter]. destruct (p x) eqn:Hpx.
  - cbn [length take]. by rewrite <- IH.
  - rewrite filter_all_false; [done|].
    apply Forall_forall. intros y Hy. rewrite Forall_forall in Hx.
    destruct (p y) eqn:Hpy; [|done].
    rewrite (HR x y (Hx y Hy) Hpy) in Hpx. done.
Qed.

Lemma filter_forall {A} (p : A → bool) (l : list A) :
  Forall (λ x, p x = true) (List.filter p l).
Proof.
  apply Forall_forall. intros x Hx.
  by apply list_elem_of_In, filter_In in Hx as [_ Hx].
Qed.

Lemma recommendations_threshold ratio σ user community min_score :
  Forall (λ m, (min_score <= match_score m)%Q)
    (get_opportunity_recommendations ratio σ user community min_score).
Proof.
  unfold get_opportunity_recommendations. cbv zeta.
  eapply Forall_impl; [apply filter_forall|].
  intros m Hm. by apply Qle_bool_iff.
Qed.

(** X20. [get_opportunity_recommendations] returns the head of the ranking
    of the ten best matches, cut where the scores fall below [min_score]:
    every recommendation reaches [min_score], there are at most ten, in the
    order of the ranking; a threshold above 1 leaves nothing, and a
    threshold of 0 or less keeps the ten matches (the similarity ratios
    being not negative).  The endpoint [api_match_opportunities] computes
    the same list. *)
Theorem recommendations_are_head_of_ranking ratio σ user community min_score :
  let ranking := match_opportunities ratio σ user community 10 in
  let recommendations :=
    get_opportunity_recommendations ratio σ user community min_score in
  recommendations = take (length recommendations) ranking
  ∧ Forall (λ m, (min_score <= match_score m)%Q) recommendations
  ∧ length recommendations ≤ 10
  ∧ ((1 < min_score)%Q → recommendations = [])
  ∧ ((∀ a b, 0 <= ratio a b)%Q → (min_score <= 0)%Q → recommendations = ranking)
  ∧ Api.api_match_opportunities ratio σ community user min_score = recommendations.
Proof.
  intros ranking recommendations.
  assert (recommendations
          = List.filter (λ m, Qle_bool min_score (match_score m)) ranking)
    as Hrec by done.
  split; [|split; [|split; [|split; [|split]]]].
  - rewrite Hrec. apply (filter_sorted_prefix scores_before).
    + intros x y Hxy Hy. apply Qle_bool_iff. apply Qle_bool_iff in Hy.
      unfold scores_before in Hxy. by apply Qle_trans with (match_score y).
    + apply DynamicRanking.match_opportunities_sorted.
  - apply recommendations_threshold.
  - rewrite Hrec.
    etrans; [apply sublist_length, CatalogRanking.filter_sublist|].
    by apply (DynamicRanking.match_opportunities_length ratio σ user community 10).
  - intros Hmin. rewrite Hrec. apply filter_all_false, Forall_forall.
    intros m Hm.
    apply DynamicRanking.match_opportunities_scores in Hm as [Hle _].
    destruct (Qle_bool min_score (match_score m)) eqn:Hq; [|done].
    apply Qle_bool_iff in Hq. lra.
  - intros Hratio Hmin. rewrite Hrec.
    apply CatalogRanking.filter_keeps_all, Forall_forall. intros m Hm.
    apply DynamicRanking.match_opportunities_scores in Hm as [_ Hge].
    apply Qle_bool_iff. specialize (Hge Hratio). lra.
  - done.
Qed.

Lemma recommendations_are_head_of_ranking_witness :
  get_opportunity_recommendations (λ _ _, 1%Q)
    (submit empty_store "hub" (plain_submission "Demo day" "id-1" "2024-05-01")).2
    "ana" "hub" (3 # 2) = [].
Proof.
  destruct (recommendations_are_head_of_ranking (λ _ _, 1%Q)
              (submit empty_store "hub" (plain_submission "Demo day" "id-1" "2024-05-01")).2
              "ana" "hub" (3 # 2)) as (_ & _ & _ & Hnone & _).
  apply Hnone. reflexivity.
Defined.

(** X21. Raising the threshold only removes recommendations: the list for
    a higher [min_score] is the list for the lower one with the entries
    below the higher threshold removed, hence a head of it. *)
Theorem recommendations_shrink ratio σ user community low high :
  (low <= high)%Q →
  get_opportunity_recommendations ratio σ user community high
  = List.filter (λ m, Qle_bool high (match_score m))
      (get_opportunity_recommendations ratio σ user community low)
  ∧ length (get_opportunity_recommendations ratio σ user community high)
    ≤ length (get_opportunity_recommendations ratio σ user community low).
Proof.
  intros Hle.
  assert (get_opportunity_recommendations ratio σ user community high
          = List.filter (λ m, Qle_bool high (match_score m))
              (get_opportunity_recommendations ratio σ user community low))
    as Heq.
  { unfold get_opportunity_recommendations. cbv zeta.
    induction (match_opportunities ratio σ user community 10) as [|m l IH];
      [done|].
    cbn [List.filter].
    destruct (Qle_bool high (match_score m)) eqn:Hh.
    - assert (Qle_bool low (match_score m) = true) as ->.
      { apply Qle_bool_iff. apply Qle_bool_iff in Hh. lra. }
      cbn [List.filter]. by rewrite Hh, IH.
    - destruct (Qle_bool low (match_score m)); [|done].
      cbn [List.filter]. by rewrite Hh. }
  split; [done|]. rewrite Heq.
  apply sublist_length, CatalogRanking.filter_sublist.
Qed.

Lemma recommendations_shrink_witness :
  length (get_opportunity_recommendations (λ _ _, 1%Q)
            (submit empty_store "hub" (plain_submission "Demo day" "id-1" "2024-05-01")).2
            "ana" "hub" (1 # 2))
  ≤ length (get_opportunity_recommendations (λ _ _, 1%Q)
              (submit empty_store "hub" (plain_submission "Demo day" "id-1" "2024-05-01")).2
              "ana" "hub" 0).
Proof.
  apply (recommendations_shrink (λ _ _, 1%Q)
           (submit empty_store "hub" (plain_submission "Demo day" "id-1" "2024-05-01")).2
           "ana" "hub" 0 (1 # 2)).
  discriminate.
Defined.

End ScoringFacts.

(** ** The callers: endpoints and forms *)

Module CallerFacts.
Import Matcher.

(** *** [strip] and [lower] *)







(** What [lstrip] leaves does not start with white space. *)
Lemma lstrip_head s :
  Py.lstrip s = "" ∨ ∃ c t, Py.lstrip s = String c t ∧ Py.is_space c = false.
Proof.
  induction s as [|c s IH]; [by left|]. simpl.
  destruct (Py.is_space c) eqn:Hc; [done|]. right. by exists c, s.
Qed.

Lemma rstrip_idemp s : Py.rstrip (Py.rstrip s) = Py.rstrip s.
Proof.
  induction s as [|c s IH]; [done|]. simpl.
  destruct (Py.rstrip s) as [|c' r] eqn:Hr.
  - destruct (Py.is_space c) eqn:Hc; [done|]. simpl. by rewrite Hc.
  - simpl in *. by rewrite IH.
Qed.

Lemma strip_idemp s : Py.strip (Py.strip s) = Py.strip s.
Proof.
  unfold Py.strip.
  assert (Py.lstrip (Py.rstrip (Py.lstrip s)) = Py.rstrip (Py.lstrip s)) as ->;
    [|apply rstrip_idemp].
  destruct (lstrip_head s) as [->|(c & t & -> & Hc)]; [done|].
  cbn [Py.rstrip]. destruct (Py.rstrip t); rewrite ?Hc; cbn [Py.lstrip]; by rewrite Hc.
Qed.


(** *** The profile form *)

Lemma comma_list_trimmed text : Forall (λ s, Py.strip s = s) (Forms.comma_list text).
Proof.
  unfold Forms.comma_list. destruct (Py.str_truthy text); [|constructor].
  apply Forall_forall. intros s (t & -> & _)%list_elem_of_fmap.
  apply strip_idemp.
Qed.





(** *** The profile endpoint *)

(** X23. [api_update_profile] passes no tags: the profile it writes has an
    empty list of tags and no metadata, whatever the profile stored before
    held.  Tags saved through the profile form are lost by an update
    through the endpoint.  The user name is a single path segment. *)
Theorem api_profile_update_drops_tags σ now profile :
  reachable σ = true →
  one_segment (Api.in_username profile) →
  let result := Api.api_update_profile σ now profile in
  result.1 = true
  ∧ Api.api_get_profile result.2 (Api.in_username profile)
    = Some {| username := Api.in_username profile;
              skills := Api.in_skills profile;
              interests := Api.in_interests profile;
              tags := [];
              bio := Api.in_bio profile;
              metadata := ∅;
              updated_at := now |}
  ∧ (∀ before bio_text skills_input interests_input tags_input,
       tags <$> Api.api_get_profile
                  (Api.api_update_profile
                     (Forms.save_profile σ before (Api.in_username profile) bio_text
                        skills_input interests_input tags_input).2 now profile).2
                  (Api.in_username profile)
       = Some []).
Proof.
  intros Hr _.
  assert (∀ σ0, reachable σ0 = true →
            (Api.api_update_profile σ0 now profile).1 = true
            ∧ Api.api_get_profile (Api.api_update_profile σ0 now profile).2
                (Api.in_username profile)
              = Some {| username := Api.in_username profile;
                        skills := Api.in_skills profile;
                        interests := Api.in_interests profile;
                        tags := [];
                        bio := Api.in_bio profile;
                        metadata := ∅;
                        updated_at := now |}) as Hwrite.
  { intros σ0 Hr0.
    unfold Api.api_update_profile, Api.api_get_profile, update_user_profile,
      get_user_profile.
    cbv zeta. rewrite Hr0. cbn [fst snd reachable user_profiles].
    by rewrite lookup_insert_eq. }
  destruct (Hwrite σ Hr) as [H1 H2]. split; [done|]. split; [done|].
  intros before bio_text skills_input interests_input tags_input.
  destruct (Hwrite (Forms.save_profile σ before (Api.in_username profile) bio_text
                      skills_input interests_input tags_input).2) as [_ H3].
  - unfold Forms.save_profile, update_user_profile. cbv zeta. by rewrite Hr.
  - by rewrite H3.
Qed.

Lemma api_profile_update_drops_tags_witness :
  tags <$> Api.api_get_profile
             (Api.api_update_profile
                (Forms.save_profile empty_store "2024-05-01" "ana" "" "" "" "ai").2
                "2024-05-02"
                {| Api.in_username := "ana"; Api.in_skills := ["python"];
                   Api.in_interests := []; Api.in_bio := "" |}).2 "ana"
  = Some [].
Proof.
  destruct (api_profile_update_drops_tags empty_store "2024-05-02"
              {| Api.in_username := "ana"; Api.in_skills := ["python"];
                 Api.in_interests := []; Api.in_bio := "" |} eq_refl eq_refl)
    as (_ & _ & H).
  apply (H "2024-05-01" "" "" "" "ai").
Defined.

(** *** The opportunity endpoint *)

(** X24. [api_create_opportunity] answers with the id of the opportunity
    that [add_opportunity] stored, and records one engagement of type
    [opportunity_posted] for the poster, at the time of that second write,
    when a poster is given; without a poster it records none.  When the
    database does not answer or refuses the name of the community, it
    answers with an error and nothing is stored. *)
Theorem api_create_opportunity_outcome w uuid4 now later opp :
  let result := Api.api_create_opportunity w uuid4 now later opp in
  (reachable (Analytics.firebase w) = false ∨ segments (Api.in_community opp) = None →
   result = (Api.not_created "Failed to create opportunity", w))
  ∧ (reachable (Analytics.firebase w) = true →
     uuid4 ≠ "" →
     ∀ path, segments (Api.in_community opp) = Some path →
     result.1 = Api.created uuid4
     ∧ Analytics.firebase result.2
       = (add_opportunity (Analytics.firebase w) uuid4 now (Api.in_community opp)
            (Api.in_title opp) (Api.in_description opp) (Api.in_category opp)
            (Some (Api.in_tags opp)) (Some (Api.in_requirements opp))
            (Api.in_deadline opp) (Api.in_posted_by opp) None).2
     ∧ Analytics.engagement_log result.2 path
       = Analytics.engagement_log w path
         ++ (if Api.given (Api.in_posted_by opp)
             then [{| Analytics.eng_username := default "" (Api.in_posted_by opp);
                      Analytics.eng_community := Api.in_community opp;
                      Analytics.eng_type := "opportunity_posted";
                      Analytics.eng_metadata := ∅;
                      Analytics.eng_timestamp := later |}]
             else [])
     ∧ (∀ path', path' ≠ path →
          Analytics.engagement_log result.2 path' = Analytics.engagement_log w path')).
Proof.
  intros result. unfold result, Api.api_create_opportunity, add_opportunity.
  cbv zeta. split.
  - intros [Hr|Hpath].
    + rewrite Hr. simpl. by destruct w.
    + rewrite Hpath. destruct (reachable (Analytics.firebase w)); simpl; by destruct w.
  - intros Hr Hid path Hpath. rewrite Hr, Hpath.
    cbn [opp_id Api.given].
    assert (Py.str_truthy uuid4 = true) as -> by (by destruct uuid4).
    destruct (Api.given (Api.in_posted_by opp)) eqn:Hgiven.
    + unfold Analytics.track_engagement. cbv zeta.
      cbn [Analytics.firebase with_collection reachable]. rewrite Hr, Hpath.
      cbn [fst snd default Analytics.firebase].
      split; [done|]. split; [done|].
      unfold Analytics.engagement_log. cbn [Analytics.engagement].
      rewrite lookup_insert_eq. split; [done|].
      intros path' Hne. by rewrite lookup_insert_ne.
    + cbn [fst snd default Analytics.firebase].
      split; [done|]. split; [done|].
      unfold Analytics.engagement_log. cbn [Analytics.engagement].
      by rewrite app_nil_r.
Qed.

Lemma api_create_opportunity_outcome_witness :
  (Api.api_create_opportunity
     {| Analytics.firebase := empty_store; Analytics.engagement := ∅ |}
     "id-1" "2024-05-01" "2024-05-02"
     {| Api.in_community := "hub"; Api.in_title := "Demo day";
        Api.in_description := ""; Api.in_category := "event"; Api.in_tags := [];
        Api.in_requirements := []; Api.in_deadline := None;
        Api.in_posted_by := Some "ana" |}).1
  = Api.created "id-1".
Proof.
  destruct (api_create_opportunity_outcome
              {| Analytics.firebase := empty_store; Analytics.engagement := ∅ |}
              "id-1" "2024-05-01" "2024-05-02"
              {| Api.in_community := "hub"; Api.in_title := "Demo day";
                 Api.in_description := ""; Api.in_category := "event";
                 Api.in_tags := []; Api.in_requirements := [];
                 Api.in_deadline := None; Api.in_posted_by := Some "ana" |})
    as [_ H].
  apply (H eq_refl ltac:(discriminate) ["hub"] eq_refl).
Defined.

(** *** The opportunity form *)

(** X25. The form [post_opportunity] calls [add_opportunity] only when it
    is submitted with a title and a description; the record then stored
    names the user as the poster, carries the deadline of the form, and
    its tags and requirements are the fields split at the commas and
    trimmed, their case kept. *)
Theorem post_opportunity_form σ uuid4 now community user_name submitted title
    description category tags_input requirements_input deadline :
  let result :=
    Forms.post_opportunity σ uuid4 now community user_name submitted title
      description category tags_input requirements_input deadline in
  (submitted = false ∨ title = "" ∨ description = "" → result = (None, σ))
  ∧ (submitted = true → title ≠ "" → description ≠ "" →
     reachable σ = true →
     ∀ path, segments community = Some path →
     result.1 = Some (Some uuid4)
     ∧ ∃ opp,
         collection result.2 community = collection σ community ++ [opp]
         ∧ opp_id opp = uuid4
         ∧ opp_title opp = title
         ∧ opp_posted_by opp = Some user_name
         ∧ opp_deadline opp = Some deadline
         ∧ opp_status opp = "active"
         ∧ opp_tags opp = Forms.comma_list tags_input
         ∧ opp_requirements opp = Forms.comma_list requirements_input
         ∧ Forall (λ t, Py.strip t = t) (opp_tags opp)
         ∧ Forall (λ t, Py.strip t = t) (opp_requirements opp)).
Proof.
  intros result. unfold result, Forms.post_opportunity. split.
  - intros [-> | [-> | ->]]; [done|by destruct submitted|].
    by destruct submitted, title.
  - intros -> Htitle Hdescription Hr path Hpath.
    assert (Py.str_truthy title = true) as -> by (by destruct title).
    assert (Py.str_truthy description = true) as -> by (by destruct description).
    cbn [andb]. unfold add_opportunity. cbv zeta. rewrite Hr, Hpath.
    cbn [fst snd opp_id]. split; [done|].
    eexists. rewrite (Lifecycle.collection_with_collection _ _ path) by done.
    rewrite <- (Lifecycle.collection_path _ _ _ Hpath).
    split; [done|]. cbn [opp_id opp_title opp_posted_by opp_deadline opp_status
                          opp_tags opp_requirements default].
    repeat (split; [done|]).
    split; apply comma_list_trimmed.
Qed.

Lemma post_opportunity_form_witness :
  (Forms.post_opportunity empty_store "id-1" "2024-05-01" "hub" "ana" true
     "Demo day" "Pitches" "event" "AI, startup" "" "2024-06-01").1
  = Some (Some "id-1").
Proof.
  destruct (post_opportunity_form empty_store "id-1" "2024-05-01" "hub" "ana" true
              "Demo day" "Pitches" "event" "AI, startup" "" "2024-06-01")
    as [_ H].
  apply (H eq_refl ltac:(discriminate) ltac:(discriminate) eq_refl ["hub"] eq_refl).
Defined.

End CallerFacts.
